(** * The AiiDA workflow runtime ([aiida/orm/workflow.py]) in Rocq

    A shallow embedding of the [Workflow] class: the step decorator, the
    [next] engine, the lazy attachment buffers, [kill], the report
    forwarding and the resumer, over an explicit model of the database
    tables the class talks to.

    Python methods become computations in a state-and-exception monad
    [M]: an exception leaves every write made before it in place, exactly
    as the Django calls of the source do (there is no transaction around
    a step).  Every write to the persistence layer is reified as a
    [db_op], applied to the tables and appended to a log, so that the
    order of the writes can be stated. *)

From Stdlib Require Import List String Bool Arith Lia DecimalString.
Import ListNotations.
Open Scope string_scope.

(** ** Sentinels and enumerations *)

(** Modelled from the spec: [aiida.common.datastructures] is imported by
    the source but is not part of it.  The states are the six the spec
    enumerates. *)
Inductive wf_states : Type :=
| CREATED | INITIALIZED | RUNNING | SLEEP | FINISHED | ERROR.

Definition wf_states_eqb (a b : wf_states) : bool :=
  match a, b with
  | CREATED, CREATED | INITIALIZED, INITIALIZED | RUNNING, RUNNING
  | SLEEP, SLEEP | FINISHED, FINISHED | ERROR, ERROR => true
  | _, _ => false
  end.

(** Modelled from the spec: the reserved next-call strings of
    [aiida.common.datastructures]. *)
Definition wf_exit_call : string := "__exit__".
Definition wf_default_call : string := "__default__".

(** Modelled from the spec: the calculation subsystem is an external
    collaborator.  The engine sets [calc_states.FINISHED] and otherwise
    only asks whether a state is terminal. *)
Inductive calc_states : Type :=
| CALC_ACTIVE | CALC_FINISHED | CALC_FAILED.

Definition calc_is_terminal (s : calc_states) : bool :=
  match s with CALC_ACTIVE => false | _ => true end.

(** ** Exceptions *)

Inductive exn : Type :=
| ValidationError (msg : string)
| AiidaException (msg : string)
| InternalError (msg : string)
| NotExistent (msg : string)
| ObjectDoesNotExist
| MultipleObjectsReturned
| AttributeError (attr : string)
| TypeError (msg : string)
| RuntimeError (msg : string)
| UserException (what : string).

(** The names the specification gives to the failures of the engine. *)
Definition IntegrityViolation (script_path : string) : exn :=
  ValidationError ("Unable to load the original workflow module from "
                   ++ script_path ++ ", MD5 has changed").
Definition NullNext : exn :=
  AiidaException "The next method is None, probably you passed a method with parenthesis ??".
Definition UnknownCaller : exn :=
  AiidaException "The caller method is either not a step or has not been registered as one".
Definition NotAStep : exn :=
  AiidaException "Cannot add as next call a method not decorated as Workflow method".
Definition InvalidStepCall : exn :=
  AiidaException "A step method cannot have any argument, use add_attribute to the workflow".
Definition StepAlreadyInitialized (wrapped_method : string) : exn :=
  AiidaException ("The step " ++ wrapped_method
    ++ " has already been initialized, cannot change this outside the parent workflow !").
Definition ReservedNameMisuse (name : string) : exn :=
  InternalError ("Cannot query a step with name " ++ name ++ ", reserved string").
Definition RecursionDepthExceeded : exn :=
  RuntimeError "maximum recursion depth exceeded".

Inductive result (A : Type) : Type :=
| Ok (a : A)
| Raise (e : exn).
Arguments Ok {A} a.
Arguments Raise {A} e.

(** ** The persistence layer

    Records are rows of tables, kept in the order of their creation.  A
    workflow object is identified with the UUID of its record, and a
    calculation is an opaque handle.  The installation has one user
    ([get_automatic_user]), so a step is keyed by its workflow and its
    name alone. *)

Definition uuid := nat.
Definition calc_id := nat.

(** Modelled from the spec: [aiida.djsite.db.models] is not part of the
    sources.  A workflow record has the fields of section 3 of the
    specification. *)
Record DbWorkflow : Type := mkDbWorkflow {
  wf_pk : nat;
  wf_uuid : uuid;
  wf_module : string;
  wf_module_class : string;
  wf_script_path : string;
  wf_script_md5 : string;
  wf_status : wf_states;
  wf_report : string
}.

(** Modelled from the spec: a step record, keyed by its workflow and its
    name, with a status, a [nextcall] pointer and the two attachment
    lists. *)
Record DbWorkflowStep : Type := mkDbWorkflowStep {
  st_parent : uuid;
  st_name : string;
  st_status : wf_states;
  st_nextcall : string;
  st_calculations : list calc_id;
  st_sub_workflows : list uuid
}.

Record Db : Type := mkDb {
  db_workflows : list DbWorkflow;
  db_steps : list DbWorkflowStep;
  db_calcs : list (calc_id * calc_states)
}.

(** Every write the engine issues: [objects.create], [get_or_create],
    [set_status], [append_to_report], [set_nextcall], [add_calculation],
    [add_sub_workflow], [remove_calculations], [remove_sub_workflows] on
    the records, and [_set_state] and [kill] on a calculation. *)
Inductive db_op : Type :=
| CreateWorkflow (row : DbWorkflow)
| CreateStep (row : DbWorkflowStep)
| SetWfStatus (u : uuid) (s : wf_states)
| AppendReport (u : uuid) (text : string)
| SetStepStatus (u : uuid) (name : string) (s : wf_states)
| SetNextcall (u : uuid) (name : string) (nextcall : string)
| AddCalculation (u : uuid) (name : string) (c : calc_id)
| AddSubWorkflow (u : uuid) (name : string) (w : uuid)
| RemoveCalculations (u : uuid) (name : string)
| RemoveSubWorkflows (u : uuid) (name : string)
| CalcSetState (c : calc_id) (s : calc_states)
| CalcKill (c : calc_id).

Definition is_step (u : uuid) (name : string) (s : DbWorkflowStep) : bool :=
  Nat.eqb (st_parent s) u && String.eqb (st_name s) name.

Definition upd_wf (u : uuid) (f : DbWorkflow -> DbWorkflow) (d : Db) : Db :=
  mkDb (map (fun r => if Nat.eqb (wf_uuid r) u then f r else r) (db_workflows d))
       (db_steps d) (db_calcs d).

Definition upd_step (u : uuid) (name : string)
    (f : DbWorkflowStep -> DbWorkflowStep) (d : Db) : Db :=
  mkDb (db_workflows d)
       (map (fun s => if is_step u name s then f s else s) (db_steps d))
       (db_calcs d).

Definition upd_calc (c : calc_id) (f : calc_states -> calc_states) (d : Db) : Db :=
  mkDb (db_workflows d) (db_steps d)
       (map (fun p => if Nat.eqb (fst p) c then (fst p, f (snd p)) else p) (db_calcs d)).

(** The line break [append_to_report] ends every entry with. *)
Definition newline : string := String (Ascii.ascii_of_nat 10) EmptyString.

Section Engine.

(** [hashlib.md5(s).hexdigest()]. *)
Variable md5 : string -> string.
(** [traceback.format_exc()] for the exception being handled. *)
Variable format_exc : exn -> string.
(** What [Calculation.kill()] does to the state of a calculation. *)
Variable calc_kill : calc_states -> calc_states.
(** The interpreter's recursion limit, counted in nested calls of a
    recursive method. *)
Variable recursion_limit : nat.

(** Modelled from the spec: the effect of each write on the tables.
    Attachment lists are append-only, [append_to_report] adds the text and
    a line break to the report of the record. *)
Definition apply_op (o : db_op) (d : Db) : Db :=
  match o with
  | CreateWorkflow row => mkDb (db_workflows d ++ [row]) (db_steps d) (db_calcs d)
  | CreateStep row => mkDb (db_workflows d) (db_steps d ++ [row]) (db_calcs d)
  | SetWfStatus u s =>
      upd_wf u (fun r => mkDbWorkflow (wf_pk r) (wf_uuid r) (wf_module r)
                  (wf_module_class r) (wf_script_path r) (wf_script_md5 r)
                  s (wf_report r)) d
  | AppendReport u text =>
      upd_wf u (fun r => mkDbWorkflow (wf_pk r) (wf_uuid r) (wf_module r)
                  (wf_module_class r) (wf_script_path r) (wf_script_md5 r)
                  (wf_status r) (wf_report r ++ text ++ newline)) d
  | SetStepStatus u name s =>
      upd_step u name (fun r => mkDbWorkflowStep (st_parent r) (st_name r) s
                  (st_nextcall r) (st_calculations r) (st_sub_workflows r)) d
  | SetNextcall u name n =>
      upd_step u name (fun r => mkDbWorkflowStep (st_parent r) (st_name r)
                  (st_status r) n (st_calculations r) (st_sub_workflows r)) d
  | AddCalculation u name c =>
      upd_step u name (fun r => mkDbWorkflowStep (st_parent r) (st_name r)
                  (st_status r) (st_nextcall r) (st_calculations r ++ [c])
                  (st_sub_workflows r)) d
  | AddSubWorkflow u name w =>
      upd_step u name (fun r => mkDbWorkflowStep (st_parent r) (st_name r)
                  (st_status r) (st_nextcall r) (st_calculations r)
                  (st_sub_workflows r ++ [w])) d
  | RemoveCalculations u name =>
      upd_step u name (fun r => mkDbWorkflowStep (st_parent r) (st_name r)
                  (st_status r) (st_nextcall r) [] (st_sub_workflows r)) d
  | RemoveSubWorkflows u name =>
      upd_step u name (fun r => mkDbWorkflowStep (st_parent r) (st_name r)
                  (st_status r) (st_nextcall r) (st_calculations r) []) d
  | CalcSetState c s => upd_calc c (fun _ => s) d
  | CalcKill c => upd_calc c calc_kill d
  end.

Definition replay (ops : list db_op) (d : Db) : Db :=
  fold_left (fun acc o => apply_op o acc) ops d.

(** ** The in-memory workflow object and the world it runs in *)

(** A method object as [next] and [get_step] see it: its [__name__] and
    the two attributes the decorator adds, either of which may be absent. *)
Record method_obj : Type := mkMethod {
  m_name : string;
  m_is_wf_step : option bool;
  m_wf_step_name : option string
}.

(** What [Workflow.step] returns for a function called [name]: the inner
    function is called [wrapper] and carries the two attributes. *)
Definition decorated (name : string) : method_obj :=
  mkMethod "wrapper" (Some true) (Some name).

(** The attributes of a [Workflow] object.  [_dbworkflowinstance] is
    unset until the workflow is stored or loaded; the [caller_*]
    attributes are those [__init__] reads from the stack for a new
    workflow. *)
Record Workflow : Type := mkWorkflow {
  _to_be_stored : bool;
  _dbworkflowinstance : option uuid;
  caller_module : string;
  caller_module_class : string;
  caller_file : string;
  attach_calc_lazy_storage : list (string * list calc_id);
  attach_subwf_lazy_storage : list (string * list uuid)
}.

(** What a burst runs in: the object [self], the tables, the files on
    disk (path and content) and the log of the writes made so far. *)
Record World : Type := mkWorld {
  w_self : Workflow;
  w_db : Db;
  w_files : list (string * string);
  w_log : list db_op
}.

(** A method call: it ends normally or with an exception, and in both
    cases leaves a world behind. *)
Definition M (A : Type) : Type := World -> result A * World.

Definition ret {A} (a : A) : M A := fun w => (Ok a, w).
Definition raise {A} (e : exn) : M A := fun w => (Raise e, w).
Definition bind {A B} (m : M A) (k : A -> M B) : M B :=
  fun w => match m w with
           | (Ok a, w') => k a w'
           | (Raise e, w') => (Raise e, w')
           end.
(** [try: m except: h] with a bare [except]. *)
Definition try_except {A} (m : M A) (h : exn -> M A) : M A :=
  fun w => match m w with
           | (Ok a, w') => (Ok a, w')
           | (Raise e, w') => h e w'
           end.

Notation "x <- m ;; k" := (bind m (fun x => k))
  (at level 61, m at next level, right associativity).
Notation "m ;; k" := (bind m (fun _ => k))
  (at level 61, right associativity).

Definition get_self : M Workflow := fun w => (Ok (w_self w), w).
Definition set_self (s : Workflow) : M unit :=
  fun w => (Ok tt, mkWorld s (w_db w) (w_files w) (w_log w)).
Definition get_db : M Db := fun w => (Ok (w_db w), w).
Definition write (o : db_op) : M unit :=
  fun w => (Ok tt, mkWorld (w_self w) (apply_op o (w_db w)) (w_files w) (w_log w ++ [o])).

Fixpoint for_each {A} (l : list A) (f : A -> M unit) : M unit :=
  match l with
  | [] => ret tt
  | x :: l' => f x ;; for_each l' f
  end.

(** ** Queries *)

Definition find_workflow (d : Db) (u : uuid) : option DbWorkflow :=
  find (fun r => Nat.eqb (wf_uuid r) u) (db_workflows d).

Definition find_step (d : Db) (u : uuid) (name : string) : option DbWorkflowStep :=
  find (is_step u name) (db_steps d).

Definition steps_of (d : Db) (u : uuid) : list DbWorkflowStep :=
  filter (fun s => Nat.eqb (st_parent s) u) (db_steps d).

(** The reverse side of the sub-workflow relation:
    [dbworkflowinstance.parent_workflow_step.all()]. *)
Definition parent_workflow_step (d : Db) (u : uuid) : list DbWorkflowStep :=
  filter (fun s => existsb (Nat.eqb u) (st_sub_workflows s)) (db_steps d).

(** [DbWorkflow.objects.get(...)] for the record of a live object. *)
Definition fetch (u : uuid) : M DbWorkflow :=
  fun w => match find_workflow (w_db w) u with
           | Some r => (Ok r, w)
           | None => (Raise ObjectDoesNotExist, w)
           end.

(** The [dbworkflowinstance] property of [self]. *)
Definition dbworkflowinstance : M DbWorkflow :=
  self <- get_self ;;
  match _dbworkflowinstance self with
  | None => raise (AttributeError "_dbworkflowinstance")
  | Some u => fetch u
  end.

(** ** Store

    [Workflow.store]: creates the record, sealing [script_md5] as the MD5
    of [caller_file], and clears [_to_be_stored].  The parameters bag and
    the move of the staging folder are outside this model. *)

Definition fresh_uuid (d : Db) : uuid := S (list_max (map wf_uuid (db_workflows d))).
Definition fresh_pk (d : Db) : nat := S (list_max (map wf_pk (db_workflows d))).

Definition store : M unit :=
  self <- get_self ;;
  d <- get_db ;;
  let row := mkDbWorkflow (fresh_pk d) (fresh_uuid d)
               (caller_module self) (caller_module_class self)
               (caller_file self) (md5 (caller_file self)) CREATED "" in
  write (CreateWorkflow row) ;;
  set_self (mkWorkflow false (Some (wf_uuid row))
              (caller_module self) (caller_module_class self) (caller_file self)
              (attach_calc_lazy_storage self) (attach_subwf_lazy_storage self)).

(** ** Statuses *)

Definition get_status : M wf_states :=
  row <- dbworkflowinstance ;; ret (wf_status row).

Definition is_new : M bool :=
  row <- dbworkflowinstance ;; ret (wf_states_eqb (wf_status row) CREATED).

Definition is_running : M bool :=
  row <- dbworkflowinstance ;; ret (wf_states_eqb (wf_status row) RUNNING).

Definition has_finished_ok : M bool :=
  row <- dbworkflowinstance ;;
  ret (existsb (wf_states_eqb (wf_status row)) [FINISHED; SLEEP]).

Definition has_failed : M bool :=
  row <- dbworkflowinstance ;; ret (wf_states_eqb (wf_status row) ERROR).

(** ** Steps *)

(** [get_step]: the argument is a name or a method object.  The query
    sits inside [try ... except ObjectDoesNotExist], which also covers
    the lookup of the workflow record itself. *)
Definition get_step (step_method : string + method_obj) : M (option DbWorkflowStep) :=
  step_method_name <-
    match step_method with
    | inl name => ret name
    | inr m =>
        match m_is_wf_step m with
        | None => raise (AttributeError "is_wf_step")
        | Some false =>
            raise (AiidaException
              "Cannot get step calculations from a method not decorated as Workflow method")
        | Some true =>
            match m_wf_step_name m with
            | None => raise (AttributeError "wf_step_name")
            | Some name => ret name
            end
        end
    end ;;
  if String.eqb step_method_name wf_exit_call
  then raise (ReservedNameMisuse step_method_name)
  else
    self <- get_self ;;
    match _dbworkflowinstance self with
    | None => raise (AttributeError "_dbworkflowinstance")
    | Some u =>
        d <- get_db ;;
        match find_workflow d u with
        | None => ret None
        | Some row => ret (find_step d (wf_uuid row) step_method_name)
        end
    end.

Definition has_step (method : string + method_obj) : M bool :=
  s <- get_step method ;;
  ret (match s with None => false | Some _ => true end).

(** [cls.get_step(name).attr]: [None] has no attributes. *)
Definition get_step_attr (name attr : string) : M DbWorkflowStep :=
  s <- get_step (inl name) ;;
  match s with
  | None => raise (AttributeError attr)
  | Some s => ret s
  end.

(** [get_steps], for the workflow object whose record is [u]. *)
Definition get_steps (u : uuid) (state : option wf_states) : M (list DbWorkflowStep) :=
  row <- fetch u ;;
  d <- get_db ;;
  ret (match state with
       | None => steps_of d (wf_uuid row)
       | Some st => filter (fun s => wf_states_eqb (st_status s) st)
                           (steps_of d (wf_uuid row))
       end).

(** ** Attachments

    The caller's name, which the source reads from the call stack, is an
    explicit argument.  Calculations are handles, so the type test of
    [attach_calculation] always passes. *)

Definition lazy_get {A} (key : string) (storage : list (string * list A))
  : option (list A) :=
  option_map snd (find (fun p => String.eqb (fst p) key) storage).

Definition lazy_append {A} (key : string) (x : A) (storage : list (string * list A))
  : list (string * list A) :=
  match lazy_get key storage with
  | None => (storage ++ [(key, [x])])%list
  | Some _ => map (fun p => if String.eqb (fst p) key
                            then (fst p, (snd p ++ [x])%list) else p) storage
  end.

Definition attach_calculation (caller_funct : string) (calc : calc_id) : M unit :=
  self <- get_self ;;
  set_self (mkWorkflow (_to_be_stored self) (_dbworkflowinstance self)
              (caller_module self) (caller_module_class self) (caller_file self)
              (lazy_append caller_funct calc (attach_calc_lazy_storage self))
              (attach_subwf_lazy_storage self)).

Definition attach_workflow (caller_funct : string) (sub_wf : uuid) : M unit :=
  self <- get_self ;;
  set_self (mkWorkflow (_to_be_stored self) (_dbworkflowinstance self)
              (caller_module self) (caller_module_class self) (caller_file self)
              (attach_calc_lazy_storage self)
              (lazy_append caller_funct sub_wf (attach_subwf_lazy_storage self))).

(** ** Next *)

(** [self.dbworkflowinstance.steps.get(name=...)]. *)
Definition steps_get (name : string) : M DbWorkflowStep :=
  row <- dbworkflowinstance ;;
  d <- get_db ;;
  match find_step d (wf_uuid row) name with
  | None => raise ObjectDoesNotExist
  | Some s => ret s
  end.

(** [Workflow.next].  [next_method] is [None] for Python's [None].  The
    [getattr(next_method, "is_wf_step", None)] of the source has a
    default, so its [except AttributeError] branch is never taken, and
    the value read is not used afterwards. *)
Definition next (caller_method : string) (next_method : option method_obj) : M unit :=
  row <- dbworkflowinstance ;;
  let md5_ := wf_script_md5 row in
  let script_path := wf_script_path row in
  if negb (String.eqb md5_ (md5 script_path))
  then raise (IntegrityViolation script_path)
  else
  match next_method with
  | None => raise NullNext
  | Some next_method =>
      registered <- has_step (inl caller_method) ;;
      if negb registered then raise UnknownCaller else
      (if negb (String.eqb (m_name next_method) wf_exit_call)
       then let is_wf_step := m_is_wf_step next_method in ret tt
       else ret tt) ;;
      method_step <- steps_get caller_method ;;
      self <- get_self ;;
      match lazy_get caller_method (attach_calc_lazy_storage self) with
      | Some calcs =>
          for_each calcs (fun c =>
            write (AddCalculation (st_parent method_step) (st_name method_step) c))
      | None => ret tt
      end ;;
      match lazy_get caller_method (attach_subwf_lazy_storage self) with
      | Some subwfs =>
          for_each subwfs (fun w =>
            write (AddSubWorkflow (st_parent method_step) (st_name method_step) w))
      | None => ret tt
      end ;;
      next_method_name <-
        (if negb (String.eqb (m_name next_method) wf_exit_call)
         then match m_wf_step_name next_method with
              | Some name => ret name
              | None => raise (AttributeError "wf_step_name")
              end
         else ret wf_exit_call) ;;
      write (SetNextcall (st_parent method_step) (st_name method_step) next_method_name) ;;
      row <- dbworkflowinstance ;;
      write (SetWfStatus (wf_uuid row) RUNNING) ;;
      write (SetStepStatus (st_parent method_step) (st_name method_step) RUNNING)
  end.

(** ** Kill *)

(** [kill_step_calculations]: the relation lists are those of the step
    record the loop of [kill] holds; [kill] never writes to them. *)
Definition kill_step_calculations (step : DbWorkflowStep) : M unit :=
  for_each (st_calculations step) (fun c => write (CalcSetState c CALC_FINISHED)).

(** [Workflow.kill], for the workflow object whose record is [u].  The
    recursion through the sub-workflows is bounded by the interpreter's
    recursion limit. *)
Fixpoint kill_rec (depth : nat) (u : uuid) : M unit :=
  match depth with
  | 0 => raise RecursionDepthExceeded
  | S depth' =>
      steps <- get_steps u (Some RUNNING) ;;
      for_each steps (fun s =>
        kill_step_calculations s ;;
        for_each (st_sub_workflows s) (fun w => kill_rec depth' w)) ;;
      row <- fetch u ;;
      write (SetWfStatus (wf_uuid row) FINISHED)
  end.

Definition kill (u : uuid) : M unit := kill_rec recursion_limit u.

(** [Workflow.sleep]. *)
Definition sleep (caller_method : string) : M unit :=
  registered <- has_step (inl caller_method) ;;
  if negb registered then raise UnknownCaller else
  s <- get_step_attr caller_method "set_status" ;;
  write (SetStepStatus (st_parent s) (st_name s) SLEEP).

(** ** Report *)

(** [Workflow.append_to_report], for the workflow object whose record is
    [u]: with no parent step the text goes to the own record, otherwise
    to [Workflow(uuid=parent.uuid).append_to_report(text)]. *)
Fixpoint append_to_report_rec (depth : nat) (u : uuid) (text : string) : M unit :=
  match depth with
  | 0 => raise RecursionDepthExceeded
  | S depth' =>
      row <- fetch u ;;
      d <- get_db ;;
      match parent_workflow_step d (wf_uuid row) with
      | [] => write (AppendReport (wf_uuid row) text)
      | [s] =>
          parent <- fetch (st_parent s) ;;
          append_to_report_rec depth' (wf_uuid parent) text
      | _ => raise MultipleObjectsReturned
      end
  end.

Definition append_to_report_of (u : uuid) (text : string) : M unit :=
  append_to_report_rec recursion_limit u text.

Definition append_to_report (text : string) : M unit :=
  self <- get_self ;;
  match _dbworkflowinstance self with
  | None => raise (AttributeError "_dbworkflowinstance")
  | Some u => append_to_report_of u text
  end.

(** ** The step decorator *)

(** The body of the second test of [wrapper]: the step is cleaned
    before it is launched again. *)
Definition clean_step (wrapped_method : string) : M unit :=
  s <- get_step_attr wrapped_method "get_sub_workflows" ;;
  for_each (st_sub_workflows s) kill ;;
  s <- get_step_attr wrapped_method "remove_sub_workflows" ;;
  write (RemoveSubWorkflows (st_parent s) (st_name s)) ;;
  s <- get_step_attr wrapped_method "get_calculations" ;;
  for_each (st_calculations s) (fun c => write (CalcKill c)) ;;
  s <- get_step_attr wrapped_method "remove_calculations" ;;
  write (RemoveCalculations (st_parent s) (st_name s)).

(** Modelled from the spec: [steps.get_or_create(name=...)] creates a
    step in state INITIALIZED whose [nextcall] is the default sentinel. *)
Definition steps_get_or_create (name : string) : M DbWorkflowStep :=
  row <- dbworkflowinstance ;;
  d <- get_db ;;
  match find_step d (wf_uuid row) name with
  | Some s => ret s
  | None =>
      let s := mkDbWorkflowStep (wf_uuid row) name INITIALIZED wf_default_call [] [] in
      write (CreateStep s) ;; ret s
  end.

(** Everything [wrapper] does before it calls the decorated function.
    [nargs] is [len(args)]. *)
Definition step_prologue (wrapped_method : string) (nargs : nat) : M DbWorkflowStep :=
  self <- get_self ;;
  (if _to_be_stored self then store else ret tt) ;;
  (if Nat.ltb 0 nargs then raise InvalidStepCall else ret tt) ;;
  exists_ <- has_step (inl wrapped_method) ;;
  blocked <-
    (if exists_ then
       s <- get_step_attr wrapped_method "status" ;;
       ret (negb (wf_states_eqb (st_status s) ERROR
                  || wf_states_eqb (st_status s) SLEEP
                  || String.eqb (st_nextcall s) wf_default_call
                  || String.eqb (st_nextcall s) wrapped_method))
     else ret false) ;;
  (if blocked then raise (StepAlreadyInitialized wrapped_method) else ret tt) ;;
  exists_ <- has_step (inl wrapped_method) ;;
  restart <-
    (if exists_ then
       s <- get_step_attr wrapped_method "status" ;;
       ret (wf_states_eqb (st_status s) ERROR || wf_states_eqb (st_status s) SLEEP)
     else ret false) ;;
  (if restart then clean_step wrapped_method else ret tt) ;;
  steps_get_or_create wrapped_method.

(** The handler of the bare [except] around the call of the function. *)
Definition step_on_error (wrapped_method : string) (method_step : DbWorkflowStep)
    (e : exn) : M unit :=
  append_to_report ("ERROR ! This workflow got and error in the " ++ wrapped_method
                    ++ " method, we report down the stack trace") ;;
  append_to_report ("full traceback: " ++ format_exc e) ;;
  write (SetStepStatus (st_parent method_step) (st_name method_step) ERROR).

(** [wrapper], the function [Workflow.step] returns for [fun]. *)
Definition step (wrapped_method : string) (fun_ : M unit) (nargs : nat) : M unit :=
  method_step <- step_prologue wrapped_method nargs ;;
  try_except fun_ (step_on_error wrapped_method method_step) ;;
  ret tt.


(** ** The resumer

    [get_subclass_from_dbnode] and its two front ends are class methods:
    they read the tables and the importable modules and build a new
    workflow object. *)

(** What a name of a module is bound to: a class deriving from
    [Workflow], whose constructor hands its keyword arguments to
    [Workflow.__init__], or anything else. *)
Inductive py_object : Type :=
| WorkflowSubclass
| NotCallable.

Definition py_module := list (string * py_object).

Definition show_nat (n : nat) : string :=
  DecimalString.NilEmpty.string_of_uint (Nat.to_uint n).

(** [Workflow.__init__(uuid=u)]: the branch that loads a record. *)
Definition Workflow_init (d : Db) (u : uuid) : result Workflow :=
  match find_workflow d u with
  | Some row => Ok (mkWorkflow false (Some (wf_uuid row)) "" "" "" [] [])
  | None => Raise (NotExistent ("No entry with the UUID " ++ show_nat u ++ " found"))
  end.

Definition call_with_uuid (elem : py_object) (d : Db) (u : uuid) : result Workflow :=
  match elem with
  | WorkflowSubclass => Workflow_init d u
  | NotCallable => Raise (TypeError "object is not callable")
  end.

(** [importlib.import_module]: [None] stands for [ImportError]. *)
Definition import_module (importable : list (string * py_module)) (module : string)
  : option py_module :=
  option_map snd (find (fun p => String.eqb (fst p) module) importable).

(** The result is [None] when the loop over the module's names ends
    without a [return]. *)
Definition get_subclass_from_dbnode (importable : list (string * py_module))
    (d : Db) (wf_db : DbWorkflow) : result (option Workflow) :=
  let module := wf_module wf_db in
  let module_class := wf_module_class wf_db in
  match import_module importable module with
  | None => Raise (InternalError ("Unable to load the workflow module " ++ module))
  | Some wf_mod =>
      match find (fun p => String.eqb module_class (fst p)) wf_mod with
      | Some (elem_name, elem) =>
          match call_with_uuid elem d (wf_uuid wf_db) with
          | Ok wf => Ok (Some wf)
          | Raise e => Raise e
          end
      | None => Ok None
      end
  end.

Definition get_subclass_from_pk (importable : list (string * py_module))
    (d : Db) (pk : nat) : result (option Workflow) :=
  match find (fun r => Nat.eqb (wf_pk r) pk) (db_workflows d) with
  | None => Raise (NotExistent ("No entry with pk=" ++ show_nat pk ++ " found"))
  | Some dbworkflowinstance =>
      match get_subclass_from_dbnode importable d dbworkflowinstance with
      | Raise ObjectDoesNotExist =>
          Raise (NotExistent ("No entry with pk=" ++ show_nat pk ++ " found"))
      | r => r
      end
  end.

Definition get_subclass_from_uuid (importable : list (string * py_module))
    (d : Db) (u : uuid) : result (option Workflow) :=
  match find_workflow d u with
  | None => Raise (NotExistent ("No entry with the UUID " ++ show_nat u ++ " found"))
  | Some dbworkflowinstance =>
      match get_subclass_from_dbnode importable d dbworkflowinstance with
      | Raise ObjectDoesNotExist =>
          Raise (NotExistent ("No entry with the UUID " ++ show_nat u ++ " found"))
      | r => r
      end
  end.

(** ** Predicates of the statements *)

(** The object [self] of [w] holds the UUID [u] and [row] is the record
    with this UUID. *)
Definition stored (w : World) (u : uuid) (row : DbWorkflow) : Prop :=
  _dbworkflowinstance (w_self w) = Some u /\
  find_workflow (w_db w) u = Some row.

(** The world after the writes [ops], in this order. *)
Definition commit (ops : list db_op) (w : World) : World :=
  mkWorld (w_self w) (replay ops (w_db w)) (w_files w) (w_log w ++ ops).

(** Writes that touch the step table only. *)
Definition step_op (o : db_op) : bool :=
  match o with
  | CreateStep _ | SetStepStatus _ _ _ | SetNextcall _ _ _
  | AddCalculation _ _ _ | AddSubWorkflow _ _ _
  | RemoveCalculations _ _ | RemoveSubWorkflows _ _ => true
  | _ => false
  end.

(** Writes that touch the calculations only. *)
Definition calc_op (o : db_op) : bool :=
  match o with
  | CalcSetState _ _ | CalcKill _ => true
  | _ => false
  end.

(** The writes by which [next] flushes the two buffers of [caller]. *)
Definition flush_ops (u : uuid) (caller : string)
    (calcs : list calc_id) (subwfs : list uuid) : list db_op :=
  (map (AddCalculation u caller) calcs ++ map (AddSubWorkflow u caller) subwfs)%list.

(** A step record with [calcs] and [subwfs] appended to its lists. *)
Definition with_attachments (calcs : list calc_id) (subwfs : list uuid)
    (s : DbWorkflowStep) : DbWorkflowStep :=
  mkDbWorkflowStep (st_parent s) (st_name s) (st_status s) (st_nextcall s)
    (st_calculations s ++ calcs) (st_sub_workflows s ++ subwfs).

(** The buffer of a caller, empty when the caller has none. *)
Definition buffered {A} (key : string) (storage : list (string * list A)) : list A :=
  match lazy_get key storage with Some l => l | None => [] end.

(** The name [next] writes for a method object, when it has one. *)
Definition next_call_name (next_method : method_obj) : option string :=
  if String.eqb (m_name next_method) wf_exit_call then Some wf_exit_call
  else m_wf_step_name next_method.

(** The current content of the file at [path]. *)
Definition current_content (w : World) (path : string) : option string :=
  option_map snd (find (fun p => String.eqb (fst p) path) (w_files w)).

(** The writes of [kill]. *)
Definition kill_op (o : db_op) : bool :=
  match o with
  | SetWfStatus _ FINISHED => true
  | CalcSetState _ CALC_FINISHED => true
  | _ => false
  end.

Definition wf_status_of (d : Db) (u : uuid) : option wf_states :=
  option_map wf_status (find_workflow d u).

Definition calc_state_of (d : Db) (c : calc_id) : option calc_states :=
  option_map snd (find (fun p => Nat.eqb (fst p) c) (db_calcs d)).

(** [s] is a step of [u] in state [RUNNING]. *)
Definition running_step (d : Db) (u : uuid) (s : DbWorkflowStep) : Prop :=
  In s (db_steps d) /\ st_parent s = u /\ st_status s = RUNNING.

(** [v] is [u] or a sub-workflow reached from [u] through steps that are
    [RUNNING]: the part of the tree [kill] walks. *)
Inductive reaches_running (d : Db) : uuid -> uuid -> Prop :=
| reaches_here u : reaches_running d u u
| reaches_below u s x v :
    running_step d u s -> In x (st_sub_workflows s) ->
    reaches_running d x v -> reaches_running d u v.

(** [v] is a sub-workflow of [u], of one of its sub-workflows, and so
    on, through steps in any state. *)
Inductive descendant (d : Db) : uuid -> uuid -> Prop :=
| descendant_child u s v :
    In s (db_steps d) -> st_parent s = u -> In v (st_sub_workflows s) ->
    descendant d u v
| descendant_below u s x v :
    In s (db_steps d) -> st_parent s = u -> In x (st_sub_workflows s) ->
    descendant d x v -> descendant d u v.

(** The part of the tree that [kill] walks from [u] is at most [n]
    levels deep, and its records exist. *)
Inductive killable (d : Db) : nat -> uuid -> Prop :=
| killable_intro n u row :
    find_workflow d u = Some row ->
    (forall s x, running_step d u s -> In x (st_sub_workflows s) -> killable d n x) ->
    killable d (S n) u.

(** The log [L] holds the writes that finish everything [kill] walks
    from [u]. *)
Definition kill_covers (d : Db) (L : list db_op) (u : uuid) : Prop :=
  (forall v, reaches_running d u v ->
     find_workflow d v <> None /\ In (SetWfStatus v FINISHED) L) /\
  (forall v s c, reaches_running d u v -> running_step d v s ->
     In c (st_calculations s) -> In (CalcSetState c CALC_FINISHED) L).

(** [r] is the root of the tree [u] belongs to, [n] parent steps above
    it: every workflow on the way has a record and exactly one parent
    step, and [r] has none. *)
Inductive report_root (d : Db) : nat -> uuid -> uuid -> Prop :=
| report_root_here u row :
    find_workflow d u = Some row ->
    parent_workflow_step d u = [] ->
    report_root d 0 u u
| report_root_up n u row s r :
    find_workflow d u = Some row ->
    parent_workflow_step d u = [s] ->
    report_root d n (st_parent s) r ->
    report_root d (S n) u r.

Definition wf_report_of (d : Db) (u : uuid) : option string :=
  option_map wf_report (find_workflow d u).

(** The two tests of [wrapper] on an existing step record. *)
Definition restartable (s : DbWorkflowStep) : bool :=
  wf_states_eqb (st_status s) ERROR || wf_states_eqb (st_status s) SLEEP.

Definition reenterable (wrapped_method : string) (s : DbWorkflowStep) : bool :=
  restartable s
  || String.eqb (st_nextcall s) wf_default_call
  || String.eqb (st_nextcall s) wrapped_method.

Definition with_status (st : wf_states) (s : DbWorkflowStep) : DbWorkflowStep :=
  mkDbWorkflowStep (st_parent s) (st_name s) st (st_nextcall s)
    (st_calculations s) (st_sub_workflows s).

(** A step record with both attachment lists emptied. *)
Definition cleaned (s : DbWorkflowStep) : DbWorkflowStep :=
  mkDbWorkflowStep (st_parent s) (st_name s) (st_status s) (st_nextcall s) [] [].

(** The writes of [clean_step] for the step record [s] of [u], after the
    writes [L] of the kills of its sub-workflows. *)
Definition clean_ops (u : uuid) (name : string) (s : DbWorkflowStep)
    (L : list db_op) : list db_op :=
  (L ++ [RemoveSubWorkflows u name]
     ++ map CalcKill (st_calculations s)
     ++ [RemoveCalculations u name])%list.

(** The first line [wrapper] reports when the function raised. *)
Definition error_header (wrapped_method : string) : string :=
  "ERROR ! This workflow got and error in the " ++ wrapped_method
  ++ " method, we report down the stack trace".

(** ** Sample data *)

Definition sample_path : string := "/aiida/workflows/user/demo.py".

(** A stand-in for the digest in the closed examples. *)
Definition sample_md5 (s : string) : string := "md5:" ++ s.
Definition sample_format_exc (e : exn) : string :=
  match e with
  | UserException what => "Traceback (most recent call last): " ++ what
  | _ => "Traceback (most recent call last)"
  end.
Definition sample_calc_kill (s : calc_states) : calc_states :=
  match s with CALC_ACTIVE => CALC_FAILED | _ => s end.

Definition sample_row (u : uuid) (status : wf_states) (report : string) : DbWorkflow :=
  mkDbWorkflow u u "aiida.workflows.user.demo" "WorkflowDemo"
    sample_path (sample_md5 sample_path) status report.

Definition loaded (u : uuid) : Workflow :=
  mkWorkflow false (Some u) "" "" "" [] [].

(** A workflow that a step has put to sleep. *)
Definition sleeping_world : World :=
  mkWorld (loaded 1) (mkDb [sample_row 1 SLEEP ""] [] []) [] [].

(** A module that imports but does not define the class of the record. *)
Definition sample_importable : list (string * py_module) :=
  [("aiida.workflows.user.demo", [("Workflow", WorkflowSubclass);
                                  ("WorkflowOther", WorkflowSubclass)])].
Definition sample_db_one : Db := mkDb [sample_row 1 RUNNING ""] [] [].

(** Scenario 4 of the specification, at the moment [start] calls [next]:
    two calculations and a sub-workflow are buffered under [start].  The
    script has been edited since the workflow was stored. *)
Definition buffering : Workflow :=
  mkWorkflow false (Some 1) "" "" "" [("start", [11; 12])] [("start", [2])].

Definition sample_db_start : Db :=
  mkDb [sample_row 1 CREATED ""; sample_row 2 CREATED ""]
       [mkDbWorkflowStep 1 "start" INITIALIZED wf_default_call [] []]
       [(11, CALC_ACTIVE); (12, CALC_ACTIVE)].

Definition flush_world : World :=
  mkWorld buffering sample_db_start [(sample_path, "print 'edited after launch'")] [].

(** A method that was never decorated, and one that carries a step name
    but is not marked as a step. *)
Definition undecorated : method_obj := mkMethod "helper" None None.
Definition unmarked : method_obj := mkMethod "helper" (Some false) (Some "helper").

(** Scenario 5 of the specification: workflow 1 has a running step [s]
    holding calculation 10 and sub-workflow 2, which has a running step
    holding calculation 20.  Workflow 3 is running too. *)
Definition sample_db_before : Db :=
  mkDb [sample_row 1 RUNNING ""; sample_row 2 RUNNING ""; sample_row 3 RUNNING ""]
       [mkDbWorkflowStep 1 "s" RUNNING "t" [10] [2];
        mkDbWorkflowStep 2 "t" RUNNING wf_exit_call [20] [];
        mkDbWorkflowStep 3 "r" RUNNING wf_exit_call [30] []]
       [(10, CALC_ACTIVE); (20, CALC_ACTIVE); (30, CALC_ACTIVE)].

Definition before_world : World := mkWorld (loaded 1) sample_db_before [] [].

(** A step body that attaches workflow 3, names its successor and then
    fails. *)
Definition failing_after_next : M unit :=
  attach_workflow "e" 3 ;;
  next "e" (Some (decorated "s")) ;;
  raise (UserException "RuntimeError: boom").

(** The tables after the step [e] of workflow 1 has run
    [failing_after_next]: [e] is in ERROR and holds sub-workflow 3. *)
Definition sample_db_tree : Db :=
  mkDb [sample_row 1 RUNNING
          (error_header "e" ++ newline ++ "full traceback: "
             ++ sample_format_exc (UserException "RuntimeError: boom") ++ newline);
        sample_row 2 RUNNING ""; sample_row 3 RUNNING ""]
       [mkDbWorkflowStep 1 "s" RUNNING "t" [10] [2];
        mkDbWorkflowStep 2 "t" RUNNING wf_exit_call [20] [];
        mkDbWorkflowStep 3 "r" RUNNING wf_exit_call [30] [];
        mkDbWorkflowStep 1 "e" ERROR "s" [] [3]]
       [(10, CALC_ACTIVE); (20, CALC_ACTIVE); (30, CALC_ACTIVE)].

Definition tree_world : World := mkWorld (loaded 1) sample_db_tree [] [].

(** Scenario 6 of the specification: workflow 2 is a sub-workflow of the
    step [start] of workflow 1. *)
Definition sample_db_parent : Db :=
  mkDb [sample_row 1 RUNNING ("started" ++ newline); sample_row 2 RUNNING "child"]
       [mkDbWorkflowStep 1 "start" RUNNING "middle" [] [2];
        mkDbWorkflowStep 2 "start" INITIALIZED wf_default_call [] []]
       [].

Definition child_world : World := mkWorld (loaded 2) sample_db_parent [] [].

(** A step body that records that it ran. *)
Definition never_called : M unit :=
  fun w => (Raise (UserException "the step body ran"), w).

(** Scenario 1 of the specification after [start] has run: the step is
    RUNNING and points to [middle]. *)
Definition sample_db_running : Db :=
  mkDb [sample_row 1 RUNNING ""]
       [mkDbWorkflowStep 1 "start" RUNNING "middle" [11] []]
       [(11, CALC_ACTIVE)].

Definition running_world : World := mkWorld (loaded 1) sample_db_running [] [].


Definition raising_body : M unit :=
  fun w => (Raise (UserException "RuntimeError: boom"), w).

Definition start_record : DbWorkflowStep :=
  mkDbWorkflowStep 1 "start" INITIALIZED wf_default_call [] [].

(** A step record in ERROR that still holds a calculation and a
    sub-workflow with a running step of its own. *)
Definition sample_db_failed : Db :=
  mkDb [sample_row 1 RUNNING ""; sample_row 2 RUNNING ""]
       [mkDbWorkflowStep 1 "start" ERROR "middle" [11] [2];
        mkDbWorkflowStep 2 "t" RUNNING wf_exit_call [20] []]
       [(11, CALC_ACTIVE); (20, CALC_ACTIVE)].

Definition failed_world : World := mkWorld (loaded 1) sample_db_failed [] [].

(** The world of scenario 4 after [next] has returned. *)
Definition flushed_world : World :=
  commit [AddCalculation 1 "start" 11; AddCalculation 1 "start" 12;
          AddSubWorkflow 1 "start" 2; SetNextcall 1 "start" "middle";
          SetWfStatus 1 RUNNING; SetStepStatus 1 "start" RUNNING] flush_world.

(** Scenario 1 of the specification from the very beginning: a new
    workflow object, not yet stored, defined in [sample_path], and a step
    [start] whose body calls [next]. *)
Definition launch_world : World :=
  mkWorld (mkWorkflow true None "aiida.workflows.user.demo" "WorkflowDemo"
             sample_path [] [])
          (mkDb [] [] [])
          [(sample_path, "class WorkflowDemo(Workflow): ...")] [].

Definition calling_next : M unit := next "start" (Some (decorated "middle")).

(** * The rest of [aiida/orm/workflow.py]

    The operations around the next engine: [set_status],
    [get_step_calculations], [revive], the readers of the report, the
    guards of the repository paths and the module functions. *)

Definition calc_states_eqb (a b : calc_states) : bool :=
  match a, b with
  | CALC_ACTIVE, CALC_ACTIVE | CALC_FINISHED, CALC_FINISHED
  | CALC_FAILED, CALC_FAILED => true
  | _, _ => false
  end.

(** A result that was computed outside the monad. *)
Definition lift {A} (r : result A) : M A := fun w => (r, w).

(** A write to the tables that the log has no entry for. *)
Definition modify_db (f : Db -> Db) : M unit :=
  fun w => (Ok tt, mkWorld (w_self w) (f (w_db w)) (w_files w) (w_log w)).

(** [Workflow.set_status]. *)
Definition set_status (status : wf_states) : M unit :=
  row <- dbworkflowinstance ;; write (SetWfStatus (wf_uuid row) status).

(** ** The calculations of a step *)

(** Modelled from the spec: [DbWorkflowStep.get_calculations(state)]
    lists the calculations attached to the step, all of them or those
    in the given state. *)
Definition get_calculations (d : Db) (s : DbWorkflowStep)
    (state : option calc_states) : list calc_id :=
  match state with
  | None => st_calculations s
  | Some st =>
      filter (fun c => match calc_state_of d c with
                       | Some st' => calc_states_eqb st' st
                       | None => false
                       end) (st_calculations s)
  end.

(** [Workflow.get_step_calculations].  The [getattr] has no default
    here; the bare [except] turns every failure of the lookup, the
    missing step included, into one [AiidaException]. *)
Definition get_step_calculations (step_method : method_obj)
    (calc_state : option calc_states) : M (list calc_id) :=
  match m_is_wf_step step_method with
  | None => raise (AttributeError "is_wf_step")
  | Some false =>
      raise (AiidaException
        "Cannot get step calculations from a method not decorated as Workflow method")
  | Some true =>
      match m_wf_step_name step_method with
      | None => raise (AttributeError "wf_step_name")
      | Some step_method_name =>
          try_except
            (stp <- get_step (inl step_method_name) ;;
             match stp with
             | None => raise (AttributeError "get_calculations")
             | Some s => d <- get_db ;; ret (get_calculations d s calc_state)
             end)
            (fun _ => raise (AiidaException "Cannot retrieve step's calculations"))
      end
  end.

(** ** Revive *)

(** Modelled from the spec: [DbWorkflow.set_script_md5] replaces the
    fingerprint of the record. *)
Definition set_script_md5 (u : uuid) (digest : string) : M unit :=
  modify_db (upd_wf u (fun r => mkDbWorkflow (wf_pk r) (wf_uuid r) (wf_module r)
                         (wf_module_class r) (wf_script_path r) digest
                         (wf_status r) (wf_report r))).

(** [s.get_sub_workflows()] and [s.get_calculations()] on a step object
    that a loop holds: the relation is read when the call is made. *)
Definition get_sub_workflows (s : DbWorkflowStep) : M (list uuid) :=
  d <- get_db ;;
  ret (match find_step d (st_parent s) (st_name s) with
       | Some r => st_sub_workflows r
       | None => []
       end).

Definition get_step_calcs (s : DbWorkflowStep) : M (list calc_id) :=
  d <- get_db ;;
  ret (match find_step d (st_parent s) (st_name s) with
       | Some r => st_calculations r
       | None => []
       end).

(** The body of the loop of [revive] over the steps in ERROR. *)
Definition revive_step (s : DbWorkflowStep) : M unit :=
  subwfs <- get_sub_workflows s ;;
  for_each subwfs kill ;;
  write (RemoveSubWorkflows (st_parent s) (st_name s)) ;;
  calcs <- get_step_calcs s ;;
  for_each calcs (fun c => write (CalcKill c)) ;;
  write (RemoveCalculations (st_parent s) (st_name s)) ;;
  write (SetStepStatus (st_parent s) (st_name s) INITIALIZED).

(** [Workflow.revive], for the workflow object whose record is [u]. *)
Definition revive_of (u : uuid) : M unit :=
  row <- fetch u ;;
  let md5_ := wf_script_md5 row in
  let script_path := wf_script_path row in
  let md5_check := md5 script_path in
  (if negb (String.eqb md5_ md5_check)
   then row <- fetch u ;; set_script_md5 (wf_uuid row) md5_check
   else ret tt) ;;
  err_steps <- get_steps u (Some ERROR) ;;
  for_each err_steps revive_step ;;
  row <- fetch u ;;
  write (SetWfStatus (wf_uuid row) RUNNING).

Definition revive : M unit :=
  self <- get_self ;;
  match _dbworkflowinstance self with
  | None => raise (AttributeError "_dbworkflowinstance")
  | Some u => revive_of u
  end.

(** ** Kill all *)

(** [obj.kill()] on what the resumer returned: [None] has no [kill]. *)
Definition kill_object (o : option Workflow) : M unit :=
  match o with
  | None => raise (AttributeError "kill")
  | Some wf =>
      match _dbworkflowinstance wf with
      | None => raise (AttributeError "_dbworkflowinstance")
      | Some u => kill u
      end
  end.

(** [kill_all].  The records of this model do not carry the [user]
    column of the workflow table; [wf_user] is this column, by the UUID
    of the record, and [automatic_user] is what [get_automatic_user()]
    gives when [kill_all] calls it: a user, or the exception it raises.
    The query selects the records of this user that are not FINISHED. *)
Definition kill_all_selects (wf_user : uuid -> nat) (user : nat) (r : DbWorkflow) : bool :=
  Nat.eqb (wf_user (wf_uuid r)) user && negb (wf_states_eqb (wf_status r) FINISHED).

(** The records are selected once, before the loop; each is loaded
    through the resumer and killed. *)
Definition kill_all (importable : list (string * py_module))
    (wf_user : uuid -> nat) (automatic_user : result nat) : M unit :=
  user <- lift automatic_user ;;
  d <- get_db ;;
  let w_list := filter (kill_all_selects wf_user user) (db_workflows d) in
  for_each w_list (fun w_ =>
    d <- get_db ;;
    o <- lift (get_subclass_from_uuid importable d (wf_uuid w_)) ;;
    kill_object o).

(** ** Reading and clearing the report *)

(** A workflow record with its report emptied. *)
Definition with_empty_report (r : DbWorkflow) : DbWorkflow :=
  mkDbWorkflow (wf_pk r) (wf_uuid r) (wf_module r) (wf_module_class r)
    (wf_script_path r) (wf_script_md5 r) (wf_status r) "".

(** Modelled from the spec: [DbWorkflow.clear_report] empties the report
    of the record. *)
Definition db_clear_report (u : uuid) : M unit :=
  modify_db (upd_wf u with_empty_report).

(** [Workflow.get_report], for the workflow object whose record is [u];
    [splitlines] is the method of this name of the strings.  Unlike
    [append_to_report] and [clear_report], which build the parent with
    [Workflow(uuid=...)], it goes to the parent through the resumer. *)
Fixpoint get_report_rec (splitlines : string -> list string)
    (importable : list (string * py_module)) (depth : nat)
    (u : uuid) : M (list string) :=
  match depth with
  | 0 => raise RecursionDepthExceeded
  | S depth' =>
      row <- fetch u ;;
      d <- get_db ;;
      match parent_workflow_step d (wf_uuid row) with
      | [] => ret (splitlines (wf_report row))
      | [s] =>
          parent <- fetch (st_parent s) ;;
          d <- get_db ;;
          o <- lift (get_subclass_from_uuid importable d (wf_uuid parent)) ;;
          match o with
          | None => raise (AttributeError "get_report")
          | Some wf =>
              match _dbworkflowinstance wf with
              | None => raise (AttributeError "_dbworkflowinstance")
              | Some p => get_report_rec splitlines importable depth' p
              end
          end
      | _ => raise MultipleObjectsReturned
      end
  end.

Definition get_report (splitlines : string -> list string)
    (importable : list (string * py_module)) : M (list string) :=
  self <- get_self ;;
  match _dbworkflowinstance self with
  | None => raise (AttributeError "_dbworkflowinstance")
  | Some u => get_report_rec splitlines importable recursion_limit u
  end.

(** [Workflow.clear_report], for the workflow object whose record is
    [u]. *)
Fixpoint clear_report_rec (depth : nat) (u : uuid) : M unit :=
  match depth with
  | 0 => raise RecursionDepthExceeded
  | S depth' =>
      row <- fetch u ;;
      d <- get_db ;;
      match parent_workflow_step d (wf_uuid row) with
      | [] => db_clear_report (wf_uuid row)
      | [s] =>
          parent <- fetch (st_parent s) ;;
          clear_report_rec depth' (wf_uuid parent)
      | _ => raise MultipleObjectsReturned
      end
  end.

Definition clear_report : M unit :=
  self <- get_self ;;
  match _dbworkflowinstance self with
  | None => raise (AttributeError "_dbworkflowinstance")
  | Some u => clear_report_rec recursion_limit u
  end.

(** ** The repository paths *)

(** [os.path.isabs] on a POSIX system. *)
Definition isabs (path : string) : bool := String.prefix "/" path.

(** The folder [current_folder] resolves to: the staging folder of a
    new object, the repository folder of a stored one. *)
Inductive folder : Type := TempFolder | RepoFolder.

Definition current_folder (self : Workflow) : folder :=
  if _to_be_stored self then TempFolder else RepoFolder.

(** What a path method ends with: a [ValueError], or the call of the
    sub-folder it delegates to. *)
Inductive path_call : Type :=
| PathValueError (msg : string)
| InsertPath (f : folder) (subfolder src dst : string)
| RemovePath (f : folder) (subfolder path : string)
| GetAbsPath (f : folder) (subfolder path : string).

Definition _path_subfolder_name : string := "path".

Definition remove_path (self : Workflow) (path : string) : path_call :=
  if negb (_to_be_stored self)
  then PathValueError "Cannot delete a path after storing the node"
  else if isabs path
  then PathValueError "The destination path in remove_path must be a relative path"
  else RemovePath (current_folder self) _path_subfolder_name path.

Definition add_path (self : Workflow) (src_abs dst_path : string) : path_call :=
  if negb (_to_be_stored self)
  then PathValueError "Cannot insert a path after storing the node"
  else if negb (isabs src_abs)
  then PathValueError "The source path in add_path must be absolute"
  else if isabs dst_path
  then PathValueError
         "The destination path in add_path must be a filename without any subfolder"
  else InsertPath (current_folder self) _path_subfolder_name src_abs dst_path.

Definition get_abs_path (self : Workflow) (path : string) (section : string) : path_call :=
  if isabs path
  then PathValueError "The path in get_abs_path must be relative"
  else GetAbsPath (current_folder self) section path.

(** ** The constructor *)

(** The frame of the caller as [__init__] reads it from the stack: its
    file, the name of its function, the name of its module when
    [inspect.getmodule] finds one, and the name of the class of its
    [self]. *)
Record caller_frame : Type := mkFrame {
  frame_file : string;
  frame_funct : string;
  frame_module : option string;
  frame_class : string
}.

(** What [Workflow.__init__] ends with: the attributes of the object, or
    one of its exceptions. *)
Inductive init_outcome : Type :=
| Built (wf : Workflow)
| InitValueError (msg : string)
| InitSystemError (msg : string)
| InitRaise (e : exn).

(** [Workflow.__init__] with its keyword arguments: [uuid_] is the
    keyword [uuid],
    [more_kwargs] says whether other keywords were passed with it.  The
    parameters bag and the staging folder are outside this model. *)
Definition Workflow___init__ (d : Db) (uuid_ : option uuid) (more_kwargs : bool)
    (frame : caller_frame) : init_outcome :=
  match uuid_ with
  | Some u =>
      if more_kwargs
      then InitValueError "If you pass a UUID, you cannot pass any further parameter"
      else match Workflow_init d u with
           | Ok wf => Built wf
           | Raise e => InitRaise e
           end
  | None =>
      if negb (String.eqb (frame_funct frame) "__init__")
      then InitSystemError "A workflow must implement the __init__ class explicitly"
      else
        match frame_module frame with
        | None => InitSystemError "The superclass can't be called directly"
        | Some name =>
            if negb (String.prefix "aiida.workflows" name)
            then InitSystemError "The superclass can't be called directly"
            else Built (mkWorkflow true None name (frame_class frame)
                          (frame_file frame) [] [])
        end
  end.

(** ** Predicates of the further statements *)

(** The record [store] creates for the object of [w]. *)
Definition new_record (w : World) : DbWorkflow :=
  mkDbWorkflow (fresh_pk (w_db w)) (fresh_uuid (w_db w))
    (caller_module (w_self w)) (caller_module_class (w_self w))
    (caller_file (w_self w)) (md5 (caller_file (w_self w))) CREATED "".

(** The step record [get_or_create] creates. *)
Definition new_step (u : uuid) (name : string) : DbWorkflowStep :=
  mkDbWorkflowStep u name INITIALIZED wf_default_call [] [].

(** A workflow record with another status. *)
Definition with_wf_status (st : wf_states) (r : DbWorkflow) : DbWorkflow :=
  mkDbWorkflow (wf_pk r) (wf_uuid r) (wf_module r) (wf_module_class r)
    (wf_script_path r) (wf_script_md5 r) st (wf_report r).

(** Every step belongs to a workflow that has a record. *)
Definition steps_have_parents (d : Db) : Prop :=
  forall s, In s (db_steps d) -> find_workflow d (st_parent s) <> None.

(** The writes [kill] may make from [u]: a FINISHED mark on a workflow it
    reaches through running steps, or on a calculation attached to a
    running step of such a workflow. *)
Definition kill_within (d : Db) (u : uuid) (o : db_op) : Prop :=
  match o with
  | SetWfStatus v FINISHED => reaches_running d u v
  | CalcSetState c CALC_FINISHED =>
      exists v s, reaches_running d u v /\ running_step d v s /\
                  In c (st_calculations s)
  | _ => False
  end.

(** The class of the record [v] can be loaded by the resumer. *)
Definition loadable (importable : list (string * py_module)) (d : Db) (v : uuid) : Prop :=
  exists row wf_mod name,
    find_workflow d v = Some row /\
    import_module importable (wf_module row) = Some wf_mod /\
    find (fun p => String.eqb (wf_module_class row) (fst p)) wf_mod
      = Some (name, WorkflowSubclass).

(** [r] is the root of the tree [u] belongs to, [n] parent steps above
    it, and the class of every workflow above [u] can be loaded. *)
Inductive readable_root (importable : list (string * py_module)) (d : Db)
  : nat -> uuid -> uuid -> Prop :=
| readable_root_here u row :
    find_workflow d u = Some row ->
    parent_workflow_step d u = [] ->
    readable_root importable d 0 u u
| readable_root_up n u row s r :
    find_workflow d u = Some row ->
    parent_workflow_step d u = [s] ->
    loadable importable d (st_parent s) ->
    readable_root importable d n (st_parent s) r ->
    readable_root importable d (S n) u r.

(** The world after the report of [r] has been emptied. *)
Definition report_cleared (r : uuid) (w : World) : World :=
  mkWorld (w_self w) (upd_wf r with_empty_report (w_db w)) (w_files w) (w_log w).

(** A step record emptied and set back to INITIALIZED; its pointer
    stays. *)
Definition reset_step (s : DbWorkflowStep) : DbWorkflowStep :=
  mkDbWorkflowStep (st_parent s) (st_name s) INITIALIZED (st_nextcall s) [] [].

(** What [revive] leaves of a step record, for the workflow [u]. *)
Definition revived (u : uuid) (s : DbWorkflowStep) : DbWorkflowStep :=
  if Nat.eqb (st_parent s) u && wf_states_eqb (st_status s) ERROR
  then reset_step s else s.

(** The writes of [revive] for the step [s] in ERROR, after the writes
    [L] of the kills of its sub-workflows. *)
Definition revive_ops (s : DbWorkflowStep) (L : list db_op) : list db_op :=
  (clean_ops (st_parent s) (st_name s) s L
     ++ [SetStepStatus (st_parent s) (st_name s) INITIALIZED])%list.

(** A workflow record resealed and set running by [revive]. *)
Definition resealed (r : DbWorkflow) : DbWorkflow :=
  mkDbWorkflow (wf_pk r) (wf_uuid r) (wf_module r) (wf_module_class r)
    (wf_script_path r) (md5 (wf_script_path r)) RUNNING (wf_report r).

(** ** Further sample data *)

(** A workflow object that can be loaded: its module defines its class. *)
Definition demo_importable : list (string * py_module) :=
  [("aiida.workflows.user.demo", [("os", NotCallable);
                                  ("WorkflowDemo", WorkflowSubclass)])].

(** The world [store] leaves. *)
Definition after_store (w : World) : World :=
  mkWorld (mkWorkflow false (Some (fresh_uuid (w_db w)))
             (caller_module (w_self w)) (caller_module_class (w_self w))
             (caller_file (w_self w))
             (attach_calc_lazy_storage (w_self w))
             (attach_subwf_lazy_storage (w_self w)))
          (apply_op (CreateWorkflow (new_record w)) (w_db w))
          (w_files w)
          (w_log w ++ [CreateWorkflow (new_record w)])%list.

(** The log [L] marks the workflow [v] as FINISHED. *)
Definition marks (L : list db_op) (v : uuid) : bool :=
  existsb (fun o => match o with
                    | SetWfStatus x FINISHED => Nat.eqb x v
                    | _ => false
                    end) L.

Definition finish_marked (L : list db_op) (r : DbWorkflow) : DbWorkflow :=
  if marks L (wf_uuid r) then with_wf_status FINISHED r else r.

(** Workflow 3 has been attached to a step of workflow 1 and to a step
    of workflow 2. *)
Definition sample_db_shared : Db :=
  mkDb [sample_row 1 RUNNING ""; sample_row 2 RUNNING ""; sample_row 3 CREATED ""]
       [mkDbWorkflowStep 1 "a" RUNNING "b" [] [3];
        mkDbWorkflowStep 2 "a" RUNNING "b" [] [3]]
       [].

Definition shared_world : World := mkWorld (loaded 3) sample_db_shared [] [].

(** The script of workflow 1 is no longer the one that was sealed; its
    step [start] failed after it had named [middle]. *)
Definition sample_db_edited : Db :=
  mkDb [mkDbWorkflow 1 1 "aiida.workflows.user.demo" "WorkflowDemo"
          sample_path "md5 of another path" ERROR "";
        sample_row 2 RUNNING ""]
       [mkDbWorkflowStep 1 "start" ERROR "middle" [11] [2];
        mkDbWorkflowStep 2 "t" RUNNING wf_exit_call [20] []]
       [(11, CALC_ACTIVE); (20, CALC_ACTIVE)].

Definition edited_world : World := mkWorld (loaded 1) sample_db_edited [] [].

(** A write that creates a workflow record. *)
Definition creates_workflow (o : db_op) : bool :=
  match o with CreateWorkflow _ => true | _ => false end.

(** A computation that, whatever its outcome, has only added writes to
    the log, none of which creates a workflow record: it leaves the
    object and the files alone. *)
Definition tame {A} (m : M A) : Prop :=
  forall w r w', m w = (r, w') ->
    exists L, w' = commit L w /\
              forallb (fun o => negb (creates_workflow o)) L = true.

(** ** Store, with the calls that can fail

    [store] is [Workflow.store] when the calls it makes outside of the
    tables return.  Between [objects.create] and the last line, which
    clears [_to_be_stored], each of them can raise; [store_calls] gives
    them their outcomes: [get_automatic_user()], which is evaluated
    before the record is created; the statement that adds the
    parameters ([Ok tt] also when the object has no [_params]); and the
    two lines that build the repository folder and move the staging
    folder into it. *)
Record store_calls : Type := mkStoreCalls {
  sc_get_automatic_user : result unit;
  sc_add_parameters : result unit;
  sc_replace_with_folder : result unit
}.

Definition store_with (c : store_calls) : M unit :=
  self <- get_self ;;
  lift (sc_get_automatic_user c) ;;
  d <- get_db ;;
  let row := mkDbWorkflow (fresh_pk d) (fresh_uuid d)
               (caller_module self) (caller_module_class self)
               (caller_file self) (md5 (caller_file self)) CREATED "" in
  write (CreateWorkflow row) ;;
  set_self (mkWorkflow (_to_be_stored self) (Some (wf_uuid row))
              (caller_module self) (caller_module_class self) (caller_file self)
              (attach_calc_lazy_storage self) (attach_subwf_lazy_storage self)) ;;
  lift (sc_add_parameters c) ;;
  lift (sc_replace_with_folder c) ;;
  self <- get_self ;;
  set_self (mkWorkflow false (_dbworkflowinstance self)
              (caller_module self) (caller_module_class self) (caller_file self)
              (attach_calc_lazy_storage self) (attach_subwf_lazy_storage self)).

(** Everything [wrapper] does before it calls the decorated function,
    with this [store].  On an object that is not to be stored
    [step_prologue] is [wrapper] from its second statement on. *)
Definition step_prologue_with (c : store_calls) (wrapped_method : string)
    (nargs : nat) : M DbWorkflowStep :=
  self <- get_self ;;
  (if _to_be_stored self then store_with c else ret tt) ;;
  step_prologue wrapped_method nargs.

(** The calls of [store] all return. *)
Definition store_calls_return (c : store_calls) : Prop :=
  sc_get_automatic_user c = Ok tt /\
  sc_add_parameters c = Ok tt /\
  sc_replace_with_folder c = Ok tt.

(** The world a [store] leaves that failed after it had created the
    record: the record is in the table, and the object, which holds it,
    is still to be stored. *)
Definition after_failed_store (w : World) : World :=
  mkWorld (mkWorkflow (_to_be_stored (w_self w)) (Some (fresh_uuid (w_db w)))
             (caller_module (w_self w)) (caller_module_class (w_self w))
             (caller_file (w_self w))
             (attach_calc_lazy_storage (w_self w))
             (attach_subwf_lazy_storage (w_self w)))
          (apply_op (CreateWorkflow (new_record w)) (w_db w))
          (w_files w)
          (w_log w ++ [CreateWorkflow (new_record w)])%list.

(** * The database environment ([aiida/djsite/utils.py])

    The functions of the module work on three pieces of global state:
    the attributes of [settings_profile], the tables of the database
    (of which only the names and the settings matter here) and the
    cache of the automatic user.  What they call outside of the module
    is a parameter: the defaults of [aiida.common.setup], [django.setup],
    the two functions of [aiida.common.globalsettings] over a store of
    settings of type [S], and the version of the schema of the code. *)

Inductive env_exn : Type :=
| InvalidOperation (msg : string)
| ValueError (msg : string)
| ConfigurationError (msg : string)
| KeyError (key : string)
| UserMultipleObjectsReturned
| ExternalError (what : string).

Inductive outcome (A : Type) : Type :=
| Returns (a : A)
| Fails (e : env_exn).
#[global] Arguments Returns {A} a.
#[global] Arguments Fails {A} e.

Record Env (S : Type) : Type := mkEnv {
  LOAD_DBENV_CALLED : bool;
  CURRENT_AIIDADB_PROCESS : option string;
  AIIDADB_PROFILE : option string;
  DJANGO_SETTINGS_MODULE : option string;
  table_names : list string;
  dbsetting : S;
  _aiida_autouser_cache : option (nat * string)
}.
#[global] Arguments mkEnv {S}.
#[global] Arguments LOAD_DBENV_CALLED {S}.
#[global] Arguments CURRENT_AIIDADB_PROCESS {S}.
#[global] Arguments AIIDADB_PROFILE {S}.
#[global] Arguments DJANGO_SETTINGS_MODULE {S}.
#[global] Arguments table_names {S}.
#[global] Arguments dbsetting {S}.
#[global] Arguments _aiida_autouser_cache {S}.

(** What the module imports from outside.  [get_global_setting] answers
    [None] where the function raises [KeyError]. *)
Record Externals (S : Type) : Type := mkExternals {
  DEFAULT_PROCESS : string;
  get_default_profile : option string -> outcome string;
  django_setup : outcome unit;
  get_global_setting : string -> S -> option string;
  set_global_setting : string -> string -> string -> S -> S;
  SCHEMA_VERSION : string
}.
#[global] Arguments mkExternals {S}.
#[global] Arguments DEFAULT_PROCESS {S}.
#[global] Arguments get_default_profile {S}.
#[global] Arguments django_setup {S}.
#[global] Arguments get_global_setting {S}.
#[global] Arguments set_global_setting {S}.
#[global] Arguments SCHEMA_VERSION {S}.

Definition option_string_eqb (a b : option string) : bool :=
  match a, b with
  | None, None => true
  | Some x, Some y => String.eqb x y
  | _, _ => false
  end.

Definition is_dbenv_loaded {S} (s : Env S) : bool := LOAD_DBENV_CALLED s.

(** [_load_dbenv_noschemacheck]: the flag is set before anything else is
    looked at. *)
Definition _load_dbenv_noschemacheck {S} (ext : Externals S)
    (process profile : option string) (s : Env S) : outcome unit * Env S :=
  if LOAD_DBENV_CALLED s
  then (Fails (InvalidOperation "You cannot call load_dbenv multiple times!"), s)
  else
    let s1 := mkEnv true (CURRENT_AIIDADB_PROCESS s) (AIIDADB_PROFILE s)
                (DJANGO_SETTINGS_MODULE s) (table_names s) (dbsetting s)
                (_aiida_autouser_cache s) in
    let s2 :=
      match CURRENT_AIIDADB_PROCESS s1, process with
      | None, None =>
          mkEnv true (Some (DEFAULT_PROCESS ext)) (AIIDADB_PROFILE s1)
            (DJANGO_SETTINGS_MODULE s1) (table_names s1) (dbsetting s1)
            (_aiida_autouser_cache s1)
      | current, Some p =>
          if negb (option_string_eqb (Some p) current)
          then mkEnv true (Some p) None
                 (DJANGO_SETTINGS_MODULE s1) (table_names s1) (dbsetting s1)
                 (_aiida_autouser_cache s1)
          else s1
      | Some _, None => s1
      end in
    let finish (s3 : Env S) :=
      (django_setup ext,
       mkEnv (LOAD_DBENV_CALLED s3) (CURRENT_AIIDADB_PROCESS s3) (AIIDADB_PROFILE s3)
         (Some "aiida.djsite.settings.settings") (table_names s3) (dbsetting s3)
         (_aiida_autouser_cache s3)) in
    match AIIDADB_PROFILE s2 with
    | Some _ =>
        match profile with
        | Some _ =>
            (Fails (ValueError
               "You are specifying a profile, but the settings_profile.AIIDADB_PROFILE is already set"),
             s2)
        | None => finish s2
        end
    | None =>
        match (match profile with
               | Some p => Returns p
               | None => get_default_profile ext (CURRENT_AIIDADB_PROCESS s2)
               end) with
        | Fails e => (Fails e, s2)
        | Returns the_profile =>
            finish (mkEnv (LOAD_DBENV_CALLED s2) (CURRENT_AIIDADB_PROCESS s2)
                      (Some the_profile) (DJANGO_SETTINGS_MODULE s2) (table_names s2)
                      (dbsetting s2) (_aiida_autouser_cache s2))
        end
    end.

Definition get_current_profile {S} (s : Env S) : option string :=
  if is_dbenv_loaded s then AIIDADB_PROFILE s else None.

Definition get_db_schema_version {S} (ext : Externals S) (s : Env S) : option string :=
  get_global_setting ext "db|schemaversion" (dbsetting s).

Definition set_db_schema_version {S} (ext : Externals S) (version : string)
    (s : Env S) : Env S :=
  mkEnv (LOAD_DBENV_CALLED s) (CURRENT_AIIDADB_PROCESS s) (AIIDADB_PROFILE s)
    (DJANGO_SETTINGS_MODULE s) (table_names s)
    (set_global_setting ext "db|schemaversion" version
       "The version of the schema used in this database." (dbsetting s))
    (_aiida_autouser_cache s).

(** [str.format] of a value that may be [None]. *)
Definition format_option (o : option string) : string :=
  match o with Some x => x | None => "None" end.

Definition schema_mismatch (code_schema_version db_schema_version : string)
    (profile : option string) : env_exn :=
  ConfigurationError
    ("The code schema version is " ++ code_schema_version
     ++ ", but the version stored in the"
     ++ "database (DbSetting table) is " ++ db_schema_version ++ ", stopping."
     ++ newline ++ "To migrate to latest version, go to aiida/djsite and run:"
     ++ newline ++ "python manage.py --aiida-profile=" ++ format_option profile
     ++ " migrate").

Definition check_schema_version {S} (ext : Externals S) (s : Env S)
  : outcome unit * Env S :=
  if negb (existsb (String.eqb "db_dbsetting") (table_names s))
  then (Returns tt, s)
  else
    let code_schema_version := SCHEMA_VERSION ext in
    let '(db_schema_version, s1) :=
      match get_db_schema_version ext s with
      | None =>
          let s1 := set_db_schema_version ext code_schema_version s in
          (get_db_schema_version ext s1, s1)
      | Some v => (Some v, s)
      end in
    if option_string_eqb (Some code_schema_version) db_schema_version
    then (Returns tt, s1)
    else (Fails (schema_mismatch code_schema_version (format_option db_schema_version)
                   (get_current_profile s1)), s1).

Definition load_dbenv {S} (ext : Externals S) (process profile : option string)
    (s : Env S) : outcome unit * Env S :=
  match _load_dbenv_noschemacheck ext process profile s with
  | (Returns _, s1) => check_schema_version ext s1
  | (Fails e, s1) => (Fails e, s1)
  end.

(** [get_configured_user_email]: the [except KeyError] is around the
    call of [get_profile_config] too. *)
Definition get_configured_user_email {S}
    (get_profile_config : option string -> outcome (list (string * string)))
    (DEFAULT_USER_CONFIG_FIELD : string) (s : Env S) : outcome string :=
  match get_profile_config (AIIDADB_PROFILE s) with
  | Fails (KeyError _) =>
      Fails (ConfigurationError
               "No 'default_user' key found in the AiiDA configuration file")
  | Fails e => Fails e
  | Returns profile_conf =>
      match find (fun p => String.eqb (fst p) DEFAULT_USER_CONFIG_FIELD) profile_conf with
      | Some (_, email) => Returns email
      | None =>
          Fails (ConfigurationError
                   "No 'default_user' key found in the AiiDA configuration file")
      end
  end.

(** [get_automatic_user]; a user is a key and an email, [users] is the
    table of the users. *)
Definition get_automatic_user {S}
    (get_profile_config : option string -> outcome (list (string * string)))
    (DEFAULT_USER_CONFIG_FIELD : string) (users : list (nat * string))
    (s : Env S) : outcome (nat * string) * Env S :=
  match _aiida_autouser_cache s with
  | Some user => (Returns user, s)
  | None =>
      match get_configured_user_email get_profile_config DEFAULT_USER_CONFIG_FIELD s with
      | Fails e => (Fails e, s)
      | Returns email =>
          match filter (fun u => String.eqb (snd u) email) users with
          | [] => (Fails (ConfigurationError ("No aiida user with email " ++ email)), s)
          | [user] =>
              (Returns user,
               mkEnv (LOAD_DBENV_CALLED s) (CURRENT_AIIDADB_PROCESS s) (AIIDADB_PROFILE s)
                 (DJANGO_SETTINGS_MODULE s) (table_names s) (dbsetting s) (Some user))
          | _ => (Fails UserMultipleObjectsReturned, s)
          end
      end
  end.

(** [get_daemon_user] and [set_daemon_user]. *)
Definition get_daemon_user {S} (ext : Externals S) (DEFAULT_AIIDA_USER : string)
    (s : Env S) : string :=
  match get_global_setting ext "daemon|user" (dbsetting s) with
  | Some user => user
  | None => DEFAULT_AIIDA_USER
  end.

Definition set_daemon_user {S} (ext : Externals S) (user_email : string)
    (s : Env S) : Env S :=
  mkEnv (LOAD_DBENV_CALLED s) (CURRENT_AIIDADB_PROCESS s) (AIIDADB_PROFILE s)
    (DJANGO_SETTINGS_MODULE s) (table_names s)
    (set_global_setting ext "daemon|user" user_email
       "The only user that is allowed to run the AiiDA daemon on this DB instance"
       (dbsetting s))
    (_aiida_autouser_cache s).

(** A store of settings for the closed examples: the pairs of a key and
    a value, the first pair of a key being the one that counts. *)
Definition sample_externals : Externals (list (string * string)) :=
  mkExternals "verdi"
    (fun process => Returns ("default of " ++ format_option process))
    (Returns tt)
    (fun key store => option_map snd (find (fun p => String.eqb (fst p) key) store))
    (fun key value description store => (key, value) :: store)
    "1.0.2".

Definition fresh_env : Env (list (string * string)) :=
  mkEnv false None None None ["db_dbsetting"; "db_dbuser"] [] None.

(** The frame of the constructor of the class [WorkflowDemo]. *)
Definition demo_frame : caller_frame :=
  mkFrame sample_path "__init__" (Some "aiida.workflows.user.demo") "WorkflowDemo".

(** A stand-in for [splitlines] in the closed examples: the lines are
    ended by the line feed. *)
Fixpoint sample_splitlines_from (line s : string) : list string :=
  match s with
  | EmptyString => match line with EmptyString => [] | _ => [line] end
  | String c s' =>
      if Ascii.eqb c (Ascii.ascii_of_nat 10)
      then line :: sample_splitlines_from EmptyString s'
      else sample_splitlines_from (line ++ String c EmptyString) s'
  end.

Definition sample_splitlines (s : string) : list string :=
  sample_splitlines_from EmptyString s.

(** An environment in which a profile has been set by the command line
    before the database environment is loaded. *)
Definition profiled_env : Env (list (string * string)) :=
  mkEnv false (Some "verdi") (Some "production") None ["db_dbsetting"] [] None.

(** The step a write is about, when it is about one. *)
Definition op_step_key (o : db_op) : option (uuid * string) :=
  match o with
  | CreateStep row => Some (st_parent row, st_name row)
  | SetStepStatus u name _ | SetNextcall u name _
  | AddCalculation u name _ | AddSubWorkflow u name _
  | RemoveCalculations u name | RemoveSubWorkflows u name => Some (u, name)
  | _ => None
  end.

(** The log [L] marks the calculation [c] as FINISHED. *)
Definition calc_marks (L : list db_op) (c : calc_id) : bool :=
  existsb (fun o => match o with
                    | CalcSetState x CALC_FINISHED => Nat.eqb x c
                    | _ => false
                    end) L.

Definition calc_marked (L : list db_op) (p : calc_id * calc_states)
  : calc_id * calc_states :=
  if calc_marks L (fst p) then (fst p, CALC_FINISHED) else p.

(** The owners of the workflows of [before_world]: workflows 1 and 2
    belong to user 7, workflow 3 to user 8. *)
Definition sample_wf_user (u : uuid) : nat := if Nat.eqb u 3 then 8 else 7.

(** A [store] whose move of the staging folder fails. *)
Definition failing_move : store_calls :=
  mkStoreCalls (Ok tt) (Ok tt)
    (Raise (UserException "OSError: [Errno 28] No space left on device")).

(** * Properties *)

Local Open Scope list_scope.

(** ** Lookups *)


Lemma find_append {A} (f : A -> bool) l l' :
  find f (l ++ l') = match find f l with Some x => Some x | None => find f l' end.
Proof. induction l as [|x l IH]; cbn; [reflexivity|]. now destruct (f x). Qed.

Lemma find_workflow_uuid d u row :
  find_workflow d u = Some row -> wf_uuid row = u.
Proof.
  unfold find_workflow. intros H.
  apply find_some in H. destruct H as [_ H].
  now apply Nat.eqb_eq in H.
Qed.

Lemma find_step_key d u name s :
  find_step d u name = Some s -> st_parent s = u /\ st_name s = name.
Proof.
  unfold find_step, is_step. intros H.
  apply find_some in H. destruct H as [_ H].
  apply andb_true_iff in H. destruct H as [H1 H2].
  apply Nat.eqb_eq in H1. apply String.eqb_eq in H2. now split.
Qed.

Lemma dbworkflowinstance_stored w u row :
  stored w u row -> dbworkflowinstance w = (Ok row, w).
Proof.
  intros (Hu & Hrow).
  unfold dbworkflowinstance, bind, get_self, fetch. cbn.
  rewrite Hu. cbn. now rewrite Hrow.
Qed.

Lemma wf_states_eqb_eq a b : wf_states_eqb a b = true <-> a = b.
Proof. destruct a, b; cbn; split; intros H; try reflexivity; discriminate. Qed.

(** ** Statuses *)

(** C9, as the code has it: [has_finished_ok] answers [True] exactly
    when the status of the record is [FINISHED] or [SLEEP]. *)
Theorem has_finished_ok_finished_or_sleep w u row :
  stored w u row ->
  exists b, has_finished_ok w = (Ok b, w) /\
            (b = true <-> wf_status row = FINISHED \/ wf_status row = SLEEP).
Proof.
  intros H. unfold has_finished_ok, bind.
  rewrite (dbworkflowinstance_stored _ _ _ H). cbn.
  eexists. split; [reflexivity|].
  destruct (wf_status row); cbn; split; intros; try reflexivity;
    try discriminate; try (now left); try (now right);
    destruct H0; discriminate.
Qed.

(** ** Running a computation one call at a time *)

Lemma bind_ok {A B} (m : M A) (k : A -> M B) w a w' :
  m w = (Ok a, w') -> bind m k w = k a w'.
Proof. unfold bind. now intros ->. Qed.

Lemma bind_raise {A B} (m : M A) (k : A -> M B) w e w' :
  m w = (Raise e, w') -> bind m k w = (Raise e, w').
Proof. unfold bind. now intros ->. Qed.

Tactic Notation "mstep" constr(H) := rewrite (bind_ok _ _ _ _ _ H).
Tactic Notation "mstep" constr(H) "in" hyp(H') := rewrite (bind_ok _ _ _ _ _ H) in H'.
Tactic Notation "mfail" constr(H) := rewrite (bind_raise _ _ _ _ _ H).
Tactic Notation "mfail" constr(H) "in" hyp(H') := rewrite (bind_raise _ _ _ _ _ H) in H'.

(** ** Writes and their log *)

Lemma commit_nil w : commit [] w = w.
Proof. destruct w. unfold commit. cbn. now rewrite app_nil_r. Qed.

Lemma replay_app a b d : replay (a ++ b) d = replay b (replay a d).
Proof. unfold replay. apply fold_left_app. Qed.

Lemma commit_app a b w : commit b (commit a w) = commit (a ++ b) w.
Proof. unfold commit. cbn. now rewrite replay_app, app_assoc. Qed.

Lemma write_commit o w : write o w = (Ok tt, commit [o] w).
Proof. reflexivity. Qed.

Lemma for_each_write {A} (f : A -> db_op) l w :
  for_each l (fun x => write (f x)) w = (Ok tt, commit (map f l) w).
Proof.
  revert w. induction l as [|x l IH]; intros w; cbn [for_each map].
  - unfold ret. now rewrite commit_nil.
  - unfold bind. rewrite write_commit, IH, commit_app. reflexivity.
Qed.

Lemma replay_step_ops_workflows ops d :
  forallb step_op ops = true ->
  db_workflows (replay ops d) = db_workflows d.
Proof.
  revert d. induction ops as [|o ops IH]; intros d H; [reflexivity|].
  cbn in H. apply andb_true_iff in H. destruct H as [Ho Hops].
  cbn. rewrite (IH _ Hops). destruct o; try discriminate; reflexivity.
Qed.

Lemma stored_commit_step_ops ops w u row :
  forallb step_op ops = true -> stored w u row -> stored (commit ops w) u row.
Proof.
  intros Hops [Hu Hrow]. split; [exact Hu|].
  unfold find_workflow, commit. cbn.
  now rewrite (replay_step_ops_workflows _ _ Hops).
Qed.

Lemma flush_ops_step_ops u caller calcs subwfs :
  forallb step_op (flush_ops u caller calcs subwfs) = true.
Proof.
  unfold flush_ops. rewrite forallb_app. apply andb_true_iff. split.
  - induction calcs; cbn; auto.
  - induction subwfs; cbn; auto.
Qed.

(** ** Step queries on a committed workflow *)

Lemma get_step_stored w u row name :
  stored w u row -> String.eqb name wf_exit_call = false ->
  get_step (inl name) w = (Ok (find_step (w_db w) u name), w).
Proof.
  intros [Hu Hrow] Hname.
  unfold get_step, bind, ret, get_self, get_db. cbn.
  rewrite Hname. cbn. rewrite Hu. cbn. rewrite Hrow. cbn.
  now rewrite (find_workflow_uuid _ _ _ Hrow).
Qed.

Lemma has_step_stored w u row name :
  stored w u row -> String.eqb name wf_exit_call = false ->
  has_step (inl name) w
  = (Ok (match find_step (w_db w) u name with None => false | Some _ => true end), w).
Proof.
  intros Hst Hname. unfold has_step.
  now mstep (get_step_stored _ _ _ _ Hst Hname).
Qed.

Lemma steps_get_stored w u row name s :
  stored w u row -> find_step (w_db w) u name = Some s ->
  steps_get name w = (Ok s, w).
Proof.
  intros Hst Hs. unfold steps_get, bind.
  rewrite (dbworkflowinstance_stored _ _ _ Hst). unfold get_db. cbn.
  destruct Hst as [_ Hrow]. rewrite (find_workflow_uuid _ _ _ Hrow).
  now rewrite Hs.
Qed.

(** ** Attachments *)

Lemma buffered_lazy_append {A} key (x : A) storage :
  buffered key (lazy_append key x storage) = buffered key storage ++ [x].
Proof.
  unfold buffered, lazy_append, lazy_get.
  destruct (find (fun p => fst p =? key) storage) as [p|] eqn:Hf; cbn [option_map].
  - induction storage as [|q l IH]; [discriminate|].
    cbn [find map] in *. destruct (fst q =? key) eqn:Hq.
    + inversion Hf; subst. cbn [fst]. rewrite Hq. reflexivity.
    + rewrite Hq. now apply IH.
  - rewrite find_append, Hf. cbn. now rewrite String.eqb_refl.
Qed.

(** A calculation attached in a step body goes to the end of the buffer
    of the caller; so does a sub-workflow. *)
Lemma attach_calculation_buffered caller calc w :
  exists w', attach_calculation caller calc w = (Ok tt, w') /\
    buffered caller (attach_calc_lazy_storage (w_self w'))
    = buffered caller (attach_calc_lazy_storage (w_self w)) ++ [calc] /\
    attach_subwf_lazy_storage (w_self w') = attach_subwf_lazy_storage (w_self w) /\
    w_db w' = w_db w /\ w_log w' = w_log w.
Proof.
  eexists. split; [reflexivity|]. cbn. split; [apply buffered_lazy_append|auto].
Qed.

Lemma attach_workflow_buffered caller sub_wf w :
  exists w', attach_workflow caller sub_wf w = (Ok tt, w') /\
    buffered caller (attach_subwf_lazy_storage (w_self w'))
    = buffered caller (attach_subwf_lazy_storage (w_self w)) ++ [sub_wf] /\
    attach_calc_lazy_storage (w_self w') = attach_calc_lazy_storage (w_self w) /\
    w_db w' = w_db w /\ w_log w' = w_log w.
Proof.
  eexists. split; [reflexivity|]. cbn. split; [apply buffered_lazy_append|auto].
Qed.

(** ** Next *)

(** What [next] does once the fingerprint test, the [None] test and the
    caller test have passed. *)
Lemma next_run w u row caller ms next_method :
  stored w u row ->
  wf_script_md5 row = md5 (wf_script_path row) ->
  String.eqb caller wf_exit_call = false ->
  find_step (w_db w) u caller = Some ms ->
  let flush := flush_ops u caller
                 (buffered caller (attach_calc_lazy_storage (w_self w)))
                 (buffered caller (attach_subwf_lazy_storage (w_self w))) in
  next caller (Some next_method) w =
  match next_call_name next_method with
  | Some name =>
      (Ok tt, commit (flush ++ [SetNextcall u caller name;
                                SetWfStatus u RUNNING;
                                SetStepStatus u caller RUNNING]) w)
  | None => (Raise (AttributeError "wf_step_name"), commit flush w)
  end.
Proof.
  intros Hst Hmd5 Hcaller Hms flush.
  destruct (find_step_key _ _ _ _ Hms) as [Hp Hn].
  assert (Hu : wf_uuid row = u) by (destruct Hst as [_ H]; now apply find_workflow_uuid in H).
  unfold next.
  mstep (dbworkflowinstance_stored _ _ _ Hst).
  rewrite Hmd5, String.eqb_refl. cbn [negb].
  mstep (has_step_stored _ _ _ _ Hst Hcaller). rewrite Hms. cbn [negb].
  erewrite bind_ok with (a := tt) (w' := w)
    by (destruct (m_name next_method =? wf_exit_call); reflexivity).
  mstep (steps_get_stored _ _ _ _ _ Hst Hms).
  mstep (eq_refl : get_self w = (Ok (w_self w), w)).
  rewrite Hp, Hn.
  erewrite bind_ok with (a := tt)
      (w' := commit (map (AddCalculation u caller)
                (buffered caller (attach_calc_lazy_storage (w_self w)))) w).
  2:{ unfold buffered. destruct (lazy_get caller _).
      - apply for_each_write.
      - unfold ret; cbn [map]. now rewrite commit_nil. }
  erewrite bind_ok with (a := tt) (w' := commit flush w).
  2:{ unfold flush, flush_ops. rewrite <- commit_app.
      unfold buffered at 2. destruct (lazy_get caller (attach_subwf_lazy_storage _)).
      - apply for_each_write.
      - unfold ret; cbn [map]. now rewrite commit_nil. }
  assert (Hfin : forall name,
    (write (SetNextcall u caller name);;
     row0 <- dbworkflowinstance;;
     write (SetWfStatus (wf_uuid row0) RUNNING);;
     write (SetStepStatus u caller RUNNING)) (commit flush w)
    = (Ok tt, commit (flush ++ [SetNextcall u caller name; SetWfStatus u RUNNING;
                                SetStepStatus u caller RUNNING]) w)).
  { intros name.
    mstep (write_commit (SetNextcall u caller name) (commit flush w)).
    rewrite commit_app.
    assert (Hst' : stored (commit (flush ++ [SetNextcall u caller name]) w) u row).
    { apply stored_commit_step_ops; [|exact Hst].
      rewrite forallb_app. unfold flush. now rewrite flush_ops_step_ops. }
    mstep (dbworkflowinstance_stored _ _ _ Hst'). rewrite Hu.
    mstep (write_commit (SetWfStatus u RUNNING)
             (commit (flush ++ [SetNextcall u caller name]) w)).
    rewrite commit_app, write_commit, commit_app.
    now rewrite <- !app_assoc. }
  unfold next_call_name.
  destruct (m_name next_method =? wf_exit_call) eqn:Hexit; cbn [negb].
  - mstep (eq_refl : ret wf_exit_call (commit flush w) = (Ok wf_exit_call, commit flush w)).
    apply Hfin.
  - destruct (m_wf_step_name next_method) as [name|].
    + mstep (eq_refl : ret name (commit flush w) = (Ok name, commit flush w)).
      apply Hfin.
    + reflexivity.
Qed.

(** *** Reading a step back after writes *)

Lemma find_step_upd_same u n f d :
  (forall s, st_parent (f s) = st_parent s /\ st_name (f s) = st_name s) ->
  find_step (upd_step u n f d) u n = option_map f (find_step d u n).
Proof.
  intros Hf. unfold find_step, upd_step. cbn [db_steps].
  induction (db_steps d) as [|s l IH]; [reflexivity|].
  cbn [map find]. destruct (is_step u n s) eqn:Hs.
  - unfold is_step in *. destruct (Hf s) as [-> ->]. now rewrite Hs.
  - now rewrite Hs.
Qed.

Lemma find_workflow_upd_same u f d :
  (forall r, wf_uuid (f r) = wf_uuid r) ->
  find_workflow (upd_wf u f d) u = option_map f (find_workflow d u).
Proof.
  intros Hf. unfold find_workflow, upd_wf. cbn [db_workflows].
  induction (db_workflows d) as [|r l IH]; [reflexivity|].
  cbn [map find]. destruct (wf_uuid r =? u)%nat eqn:Hr.
  - now rewrite Hf, Hr.
  - now rewrite Hr.
Qed.

Lemma find_workflow_upd_other u v f d :
  (forall r, wf_uuid (f r) = wf_uuid r) -> u <> v ->
  find_workflow (upd_wf u f d) v = find_workflow d v.
Proof.
  intros Hf Huv. unfold find_workflow, upd_wf. cbn [db_workflows].
  induction (db_workflows d) as [|r l IH]; [reflexivity|].
  cbn [map find]. destruct (wf_uuid r =? u)%nat eqn:Hr.
  - rewrite Hf. apply Nat.eqb_eq in Hr.
    destruct (wf_uuid r =? v)%nat eqn:Hv; [|exact IH].
    apply Nat.eqb_eq in Hv. congruence.
  - destruct (wf_uuid r =? v)%nat; [reflexivity|exact IH].
Qed.

Lemma find_step_flush u n calcs subwfs d :
  find_step (replay (flush_ops u n calcs subwfs) d) u n
  = option_map (with_attachments calcs subwfs) (find_step d u n).
Proof.
  unfold flush_ops. rewrite replay_app.
  assert (Hc : forall cs d0, find_step (replay (map (AddCalculation u n) cs) d0) u n
                 = option_map (with_attachments cs []) (find_step d0 u n)).
  { induction cs as [|c cs IH]; intros d0.
    - cbn. destruct (find_step d0 u n) as [[]|]; cbn; [|reflexivity].
      unfold with_attachments; cbn. now rewrite !app_nil_r.
    - cbn [map replay fold_left]. change (fold_left _ ?l ?x) with (replay l x).
      rewrite IH. cbn [apply_op]. rewrite find_step_upd_same by (intros; now split).
      destruct (find_step d0 u n) as [[]|]; cbn; [|reflexivity].
      unfold with_attachments; cbn. now rewrite <- app_assoc. }
  assert (Hs : forall ws d0, find_step (replay (map (AddSubWorkflow u n) ws) d0) u n
                 = option_map (with_attachments [] ws) (find_step d0 u n)).
  { induction ws as [|x ws IH]; intros d0.
    - cbn. destruct (find_step d0 u n) as [[]|]; cbn; [|reflexivity].
      unfold with_attachments; cbn. now rewrite !app_nil_r.
    - cbn [map replay fold_left]. change (fold_left _ ?l ?x) with (replay l x).
      rewrite IH. cbn [apply_op]. rewrite find_step_upd_same by (intros; now split).
      destruct (find_step d0 u n) as [[]|]; cbn; [|reflexivity].
      unfold with_attachments; cbn. now rewrite <- app_assoc. }
  rewrite Hs, Hc. destruct (find_step d u n) as [[]|]; cbn; [|reflexivity].
  unfold with_attachments; cbn. now rewrite !app_nil_r.
Qed.

(** *** How a call of [next] can end *)

Lemma dbworkflowinstance_inv w r w' :
  dbworkflowinstance w = (r, w') ->
  w' = w /\ match r with
            | Ok row => exists u, stored w u row
            | Raise e => e = AttributeError "_dbworkflowinstance" \/ e = ObjectDoesNotExist
            end.
Proof.
  unfold dbworkflowinstance, bind, get_self, fetch, raise, stored.
  destruct (_dbworkflowinstance (w_self w)) as [u|]; cbn.
  - destruct (find_workflow (w_db w) u) eqn:Hf; intros H; inversion H; subst;
      split; auto. now exists u.
  - intros H; inversion H; subst. split; auto.
Qed.

Lemma has_step_true_inv w name w' :
  has_step (inl name) w = (Ok true, w') ->
  w' = w /\ String.eqb name wf_exit_call = false /\
  exists u row ms, stored w u row /\ find_step (w_db w) u name = Some ms.
Proof.
  unfold has_step, get_step, bind, ret, raise, get_self, get_db.
  destruct (name =? wf_exit_call) eqn:Hname; [discriminate|].
  destruct (_dbworkflowinstance (w_self w)) as [u|] eqn:Hu; [|discriminate].
  destruct (find_workflow (w_db w) u) as [row|] eqn:Hrow; [|discriminate].
  rewrite (find_workflow_uuid _ _ _ Hrow).
  destruct (find_step (w_db w) u name) as [ms|] eqn:Hms; [|discriminate].
  intros H; inversion H; subst. repeat split; auto.
  exists u, row, ms. repeat split; auto.
Qed.

Lemma stored_unique w u row u' row' :
  stored w u row -> stored w u' row' -> u' = u /\ row' = row.
Proof. intros [H1 H2] [H3 H4]. rewrite H1 in H3. inversion H3; subst. rewrite H2 in H4. now inversion H4. Qed.

(** A call of [next] that returns went through every test. *)
Lemma next_success_inv w caller next_method w' :
  next caller next_method w = (Ok tt, w') ->
  exists u row ms m,
    stored w u row /\ wf_script_md5 row = md5 (wf_script_path row) /\
    String.eqb caller wf_exit_call = false /\
    find_step (w_db w) u caller = Some ms /\ next_method = Some m.
Proof.
  unfold next. intros H.
  destruct (dbworkflowinstance w) as [[row|e] w0] eqn:Hdb.
  2:{ mfail Hdb in H. discriminate. }
  mstep Hdb in H. apply dbworkflowinstance_inv in Hdb. destruct Hdb as [-> [u Hst]].
  destruct (wf_script_md5 row =? md5 (wf_script_path row)) eqn:Hmd5; [|discriminate].
  apply String.eqb_eq in Hmd5. cbn [negb] in H.
  destruct next_method as [m|]; [|discriminate].
  destruct (has_step (inl caller) w) as [[[]|e] w0] eqn:Hhas.
  - apply has_step_true_inv in Hhas. destruct Hhas as (-> & Hc & u' & row' & ms & Hst' & Hms).
    destruct (stored_unique _ _ _ _ _ Hst Hst') as [-> ->].
    now exists u, row, ms, m.
  - mstep Hhas in H. discriminate.
  - mfail Hhas in H. discriminate.
Qed.

(** C2: a call of [next] that returns has written, in this order, the
    buffered calculations of the caller, then its buffered sub-workflows,
    each in the order of the buffer, then the [nextcall] pointer, then
    the status [RUNNING] of the workflow and of the step.  When the
    pointer is written the lists of the step already hold every buffered
    item and the pointer still has its old value. *)
Theorem next_flushes_then_writes_pointer w caller next_method w' :
  next caller next_method w = (Ok tt, w') ->
  exists u ms name,
    _dbworkflowinstance (w_self w) = Some u /\
    find_step (w_db w) u caller = Some ms /\
    let calcs := buffered caller (attach_calc_lazy_storage (w_self w)) in
    let subwfs := buffered caller (attach_subwf_lazy_storage (w_self w)) in
    let flush := map (AddCalculation u caller) calcs
                 ++ map (AddSubWorkflow u caller) subwfs in
    let ops := flush ++ [SetNextcall u caller name; SetWfStatus u RUNNING;
                         SetStepStatus u caller RUNNING] in
    w_log w' = w_log w ++ ops /\
    w_db w' = replay ops (w_db w) /\
    find_step (replay flush (w_db w)) u caller
      = Some (mkDbWorkflowStep u caller (st_status ms) (st_nextcall ms)
                (st_calculations ms ++ calcs) (st_sub_workflows ms ++ subwfs)) /\
    find_step (w_db w') u caller
      = Some (mkDbWorkflowStep u caller RUNNING name
                (st_calculations ms ++ calcs) (st_sub_workflows ms ++ subwfs)) /\
    option_map wf_status (find_workflow (w_db w') u) = Some RUNNING.
Proof.
  intros H.
  destruct (next_success_inv _ _ _ _ H) as (u & row & ms & m & Hst & Hmd5 & Hc & Hms & ->).
  rewrite (next_run _ _ _ _ _ m Hst Hmd5 Hc Hms) in H.
  destruct (next_call_name m) as [name|]; [|discriminate].
  inversion H as [Hw]. clear H.
  destruct (find_step_key _ _ _ _ Hms) as [Hp Hn].
  exists u, ms, name. split; [exact (proj1 Hst)|]. split; [exact Hms|].
  cbn zeta. fold (flush_ops u caller
     (buffered caller (attach_calc_lazy_storage (w_self w)))
     (buffered caller (attach_subwf_lazy_storage (w_self w)))).
  set (flush := flush_ops _ _ _ _).
  assert (Hmid : find_step (replay flush (w_db w)) u caller
     = Some (mkDbWorkflowStep u caller (st_status ms) (st_nextcall ms)
                (st_calculations ms ++ buffered caller (attach_calc_lazy_storage (w_self w)))
                (st_sub_workflows ms ++ buffered caller (attach_subwf_lazy_storage (w_self w))))).
  { unfold flush. rewrite find_step_flush, Hms. cbn. unfold with_attachments.
    now rewrite Hp, Hn. }
  split; [reflexivity|]. split; [reflexivity|]. split; [exact Hmid|].
  unfold commit; cbn [w_db]. rewrite replay_app. cbn [replay fold_left apply_op].
  split.
  - rewrite find_step_upd_same by (intros; now split).
    change (find_step (upd_wf u ?f ?d) u caller) with (find_step d u caller).
    rewrite find_step_upd_same by (intros; now split).
    fold (replay flush (w_db w)). now rewrite Hmid.
  - change (find_workflow (upd_step ?a ?b ?f ?d) u) with (find_workflow d u).
    rewrite find_workflow_upd_same by reflexivity.
    change (find_workflow (upd_step ?a ?b ?f ?d) u) with (find_workflow d u).
    fold (replay flush (w_db w)).
    unfold find_workflow. rewrite replay_step_ops_workflows
      by apply flush_ops_step_ops.
    destruct Hst as [_ Hrow]. unfold find_workflow in Hrow. now rewrite Hrow.
Qed.

(** The exit sentinel is accepted and written as the [nextcall]. *)
Lemma next_exit_sentinel w u row caller ms next_method :
  stored w u row ->
  wf_script_md5 row = md5 (wf_script_path row) ->
  String.eqb caller wf_exit_call = false ->
  find_step (w_db w) u caller = Some ms ->
  m_name next_method = wf_exit_call ->
  exists w', next caller (Some next_method) w = (Ok tt, w') /\
             option_map st_nextcall (find_step (w_db w') u caller) = Some wf_exit_call.
Proof.
  intros Hst Hmd5 Hc Hms Hexit.
  rewrite (next_run _ _ _ _ _ next_method Hst Hmd5 Hc Hms).
  unfold next_call_name. rewrite Hexit, String.eqb_refl.
  eexists. split; [reflexivity|].
  unfold commit; cbn [w_db]. rewrite replay_app. cbn [replay fold_left apply_op].
  rewrite find_step_upd_same by (intros; now split).
  change (find_step (upd_wf u ?f ?d) u caller) with (find_step d u caller).
  rewrite find_step_upd_same by (intros; now split).
  fold (replay (flush_ops u caller
     (buffered caller (attach_calc_lazy_storage (w_self w)))
     (buffered caller (attach_subwf_lazy_storage (w_self w)))) (w_db w)).
  rewrite find_step_flush, Hms. reflexivity.
Qed.

(** The fingerprint test of [next] compares the sealed digest with the
    digest of the path; when they differ nothing is written. *)
Lemma next_integrity_violation w u row caller next_method :
  stored w u row ->
  wf_script_md5 row <> md5 (wf_script_path row) ->
  next caller next_method w = (Raise (IntegrityViolation (wf_script_path row)), w).
Proof.
  intros Hst Hmd5. unfold next.
  mstep (dbworkflowinstance_stored _ _ _ Hst).
  destruct (wf_script_md5 row =? md5 (wf_script_path row)) eqn:E; [|reflexivity].
  apply String.eqb_eq in E. contradiction.
Qed.

(** [store] seals the digest of the path of the script. *)
Lemma store_seals_path w :
  exists row w',
    store w = (Ok tt, w') /\ stored w' (wf_uuid row) row /\
    wf_script_path row = caller_file (w_self w) /\
    wf_script_md5 row = md5 (caller_file (w_self w)) /\
    w_files w' = w_files w.
Proof.
  exists (mkDbWorkflow (fresh_pk (w_db w)) (fresh_uuid (w_db w))
            (caller_module (w_self w)) (caller_module_class (w_self w))
            (caller_file (w_self w)) (md5 (caller_file (w_self w))) CREATED "").
  eexists. split; [unfold store, bind, get_self, get_db, write, set_self; cbn; reflexivity|]. cbn.
  split; [|repeat split; reflexivity].
  split; cbn; [reflexivity|].
  unfold find_workflow, fresh_uuid. cbn.
  rewrite find_append.
  destruct (find _ (db_workflows (w_db w))) as [r|] eqn:Hf.
  - exfalso. apply find_some in Hf. destruct Hf as [Hin Heq].
    apply Nat.eqb_eq in Heq.
    assert (Hle : wf_uuid r <= list_max (map wf_uuid (db_workflows (w_db w)))).
    { pose proof (list_max_le (map wf_uuid (db_workflows (w_db w)))
                    (list_max (map wf_uuid (db_workflows (w_db w))))) as [Hmax _].
      specialize (Hmax (Nat.le_refl _)). rewrite Forall_forall in Hmax.
      apply Hmax. now apply in_map. }
    lia.
  - cbn. now rewrite Nat.eqb_refl.
Qed.

(** After [store], and whatever the file holds afterwards, the
    fingerprint test of [next] passes. *)
Lemma next_after_store_never_IntegrityViolation w u row caller next_method path :
  stored w u row ->
  wf_script_md5 row = md5 (wf_script_path row) ->
  fst (next caller next_method w) <> Raise (IntegrityViolation path).
Proof.
  intros Hst Hmd5.
  destruct next_method as [m|].
  2:{ unfold next. mstep (dbworkflowinstance_stored _ _ _ Hst).
      rewrite Hmd5, String.eqb_refl. cbn. discriminate. }
  destruct (caller =? wf_exit_call) eqn:Hc.
  { unfold next. mstep (dbworkflowinstance_stored _ _ _ Hst).
    rewrite Hmd5, String.eqb_refl. cbn [negb].
    unfold has_step, get_step, bind at 2. unfold bind at 2. cbn [ret].
    rewrite Hc. cbn. discriminate. }
  destruct (find_step (w_db w) u caller) as [ms|] eqn:Hms.
  - rewrite (next_run _ _ _ _ _ m Hst Hmd5 Hc Hms).
    destruct (next_call_name m); cbn; discriminate.
  - unfold next. mstep (dbworkflowinstance_stored _ _ _ Hst).
    rewrite Hmd5, String.eqb_refl. cbn [negb].
    mstep (has_step_stored _ _ _ _ Hst Hc). rewrite Hms. cbn. discriminate.
Qed.

(** No call of [next] fails with [NotAStep]. *)
Lemma next_never_NotAStep w caller next_method :
  fst (next caller next_method w) <> Raise NotAStep.
Proof.
  unfold next.
  destruct (dbworkflowinstance w) as [[row|e] w0] eqn:Hdb.
  2:{ mfail Hdb. apply dbworkflowinstance_inv in Hdb.
      destruct Hdb as [_ [-> | ->]]; cbn; discriminate. }
  mstep Hdb. apply dbworkflowinstance_inv in Hdb. destruct Hdb as [-> [u Hst]].
  destruct (wf_script_md5 row =? md5 (wf_script_path row)) eqn:Hmd5;
    [|cbn; discriminate].
  apply String.eqb_eq in Hmd5. cbn [negb].
  destruct next_method as [m|]; [|cbn; discriminate].
  destruct (caller =? wf_exit_call) eqn:Hc.
  { unfold has_step, get_step, bind at 2. unfold bind at 2. cbn [ret].
    rewrite Hc. cbn. discriminate. }
  destruct (find_step (w_db w) u caller) as [ms|] eqn:Hms.
  - pose proof (next_run _ _ _ _ _ m Hst Hmd5 Hc Hms) as Hrun.
    unfold next in Hrun. mstep (dbworkflowinstance_stored _ _ _ Hst) in Hrun.
    rewrite Hmd5, String.eqb_refl in Hrun. cbn [negb] in Hrun. rewrite Hrun.
    destruct (next_call_name m); cbn; discriminate.
  - mstep (has_step_stored _ _ _ _ Hst Hc). rewrite Hms. cbn. discriminate.
Qed.

(** ** Kill *)

Lemma replay_kill_ops_steps L d :
  forallb kill_op L = true -> db_steps (replay L d) = db_steps d.
Proof.
  revert d. induction L as [|o L IH]; intros d H; [reflexivity|].
  cbn in H. apply andb_true_iff in H. destruct H as [Ho HL].
  cbn. fold (replay L (apply_op o d)). rewrite (IH _ HL).
  destruct o; try discriminate; reflexivity.
Qed.

Lemma find_workflow_upd_uuid u f d v :
  (forall r, wf_uuid (f r) = wf_uuid r) ->
  option_map wf_uuid (find_workflow (upd_wf u f d) v)
  = option_map wf_uuid (find_workflow d v).
Proof.
  intros Hf. destruct (Nat.eq_dec u v) as [->|Hne].
  - rewrite find_workflow_upd_same by exact Hf.
    destruct (find_workflow d v); cbn; [now rewrite Hf|reflexivity].
  - now rewrite find_workflow_upd_other.
Qed.

Lemma find_workflow_kill_ops L d v :
  forallb kill_op L = true ->
  option_map wf_uuid (find_workflow (replay L d) v)
  = option_map wf_uuid (find_workflow d v).
Proof.
  revert d. induction L as [|o L IH]; intros d H; [reflexivity|].
  cbn in H. apply andb_true_iff in H. destruct H as [Ho HL].
  cbn. fold (replay L (apply_op o d)). rewrite (IH _ HL).
  destruct o; try discriminate; cbn [apply_op].
  - now apply find_workflow_upd_uuid.
  - reflexivity.
Qed.

Lemma find_workflow_kill_ops_none L d v :
  forallb kill_op L = true ->
  find_workflow (replay L d) v <> None <-> find_workflow d v <> None.
Proof.
  intros H. pose proof (find_workflow_kill_ops L d v H) as E.
  destruct (find_workflow (replay L d) v), (find_workflow d v);
    cbn in E; split; intros; congruence.
Qed.

Lemma running_step_steps d d' u s :
  db_steps d = db_steps d' -> running_step d u s -> running_step d' u s.
Proof. unfold running_step. now intros ->. Qed.

Lemma reaches_running_steps d d' u v :
  db_steps d = db_steps d' -> reaches_running d u v -> reaches_running d' u v.
Proof.
  intros E H. induction H as [u|u s x v Hs Hx _ IH].
  - constructor.
  - eapply reaches_below; eauto using running_step_steps.
Qed.

Lemma kill_covers_transfer L0 d L x :
  forallb kill_op L0 = true -> kill_covers (replay L0 d) L x -> kill_covers d L x.
Proof.
  intros H0 [Hw Hc].
  pose proof (replay_kill_ops_steps L0 d H0) as E. split.
  - intros v Hv. destruct (Hw v) as [Hex Hin].
    + eapply reaches_running_steps; [symmetry; exact E|exact Hv].
    + split; [|exact Hin]. now apply (find_workflow_kill_ops_none L0 d v H0).
  - intros v s c Hv Hs Hin. apply (Hc v s c); auto.
    + eapply reaches_running_steps; [symmetry; exact E|exact Hv].
    + eapply running_step_steps; [symmetry; exact E|exact Hs].
Qed.

Lemma kill_covers_incl d L L' x :
  incl L L' -> kill_covers d L x -> kill_covers d L' x.
Proof.
  intros Hi [Hw Hc]. split.
  - intros v Hv. destruct (Hw v Hv). split; auto.
  - intros v s c Hv Hs Hin. apply Hi. eapply Hc; eauto.
Qed.

Lemma kill_step_calculations_run s w :
  kill_step_calculations s w
  = (Ok tt, commit (map (fun c => CalcSetState c CALC_FINISHED) (st_calculations s)) w).
Proof. unfold kill_step_calculations. apply for_each_write. Qed.

Lemma kill_ops_calc_states cs :
  forallb kill_op (map (fun c => CalcSetState c CALC_FINISHED) cs) = true.
Proof. induction cs; cbn; auto. Qed.

Lemma get_steps_running_run u w :
  get_steps u (Some RUNNING) w
  = match find_workflow (w_db w) u with
    | Some _ => (Ok (filter (fun s => wf_states_eqb (st_status s) RUNNING)
                            (steps_of (w_db w) u)), w)
    | None => (Raise ObjectDoesNotExist, w)
    end.
Proof.
  unfold get_steps, bind, fetch, get_db, ret.
  destruct (find_workflow (w_db w) u) as [row|] eqn:Hrow; [|reflexivity].
  now rewrite (find_workflow_uuid _ _ _ Hrow).
Qed.

Lemma In_running_steps d u s :
  In s (filter (fun s => wf_states_eqb (st_status s) RUNNING) (steps_of d u))
  <-> running_step d u s.
Proof.
  unfold steps_of, running_step. rewrite !filter_In, Nat.eqb_eq, wf_states_eqb_eq.
  tauto.
Qed.

Section KillLoops.

(** The loops of [kill], for any function [k] that behaves on the
    sub-workflows as [kill] is required to. *)
Variable k : uuid -> M unit.
Hypothesis k_sound : forall u w w',
  k u w = (Ok tt, w') ->
  exists L, w' = commit L w /\ forallb kill_op L = true /\ kill_covers (w_db w) L u.

Lemma for_each_kill_sound l : forall w w',
  for_each l k w = (Ok tt, w') ->
  exists L, w' = commit L w /\ forallb kill_op L = true /\
            forall x, In x l -> kill_covers (w_db w) L x.
Proof.
  induction l as [|x l IH]; intros w w' H.
  - inversion H; subst. exists []. rewrite commit_nil. repeat split; auto; intros ? [].
  - cbn [for_each] in H.
    destruct (k x w) as [[[]|e] w1] eqn:Hk.
    2:{ mfail Hk in H. discriminate. }
    mstep Hk in H.
    destruct (k_sound _ _ _ Hk) as (L1 & -> & HL1 & Hc1).
    destruct (IH _ _ H) as (L2 & -> & HL2 & Hc2).
    exists (L1 ++ L2). rewrite commit_app. split; [reflexivity|].
    split; [rewrite forallb_app; now rewrite HL1, HL2|].
    intros y [->|Hy].
    + eapply kill_covers_incl; [|exact Hc1]. now apply incl_appl.
    + eapply kill_covers_incl; [apply incl_appr, incl_refl|].
      eapply kill_covers_transfer; [exact HL1|]. now apply Hc2.
Qed.

Lemma for_each_steps_sound l : forall w w',
  for_each l (fun s => kill_step_calculations s ;;
                       for_each (st_sub_workflows s) k) w = (Ok tt, w') ->
  exists L, w' = commit L w /\ forallb kill_op L = true /\
            forall s, In s l ->
              (forall c, In c (st_calculations s) -> In (CalcSetState c CALC_FINISHED) L) /\
              (forall x, In x (st_sub_workflows s) -> kill_covers (w_db w) L x).
Proof.
  induction l as [|s l IH]; intros w w' H.
  - inversion H; subst. exists []. rewrite commit_nil. repeat split; auto;
      intros ? [].
  - cbn [for_each] in H.
    set (Ls := map (fun c => CalcSetState c CALC_FINISHED) (st_calculations s)) in *.
    destruct (for_each (st_sub_workflows s) k (commit Ls w)) as [[[]|e] w1] eqn:Hsub.
    2:{ erewrite bind_raise in H; [discriminate|].
        mstep (kill_step_calculations_run s w). exact Hsub. }
    erewrite bind_ok in H
      by (mstep (kill_step_calculations_run s w); exact Hsub).
    destruct (for_each_kill_sound _ _ _ Hsub) as (L1 & -> & HL1 & Hc1).
    destruct (IH _ _ H) as (L2 & -> & HL2 & Hc2).
    pose proof (kill_ops_calc_states (st_calculations s)) as HLs. fold Ls in HLs.
    exists (Ls ++ L1 ++ L2). rewrite !commit_app. split; [reflexivity|].
    split; [rewrite !forallb_app; now rewrite HLs, HL1, HL2|].
    intros s' [<-|Hs'].
    + split.
      * intros c Hc. apply in_or_app. left. unfold Ls.
        now apply (in_map (fun c => CalcSetState c CALC_FINISHED)).
      * intros x Hx. eapply kill_covers_incl; [|eapply kill_covers_transfer;
          [exact HLs|exact (Hc1 x Hx)]].
        apply incl_appr, incl_appl, incl_refl.
    + assert (HLs1 : forallb kill_op (Ls ++ L1) = true)
        by (rewrite forallb_app; now rewrite HLs, HL1).
      destruct (Hc2 s' Hs') as [Hcalc Hcov]. split.
      * intros c Hc. rewrite app_assoc. apply in_or_app. right. now apply Hcalc.
      * intros x Hx. rewrite app_assoc.
        eapply kill_covers_incl; [apply incl_appr, incl_refl|].
        eapply kill_covers_transfer; [exact HLs1|].
        unfold commit in Hcov. cbn [w_db] in Hcov.
        rewrite <- replay_app in Hcov. now apply Hcov.
Qed.

End KillLoops.

(** Whenever [kill] returns, its writes are [FINISHED] marks only, and
    they cover everything reached through running steps. *)
Lemma kill_rec_sound n : forall u w w',
  kill_rec n u w = (Ok tt, w') ->
  exists L, w' = commit L w /\ forallb kill_op L = true /\ kill_covers (w_db w) L u.
Proof.
  induction n as [|n IH]; intros u w w' H; [discriminate|].
  cbn [kill_rec] in H.
  pose proof (get_steps_running_run u w) as Hget.
  destruct (find_workflow (w_db w) u) as [row|] eqn:Hrow.
  2:{ mfail Hget in H. discriminate. }
  mstep Hget in H. clear Hget.
  set (l := filter _ _) in H.
  destruct (for_each l (fun s => kill_step_calculations s ;;
                                for_each (st_sub_workflows s) (kill_rec n)) w)
    as [[[]|e] w1] eqn:Hloop.
  2:{ mfail Hloop in H. discriminate. }
  mstep Hloop in H.
  destruct (for_each_steps_sound _ IH _ _ _ Hloop) as (L1 & -> & HL1 & Hc1).
  assert (Hrow1 : exists row1, find_workflow (w_db (commit L1 w)) u = Some row1).
  { pose proof (find_workflow_kill_ops_none L1 (w_db w) u HL1) as [_ Hb].
    unfold commit; cbn [w_db].
    destruct (find_workflow (replay L1 (w_db w)) u); [eauto|].
    exfalso. apply Hb; [congruence|reflexivity]. }
  destruct Hrow1 as [row1 Hrow1].
  unfold fetch in H at 1. unfold bind in H at 1. rewrite Hrow1 in H.
  rewrite (find_workflow_uuid _ _ _ Hrow1), write_commit, commit_app in H.
  inversion H; subst w'. clear H.
  exists (L1 ++ [SetWfStatus u FINISHED]). split; [reflexivity|].
  split; [rewrite forallb_app; now rewrite HL1|].
  split.
  - intros v Hv. destruct Hv as [u|u s x v Hs Hx Hv].
    + split; [congruence|]. apply in_or_app. right. now left.
    + destruct (Hc1 s (proj2 (In_running_steps _ _ _) Hs)) as [_ Hcov].
      destruct (Hcov x Hx) as [Hw _]. destruct (Hw v Hv) as [Hex Hin].
      split; [exact Hex|]. apply in_or_app. now left.
  - intros v s c Hv Hs Hc. apply in_or_app. left.
    destruct Hv as [u|u s0 x v Hs0 Hx Hv].
    + destruct (Hc1 s (proj2 (In_running_steps _ _ _) Hs)) as [Hcalc _]. now apply Hcalc.
    + destruct (Hc1 s0 (proj2 (In_running_steps _ _ _) Hs0)) as [_ Hcov].
      destruct (Hcov x Hx) as [_ Hcc]. eapply Hcc; eauto.
Qed.

Lemma killable_replay L d n u :
  forallb kill_op L = true -> killable d n u -> killable (replay L d) n u.
Proof.
  intros HL H. induction H as [n u row Hrow _ IH].
  destruct (find_workflow (replay L d) u) as [row'|] eqn:Hrow'.
  - apply (killable_intro _ n u row' Hrow'). intros s x Hs Hx.
    apply (IH s x); [|exact Hx].
    eapply running_step_steps; [|exact Hs]. now apply replay_kill_ops_steps.
  - exfalso. apply (proj2 (find_workflow_kill_ops_none L d u HL)); congruence.
Qed.

Lemma killable_le d n u m : killable d n u -> n <= m -> killable d m u.
Proof.
  intros H. revert m. induction H as [n u row Hrow _ IH]. intros m Hm.
  destruct m as [|m]; [lia|].
  apply (killable_intro _ m u row Hrow). intros s x Hs Hx.
  apply (IH s x Hs Hx). lia.
Qed.

Lemma for_each_returns {A} (P : World -> A -> Prop) (f : A -> M unit) :
  (forall x w, P w x -> exists w', f x w = (Ok tt, w') /\ forall y, P w y -> P w' y) ->
  forall l w, (forall x, In x l -> P w x) ->
  exists w', for_each l f w = (Ok tt, w') /\ forall y, P w y -> P w' y.
Proof.
  intros Hf. induction l as [|x l IH]; intros w Hl.
  - exists w. split; [reflexivity|auto].
  - destruct (Hf x w (Hl x (or_introl eq_refl))) as (w1 & Hx & Hkeep).
    destruct (IH w1) as (w' & Hrest & Hkeep').
    { intros y Hy. apply Hkeep, Hl. now right. }
    exists w'. split; [|auto]. cbn [for_each]. now mstep Hx.
Qed.

(** [kill] returns when the tree it walks is not deeper than its
    recursion allows. *)
Lemma kill_rec_returns n : forall u w,
  killable (w_db w) n u ->
  exists w', kill_rec n u w = (Ok tt, w') /\
             forall m y, killable (w_db w) m y -> killable (w_db w') m y.
Proof.
  induction n as [|n IH]; intros u w Hk; [inversion Hk|].
  inversion Hk as [n0 u0 row Hrow Hsub]; subst n0 u0.
  assert (Hkeep : forall w0 w1, kill_rec (S n) u w0 = (Ok tt, w1) ->
            forall m y, killable (w_db w0) m y -> killable (w_db w1) m y).
  { intros w0 w1 H m y Hy.
    destruct (kill_rec_sound _ _ _ _ H) as (L & -> & HL & _).
    now apply killable_replay. }
  cut (exists w', kill_rec (S n) u w = (Ok tt, w')).
  { intros [w' H]. exists w'. split; [exact H|]. now apply (Hkeep w). }
  cbn [kill_rec]. pose proof (get_steps_running_run u w) as Hget.
  rewrite Hrow in Hget. mstep Hget. clear Hget.
  destruct (for_each_returns
    (fun w0 (s : DbWorkflowStep) =>
       forall x, In x (st_sub_workflows s) -> killable (w_db w0) n x)
    (fun s => kill_step_calculations s ;;
              for_each (st_sub_workflows s) (kill_rec n))) with
    (l := filter (fun s => wf_states_eqb (st_status s) RUNNING) (steps_of (w_db w) u))
    (w := w) as (w1 & Hloop & Hkeep1).
  - intros s w0 Hs.
    pose proof (kill_ops_calc_states (st_calculations s)) as HLs.
    destruct (for_each_returns (fun w1 x => killable (w_db w1) n x) (kill_rec n))
      with (l := st_sub_workflows s)
           (w := commit (map (fun c => CalcSetState c CALC_FINISHED)
                           (st_calculations s)) w0)
      as (w2 & Hsubs & _).
    + intros x w1 Hx. destruct (IH x w1 Hx) as (w2 & Hrun & Hk2).
      exists w2. split; [exact Hrun|]. intros y. apply Hk2.
    + intros x Hx. unfold commit; cbn [w_db]. apply killable_replay; auto.
    + exists w2. split.
      * mstep (kill_step_calculations_run s w0). exact Hsubs.
      * intros s' Hs' x Hx.
        destruct (for_each_kill_sound _ (kill_rec_sound n) _ _ _ Hsubs)
          as (L & -> & HL & _).
        rewrite commit_app. unfold commit; cbn [w_db]. apply killable_replay.
        -- rewrite forallb_app. now rewrite HLs, HL.
        -- now apply Hs'.
  - intros s Hs x Hx. apply (Hsub s x); [|exact Hx]. now apply In_running_steps.
  - mstep Hloop.
    destruct (for_each_steps_sound _ (kill_rec_sound n) _ _ _ Hloop)
      as (L & -> & HL & _).
    unfold fetch, bind at 1.
    destruct (find_workflow (w_db (commit L w)) u) as [row1|] eqn:Hrow1.
    + eexists. reflexivity.
    + exfalso. unfold commit in Hrow1; cbn [w_db] in Hrow1.
      apply (proj2 (find_workflow_kill_ops_none L (w_db w) u HL)); congruence.
Qed.

(** *** What the writes of [kill] leave in the tables *)

Lemma wf_status_of_set x st d v :
  wf_status_of (apply_op (SetWfStatus x st) d) v
  = if Nat.eqb x v then option_map (fun _ => st) (wf_status_of d v)
    else wf_status_of d v.
Proof.
  unfold wf_status_of. cbn [apply_op].
  destruct (Nat.eqb_spec x v) as [->|Hne].
  - rewrite find_workflow_upd_same by reflexivity.
    now destruct (find_workflow d v).
  - now rewrite find_workflow_upd_other.
Qed.

Lemma calc_state_of_set x st d c :
  calc_state_of (apply_op (CalcSetState x st) d) c
  = if Nat.eqb x c then option_map (fun _ => st) (calc_state_of d c)
    else calc_state_of d c.
Proof.
  unfold calc_state_of. cbn [apply_op upd_calc db_calcs].
  destruct (x =? c)%nat eqn:E3;
    induction (db_calcs d) as [|[c0 s0] l IH]; cbn [map find fst snd];
    try reflexivity;
    destruct (c0 =? x)%nat eqn:E1; cbn [fst snd];
    destruct (c0 =? c)%nat eqn:E2; cbn [option_map snd];
    try reflexivity; try exact IH;
    apply Nat.eqb_eq in E3 || apply Nat.eqb_neq in E3;
    apply Nat.eqb_eq in E1 || apply Nat.eqb_neq in E1;
    apply Nat.eqb_eq in E2 || apply Nat.eqb_neq in E2; congruence.
Qed.

Lemma kill_ops_finish_workflow L : forall d v,
  forallb kill_op L = true ->
  wf_status_of d v = Some FINISHED \/
    (In (SetWfStatus v FINISHED) L /\ find_workflow d v <> None) ->
  wf_status_of (replay L d) v = Some FINISHED.
Proof.
  induction L as [|o L IH]; intros d v HL H.
  - destruct H as [H|[[] _]]. exact H.
  - cbn in HL. apply andb_true_iff in HL. destruct HL as [Ho HL].
    cbn [replay fold_left]. fold (replay L (apply_op o d)).
    apply IH; [exact HL|].
    destruct o; try discriminate.
    + destruct s; try discriminate. rewrite wf_status_of_set.
      destruct (Nat.eqb_spec u v) as [->|Hne].
      * left. unfold wf_status_of in *.
        destruct H as [H|[_ H]]; destruct (find_workflow d v); cbn in *; congruence.
      * destruct H as [H|[[H|H] Hex]]; [now left|congruence|].
        right. split; [exact H|]. cbn [apply_op].
        now rewrite find_workflow_upd_other.
    + destruct H as [H|[[H|H] Hex]]; [now left|discriminate|].
      right. split; [exact H|exact Hex].
Qed.

Lemma kill_ops_finish_calc L : forall d c,
  forallb kill_op L = true ->
  calc_state_of d c = option_map (fun _ => CALC_FINISHED) (calc_state_of d c) \/
    In (CalcSetState c CALC_FINISHED) L ->
  calc_state_of (replay L d) c
  = option_map (fun _ => CALC_FINISHED) (calc_state_of d c).
Proof.
  induction L as [|o L IH]; intros d c HL H.
  - destruct H as [H|[]]. exact H.
  - cbn in HL. apply andb_true_iff in HL. destruct HL as [Ho HL].
    cbn [replay fold_left]. fold (replay L (apply_op o d)).
    destruct o; try discriminate.
    + rewrite IH; [reflexivity|exact HL|].
      destruct H as [H|[H|H]]; [now left|discriminate|now right].
    + destruct s; try discriminate.
      rewrite IH; [|exact HL|].
      * rewrite calc_state_of_set. destruct (c0 =? c)%nat; [|reflexivity].
        now destruct (calc_state_of d c).
      * rewrite calc_state_of_set.
        destruct (Nat.eqb_spec c0 c) as [->|Hne].
        -- left. now destruct (calc_state_of d c).
        -- destruct H as [H|[H|H]]; [now left|congruence|now right].
Qed.

(** C7, as the code has it: when the part of the tree that [kill] walks
    from [u] fits the recursion limit, [kill] returns; afterwards [u] and
    every sub-workflow reached from it through steps that are RUNNING
    have status FINISHED, and every calculation attached to a RUNNING
    step of one of them is in the terminal state FINISHED. *)
Theorem kill_finishes_running_tree w u n :
  killable (w_db w) n u -> n <= recursion_limit ->
  exists w',
    kill u w = (Ok tt, w') /\
    (forall v, reaches_running (w_db w) u v ->
       wf_status_of (w_db w') v = Some FINISHED) /\
    (forall v s c, reaches_running (w_db w) u v -> running_step (w_db w) v s ->
       In c (st_calculations s) ->
       calc_state_of (w_db w') c
         = option_map (fun _ => CALC_FINISHED) (calc_state_of (w_db w) c) /\
       forall st, calc_state_of (w_db w') c = Some st -> calc_is_terminal st = true).
Proof.
  intros Hk Hn.
  destruct (kill_rec_returns recursion_limit u w (killable_le _ _ _ _ Hk Hn))
    as (w' & Hrun & _).
  exists w'. split; [exact Hrun|].
  destruct (kill_rec_sound _ _ _ _ Hrun) as (L & -> & HL & Hw & Hc).
  unfold commit; cbn [w_db]. split.
  - intros v Hv. destruct (Hw v Hv) as [Hex Hin].
    apply kill_ops_finish_workflow; auto.
  - intros v s c Hv Hs Hin.
    assert (E : calc_state_of (replay L (w_db w)) c
                = option_map (fun _ => CALC_FINISHED) (calc_state_of (w_db w) c)).
    { apply kill_ops_finish_calc; [exact HL|]. right. eapply Hc; eauto. }
    split; [exact E|]. intros st Hst. rewrite E in Hst.
    destruct (calc_state_of (w_db w) c); inversion Hst. reflexivity.
Qed.

(** ** Report *)

Lemma report_root_is_root d n u r :
  report_root d n u r ->
  parent_workflow_step d r = [] /\ exists row, find_workflow d r = Some row.
Proof. induction 1; eauto. Qed.

Lemma report_root_distinct d n u r :
  report_root d (S n) u r -> u <> r.
Proof.
  intros H. inversion H as [|n0 u0 row s r0 Hrow Hp Hup]; subst.
  apply report_root_is_root in Hup. destruct Hup as [Hr _].
  intros ->. rewrite Hp in Hr. discriminate.
Qed.

Lemma append_to_report_rec_run text w n u r :
  report_root (w_db w) n u r ->
  forall depth, n < depth ->
  append_to_report_rec depth u text w = (Ok tt, commit [AppendReport r text] w).
Proof.
  induction 1 as [u row Hrow Hp|n u row s r Hrow Hp Hup IH]; intros depth Hd;
    (destruct depth as [|depth]; [lia|]); cbn [append_to_report_rec];
    unfold fetch at 1, bind at 1; rewrite Hrow;
    unfold get_db, bind at 1; rewrite (find_workflow_uuid _ _ _ Hrow), Hp.
  - reflexivity.
  - destruct (report_root_is_root _ _ _ _ Hup) as [_ _].
    assert (Hparent : exists p, find_workflow (w_db w) (st_parent s) = Some p).
    { inversion Hup; eauto. }
    destruct Hparent as [p Hparent].
    unfold fetch, bind. rewrite Hparent, (find_workflow_uuid _ _ _ Hparent).
    apply IH. lia.
Qed.

(** C8: in a tree of workflows, [append_to_report] on a workflow [n]
    parent steps below the root [r] returns after one write, which
    appends the text and a line break to the report of [r]; the report of
    every other workflow, that of the caller included when it is not the
    root, is what it was. *)
Theorem append_to_report_goes_to_root text w n u r :
  report_root (w_db w) n u r -> n < recursion_limit ->
  exists w',
    append_to_report_of u text w = (Ok tt, w') /\
    w_log w' = w_log w ++ [AppendReport r text] /\
    (exists report, wf_report_of (w_db w) r = Some report /\
       wf_report_of (w_db w') r = Some (report ++ text ++ newline)%string) /\
    (forall v, v <> r -> find_workflow (w_db w') v = find_workflow (w_db w) v) /\
    (0 < n -> u <> r /\ wf_report_of (w_db w') u = wf_report_of (w_db w) u).
Proof.
  intros Hroot Hn.
  exists (commit [AppendReport r text] w).
  split; [now apply (append_to_report_rec_run text w n u r)|].
  split; [reflexivity|].
  assert (Hother : forall v, v <> r ->
            find_workflow (w_db (commit [AppendReport r text] w)) v
            = find_workflow (w_db w) v).
  { intros v Hv. unfold commit; cbn [w_db replay fold_left apply_op].
    apply find_workflow_upd_other; [reflexivity|congruence]. }
  split; [|split; [exact Hother|]].
  - destruct (report_root_is_root _ _ _ _ Hroot) as [_ [row Hrow]].
    exists (wf_report row). unfold wf_report_of. rewrite Hrow. split; [reflexivity|].
    unfold commit; cbn [w_db replay fold_left apply_op].
    rewrite find_workflow_upd_same by reflexivity. now rewrite Hrow.
  - intros Hpos. destruct n as [|n]; [lia|].
    pose proof (report_root_distinct _ _ _ _ Hroot) as Hne.
    split; [exact Hne|]. unfold wf_report_of. now rewrite Hother.
Qed.

(** ** The step decorator *)

Lemma get_step_some_inv w name s w' :
  get_step (inl name) w = (Ok (Some s), w') ->
  w' = w /\ String.eqb name wf_exit_call = false /\
  exists u row, stored w u row /\ find_step (w_db w) u name = Some s.
Proof.
  unfold get_step, bind, ret, raise, get_self, get_db.
  destruct (name =? wf_exit_call) eqn:Hname; [discriminate|].
  destruct (_dbworkflowinstance (w_self w)) as [u|] eqn:Hu; [|discriminate].
  destruct (find_workflow (w_db w) u) as [row|] eqn:Hrow; [|discriminate].
  rewrite (find_workflow_uuid _ _ _ Hrow).
  intros H; inversion H; subst. repeat split; auto.
  exists u, row. repeat split; auto.
Qed.

Lemma get_step_attr_stored w u row name attr s :
  stored w u row -> String.eqb name wf_exit_call = false ->
  find_step (w_db w) u name = Some s ->
  get_step_attr name attr w = (Ok s, w).
Proof.
  intros Hst Hname Hs. unfold get_step_attr.
  mstep (get_step_stored _ _ _ _ Hst Hname). now rewrite Hs.
Qed.

Lemma steps_get_or_create_stored w u row name :
  stored w u row ->
  steps_get_or_create name w
  = match find_step (w_db w) u name with
    | Some s => (Ok s, w)
    | None =>
        let s := mkDbWorkflowStep u name INITIALIZED wf_default_call [] [] in
        (Ok s, commit [CreateStep s] w)
    end.
Proof.
  intros Hst. unfold steps_get_or_create.
  mstep (dbworkflowinstance_stored _ _ _ Hst).
  destruct Hst as [_ Hrow]. rewrite (find_workflow_uuid _ _ _ Hrow).
  unfold get_db, bind at 1.
  destruct (find_step (w_db w) u name); reflexivity.
Qed.


(** The prologue on a committed workflow, test by test. *)
Lemma step_prologue_stored w u row m nargs :
  _to_be_stored (w_self w) = false -> stored w u row ->
  String.eqb m wf_exit_call = false ->
  step_prologue m nargs w =
  if Nat.ltb 0 nargs then (Raise InvalidStepCall, w)
  else match find_step (w_db w) u m with
       | None => steps_get_or_create m w
       | Some s =>
           if negb (reenterable m s) then (Raise (StepAlreadyInitialized m), w)
           else if restartable s then (clean_step m ;; steps_get_or_create m) w
           else steps_get_or_create m w
       end.
Proof.
  intros Hcommitted Hst Hm. unfold step_prologue.
  mstep (eq_refl : get_self w = (Ok (w_self w), w)).
  rewrite Hcommitted.
  mstep (eq_refl : ret tt w = (Ok tt, w)).
  destruct (Nat.ltb 0 nargs); [reflexivity|].
  mstep (eq_refl : ret tt w = (Ok tt, w)).
  mstep (has_step_stored _ _ _ _ Hst Hm).
  destruct (find_step (w_db w) u m) as [s|] eqn:Hs.
  - erewrite bind_ok with (a := negb (reenterable m s)) (w' := w)
      by (now mstep (get_step_attr_stored _ _ _ _ "status" _ Hst Hm Hs)).
    destruct (negb (reenterable m s)); [reflexivity|].
    mstep (eq_refl : ret tt w = (Ok tt, w)).
    mstep (has_step_stored _ _ _ _ Hst Hm). rewrite Hs.
    erewrite bind_ok with (a := restartable s) (w' := w)
      by (now mstep (get_step_attr_stored _ _ _ _ "status" _ Hst Hm Hs)).
    destruct (restartable s); [reflexivity|].
    now mstep (eq_refl : ret tt w = (Ok tt, w)).
  - mstep (eq_refl : ret false w = (Ok false, w)).
    mstep (eq_refl : ret tt w = (Ok tt, w)).
    mstep (has_step_stored _ _ _ _ Hst Hm). rewrite Hs.
    mstep (eq_refl : ret false w = (Ok false, w)).
    now mstep (eq_refl : ret tt w = (Ok tt, w)).
Qed.

Lemma reenterable_false m s :
  st_status s <> ERROR -> st_status s <> SLEEP ->
  st_nextcall s <> wf_default_call -> st_nextcall s <> m ->
  reenterable m s = false.
Proof.
  intros H1 H2 H3 H4. unfold reenterable, restartable.
  apply String.eqb_neq in H3, H4. rewrite H3, H4.
  destruct (st_status s); try reflexivity; congruence.
Qed.

(** C3: the re-entry guard.  An invocation that comes to the guard (the
    workflow is committed, and the wrapper refuses positional arguments
    before) on a workflow that has a step record for [m] whose status is
    neither ERROR nor SLEEP and whose [nextcall] is neither the default
    sentinel nor [m] fails with [StepAlreadyInitialized]; nothing is
    written and the function is not called, whatever it is. *)
Theorem step_reentry_guard w m s fun_ :
  _to_be_stored (w_self w) = false ->
  get_step (inl m) w = (Ok (Some s), w) ->
  st_status s <> ERROR -> st_status s <> SLEEP ->
  st_nextcall s <> wf_default_call -> st_nextcall s <> m ->
  step m fun_ 0 w = (Raise (StepAlreadyInitialized m), w).
Proof.
  intros Hcommitted Hget H1 H2 H3 H4.
  destruct (get_step_some_inv _ _ _ _ Hget) as (_ & Hm & u & row & Hst & Hs).
  unfold step.
  erewrite bind_raise; [reflexivity|].
  rewrite (step_prologue_stored _ _ _ _ _ Hcommitted Hst Hm). cbn [Nat.ltb Nat.leb].
  now rewrite Hs, (reenterable_false _ _ H1 H2 H3 H4).
Qed.

(** With positional arguments the wrapper fails before it looks at the
    step record. *)
Lemma step_rejects_arguments w u row m fun_ nargs :
  _to_be_stored (w_self w) = false -> stored w u row ->
  String.eqb m wf_exit_call = false -> 0 < nargs ->
  step m fun_ nargs w = (Raise InvalidStepCall, w).
Proof.
  intros Hcommitted Hst Hm Hn. unfold step.
  erewrite bind_raise; [reflexivity|].
  rewrite (step_prologue_stored _ _ _ _ _ Hcommitted Hst Hm).
  apply Nat.ltb_lt in Hn. now rewrite Hn.
Qed.

(** *** Cleaning a step before it is launched again *)

Lemma find_workflow_apply_op_some o d v r :
  find_workflow d v = Some r -> exists r', find_workflow (apply_op o d) v = Some r'.
Proof.
  intros H.
  assert (Hupd : forall x f, (forall r0, wf_uuid (f r0) = wf_uuid r0) ->
            exists r', find_workflow (upd_wf x f d) v = Some r').
  { intros x f Hf. pose proof (find_workflow_upd_uuid x f d v Hf) as E.
    rewrite H in E. destruct (find_workflow (upd_wf x f d) v); [eauto|discriminate]. }
  destruct o; cbn [apply_op]; try (exists r; exact H); try (now apply Hupd).
  exists r. unfold find_workflow in *. cbn [db_workflows].
  now rewrite find_append, H.
Qed.

Lemma stored_commit L : forall w u row,
  stored w u row -> exists row', stored (commit L w) u row'.
Proof.
  induction L as [|o L IH]; intros w u row Hst.
  - rewrite commit_nil. eauto.
  - change (o :: L) with ([o] ++ L). rewrite <- commit_app.
    destruct Hst as [Hu Hrow].
    destruct (find_workflow_apply_op_some o _ _ _ Hrow) as [r' Hr'].
    apply (IH _ u r'). split; [exact Hu|exact Hr'].
Qed.

Lemma replay_calc_ops L d :
  forallb calc_op L = true ->
  db_steps (replay L d) = db_steps d /\ db_workflows (replay L d) = db_workflows d.
Proof.
  revert d. induction L as [|o L IH]; intros d H; [now split|].
  cbn in H. apply andb_true_iff in H. destruct H as [Ho HL].
  cbn [replay fold_left]. fold (replay L (apply_op o d)).
  destruct (IH (apply_op o d) HL) as [-> ->].
  destruct o; try discriminate; now split.
Qed.

Lemma replay_keeps_workflows L d :
  forallb (fun o => step_op o || calc_op o) L = true ->
  db_workflows (replay L d) = db_workflows d.
Proof.
  revert d. induction L as [|o L IH]; intros d H; [reflexivity|].
  cbn in H. apply andb_true_iff in H. destruct H as [Ho HL].
  cbn [replay fold_left]. fold (replay L (apply_op o d)). rewrite (IH _ HL).
  destruct o; try discriminate; reflexivity.
Qed.

Lemma calc_ops_kills cs : forallb calc_op (map CalcKill cs) = true.
Proof. induction cs; cbn; auto. Qed.

Lemma find_step_steps d d' u name :
  db_steps d = db_steps d' -> find_step d u name = find_step d' u name.
Proof. unfold find_step. now intros ->. Qed.

Lemma kill_for_each_sound l w w' :
  for_each l kill w = (Ok tt, w') ->
  exists L, w' = commit L w /\ forallb kill_op L = true /\
            forall x, In x l -> kill_covers (w_db w) L x.
Proof. apply for_each_kill_sound. intros u0 w0 w1. apply kill_rec_sound. Qed.

(** [clean_step], once the kills of the sub-workflows have returned. *)
Lemma clean_step_after_kills w u row m s L :
  stored w u row -> String.eqb m wf_exit_call = false ->
  find_step (w_db w) u m = Some s ->
  for_each (st_sub_workflows s) kill w = (Ok tt, commit L w) ->
  forallb kill_op L = true ->
  clean_step m w = (Ok tt, commit (clean_ops u m s L) w) /\
  find_step (w_db (commit (clean_ops u m s L) w)) u m = Some (cleaned s).
Proof.
  intros Hst Hm Hs Hkills HL.
  destruct (find_step_key _ _ _ _ Hs) as [Hp Hn].
  set (w1 := commit L w).
  destruct (stored_commit L _ _ _ Hst) as [row1 Hst1]. fold w1 in Hst1.
  assert (Hs1 : find_step (w_db w1) u m = Some s).
  { rewrite <- Hs. apply find_step_steps. now apply replay_kill_ops_steps. }
  set (w2 := commit [RemoveSubWorkflows u m] w1).
  destruct (stored_commit [RemoveSubWorkflows u m] _ _ _ Hst1) as [row2 Hst2].
  fold w2 in Hst2.
  set (s2 := mkDbWorkflowStep (st_parent s) (st_name s) (st_status s)
               (st_nextcall s) (st_calculations s) []).
  assert (Hs2 : find_step (w_db w2) u m = Some s2).
  { unfold w2, commit; cbn [w_db replay fold_left apply_op].
    rewrite find_step_upd_same by (intros; now split). now rewrite Hs1. }
  set (w3 := commit (map CalcKill (st_calculations s)) w2).
  destruct (stored_commit (map CalcKill (st_calculations s)) _ _ _ Hst2) as [row3 Hst3].
  fold w3 in Hst3.
  assert (Hs3 : find_step (w_db w3) u m = Some s2).
  { rewrite <- Hs2. apply find_step_steps.
    apply (replay_calc_ops _ _ (calc_ops_kills _)). }
  assert (Hw : commit [RemoveCalculations u m] w3 = commit (clean_ops u m s L) w).
  { unfold w3, w2, w1, clean_ops. now rewrite !commit_app. }
  split.
  - unfold clean_step.
    mstep (get_step_attr_stored _ _ _ _ "get_sub_workflows" _ Hst Hm Hs).
    mstep Hkills. fold w1.
    mstep (get_step_attr_stored _ _ _ _ "remove_sub_workflows" _ Hst1 Hm Hs1).
    rewrite Hp, Hn.
    mstep (write_commit (RemoveSubWorkflows u m) w1). fold w2.
    mstep (get_step_attr_stored _ _ _ _ "get_calculations" _ Hst2 Hm Hs2).
    cbn [st_calculations s2].
    mstep (for_each_write CalcKill (st_calculations s) w2). fold w3.
    mstep (get_step_attr_stored _ _ _ _ "remove_calculations" _ Hst3 Hm Hs3).
    cbn [st_parent st_name s2]. rewrite Hp, Hn, write_commit. now rewrite Hw.
  - rewrite <- Hw. unfold commit at 1; cbn [w_db replay fold_left apply_op].
    rewrite find_step_upd_same by (intros; now split). now rewrite Hs3.
Qed.

Lemma restartable_iff s :
  restartable s = true <-> st_status s = ERROR \/ st_status s = SLEEP.
Proof.
  unfold restartable. rewrite orb_true_iff, !wf_states_eqb_eq. tauto.
Qed.

Lemma wf_status_of_workflows d d' v :
  db_workflows d = db_workflows d' -> wf_status_of d v = wf_status_of d' v.
Proof. unfold wf_status_of, find_workflow. now intros ->. Qed.

(** C4: on a committed workflow whose step record for [m] is in ERROR
    or SLEEP, whenever the wrapper gets as far as calling the function
    it has written, in this order, the kills of the sub-workflows of the
    step, the removal of its sub-workflows, the kill of each of its
    calculations and the removal of its calculations; every sub-workflow
    that was attached, and everything [kill] walks from it, is FINISHED,
    and both lists of the step are empty.  The wrapper does get that far
    when it is called without arguments and the trees under the
    sub-workflows fit the recursion limit. *)
Theorem step_restart_clears_attachments w u row m s nargs :
  _to_be_stored (w_self w) = false -> stored w u row ->
  find_step (w_db w) u m = Some s ->
  st_status s = ERROR \/ st_status s = SLEEP ->
  (forall ms w1,
     step_prologue m nargs w = (Ok ms, w1) ->
     exists L,
       forallb kill_op L = true /\
       (forall x, In x (st_sub_workflows s) -> kill_covers (w_db w) L x) /\
       w_log w1 = w_log w ++ L ++ [RemoveSubWorkflows u m]
                    ++ map CalcKill (st_calculations s)
                    ++ [RemoveCalculations u m] /\
       w_db w1 = replay (clean_ops u m s L) (w_db w) /\
       (forall x v, In x (st_sub_workflows s) -> reaches_running (w_db w) x v ->
          wf_status_of (w_db w1) v = Some FINISHED) /\
       find_step (w_db w1) u m = Some ms /\
       st_sub_workflows ms = [] /\ st_calculations ms = []) /\
  (nargs = 0 -> String.eqb m wf_exit_call = false ->
   forall n, (forall x, In x (st_sub_workflows s) -> killable (w_db w) n x) ->
   n <= recursion_limit ->
   exists ms w1, step_prologue m nargs w = (Ok ms, w1)).
Proof.
  intros Hcommitted Hst Hs Hstatus.
  apply restartable_iff in Hstatus.
  assert (Hre : reenterable m s = true) by (unfold reenterable; now rewrite Hstatus).
  assert (Hrun : String.eqb m wf_exit_call = false -> Nat.ltb 0 nargs = false ->
            forall L, for_each (st_sub_workflows s) kill w = (Ok tt, commit L w) ->
            forallb kill_op L = true ->
            step_prologue m nargs w = (Ok (cleaned s), commit (clean_ops u m s L) w)).
  { intros Hm Hn L Hkills HL.
    rewrite (step_prologue_stored _ _ _ _ _ Hcommitted Hst Hm), Hn, Hs, Hre, Hstatus.
    cbn [negb].
    destruct (clean_step_after_kills _ _ _ _ _ _ Hst Hm Hs Hkills HL) as [Hclean Hfind].
    mstep Hclean.
    destruct (stored_commit (clean_ops u m s L) _ _ _ Hst) as [row' Hst'].
    now rewrite (steps_get_or_create_stored _ _ _ _ Hst'), Hfind. }
  split.
  - intros ms w1 H.
    destruct (m =? wf_exit_call) eqn:Hm.
    { exfalso. unfold step_prologue in H.
      mstep (eq_refl : get_self w = (Ok (w_self w), w)) in H.
      rewrite Hcommitted in H. mstep (eq_refl : ret tt w = (Ok tt, w)) in H.
      destruct (Nat.ltb 0 nargs); [discriminate|].
      mstep (eq_refl : ret tt w = (Ok tt, w)) in H.
      erewrite bind_raise in H; [discriminate|].
      unfold has_step, get_step. erewrite bind_raise; [reflexivity|].
      mstep (eq_refl : ret m w = (Ok m, w)). now rewrite Hm. }
    destruct (Nat.ltb 0 nargs) eqn:Hn.
    { rewrite (step_prologue_stored _ _ _ _ _ Hcommitted Hst Hm), Hn in H.
      discriminate. }
    destruct (for_each (st_sub_workflows s) kill w) as [[[]|e] wk] eqn:Hkills.
    2:{ exfalso.
        rewrite (step_prologue_stored _ _ _ _ _ Hcommitted Hst Hm), Hn, Hs, Hre,
          Hstatus in H. cbn [negb] in H.
        erewrite bind_raise in H; [discriminate|].
        unfold clean_step.
        mstep (get_step_attr_stored _ _ _ _ "get_sub_workflows" _ Hst Hm Hs).
        now mfail Hkills. }
    destruct (kill_for_each_sound _ _ _ Hkills) as (L & -> & HL & Hcov).
    rewrite (Hrun eq_refl eq_refl L eq_refl HL) in H. inversion H; subst ms w1. clear H.
    exists L. split; [exact HL|]. split; [exact Hcov|].
    split; [reflexivity|]. split; [reflexivity|].
    destruct (clean_step_after_kills _ _ _ _ _ _ Hst Hm Hs Hkills HL) as [_ Hfind].
    split; [|split; [exact Hfind|now split]].
    intros x v Hx Hv. unfold commit, clean_ops; cbn [w_db]. rewrite replay_app.
    etransitivity.
    { apply wf_status_of_workflows. apply replay_keeps_workflows.
      cbn [forallb app]. rewrite forallb_app. cbn.
      rewrite andb_true_r. clear. induction (st_calculations s); cbn; auto. }
    destruct (Hcov x Hx) as [Hw _].
    destruct (Hw v Hv) as [Hex Hin].
    apply kill_ops_finish_workflow; auto.
  - intros Hn Hm n Hkillable Hlimit.
    destruct (for_each_returns (fun w0 x => killable (w_db w0) recursion_limit x) kill)
      with (l := st_sub_workflows s) (w := w) as (wk & Hkills & _).
    + intros x w0 Hx. destruct (kill_rec_returns recursion_limit x w0 Hx)
        as (w2 & Hrun2 & Hkeep).
      exists w2. split; [exact Hrun2|]. intros y. apply Hkeep.
    + intros x Hx. eapply killable_le; eauto.
    + destruct (kill_for_each_sound _ _ _ Hkills) as (L & -> & HL & _).
      exists (cleaned s), (commit (clean_ops u m s L) w).
      apply Hrun; auto. now subst nargs.
Qed.

(** *** The function raises *)





Lemma append_to_report_run text w n u r :
  _dbworkflowinstance (w_self w) = Some u ->
  report_root (w_db w) n u r -> n < recursion_limit ->
  append_to_report text w = (Ok tt, commit [AppendReport r text] w).
Proof.
  intros Hu Hroot Hn. unfold append_to_report.
  mstep (eq_refl : get_self w = (Ok (w_self w), w)). rewrite Hu.
  now apply (append_to_report_rec_run text w n u r).
Qed.


(** ** The resumer *)

(** C10: when the module of a record imports and binds no name equal to
    the stored class name, [get_subclass_from_dbnode] returns [None], and
    so do [get_subclass_from_pk] and [get_subclass_from_uuid] for the
    record. *)
Theorem get_subclass_missing_class_is_None importable d row wf_mod :
  find (fun r => Nat.eqb (wf_pk r) (wf_pk row)) (db_workflows d) = Some row ->
  find_workflow d (wf_uuid row) = Some row ->
  import_module importable (wf_module row) = Some wf_mod ->
  (forall elem, ~ In (wf_module_class row, elem) wf_mod) ->
  get_subclass_from_dbnode importable d row = Ok None /\
  get_subclass_from_pk importable d (wf_pk row) = Ok None /\
  get_subclass_from_uuid importable d (wf_uuid row) = Ok None.
Proof.
  intros Hpk Huuid Himp Hno.
  assert (Hnode : get_subclass_from_dbnode importable d row = Ok None).
  { unfold get_subclass_from_dbnode. rewrite Himp.
    destruct (find _ wf_mod) as [[elem_name elem]|] eqn:Hf; [|reflexivity].
    apply find_some in Hf. destruct Hf as [Hin Heq].
    cbn in Heq. apply String.eqb_eq in Heq. subst elem_name.
    now elim (Hno elem). }
  split; [exact Hnode|]. split.
  - unfold get_subclass_from_pk. rewrite Hpk. now rewrite Hnode.
  - unfold get_subclass_from_uuid. rewrite Huuid. now rewrite Hnode.
Qed.

(** * Further properties of the engine *)

(** ** The status predicates *)

(** X1: on a stored workflow the four status predicates [is_new],
    [is_running], [has_finished_ok] and [has_failed] return without
    touching anything, each of the first, second and fourth answers
    [True] for its own state only, and exactly one of the four answers
    [True], except in state INITIALIZED, where none does. *)
Theorem status_predicates_exclusive w u row :
  stored w u row ->
  exists n r o f,
    is_new w = (Ok n, w) /\ is_running w = (Ok r, w) /\
    has_finished_ok w = (Ok o, w) /\ has_failed w = (Ok f, w) /\
    (n = true <-> wf_status row = CREATED) /\
    (r = true <-> wf_status row = RUNNING) /\
    (f = true <-> wf_status row = ERROR) /\
    count_occ Bool.bool_dec [n; r; o; f] true
    = if wf_states_eqb (wf_status row) INITIALIZED then 0 else 1.
Proof.
  intros Hst. pose proof (dbworkflowinstance_stored _ _ _ Hst) as Hdb.
  exists (wf_states_eqb (wf_status row) CREATED),
         (wf_states_eqb (wf_status row) RUNNING),
         (existsb (wf_states_eqb (wf_status row)) [FINISHED; SLEEP]),
         (wf_states_eqb (wf_status row) ERROR).
  unfold is_new, is_running, has_finished_ok, has_failed.
  repeat mstep Hdb.
  repeat (split; [reflexivity|]).
  rewrite !wf_states_eqb_eq.
  repeat (split; [tauto|]).
  destruct (wf_status row); reflexivity.
Qed.

(** ** Sleep *)

Lemma find_step_upd_other u n f d v m :
  (forall s, st_parent (f s) = st_parent s /\ st_name (f s) = st_name s) ->
  v <> u \/ m <> n ->
  find_step (upd_step u n f d) v m = find_step d v m.
Proof.
  intros Hf Hne. unfold find_step, upd_step; cbn [db_steps].
  induction (db_steps d) as [|s l IH]; [reflexivity|]. cbn [map find].
  destruct (is_step u n s) eqn:Hs.
  - assert (E : is_step v m (f s) = is_step v m s).
    { unfold is_step. destruct (Hf s) as [-> ->]. reflexivity. }
    rewrite E.
    assert (E' : is_step v m s = false).
    { unfold is_step in *.
      apply andb_true_iff in Hs. destruct Hs as [H1 H2].
      apply Nat.eqb_eq in H1. apply String.eqb_eq in H2. subst u n.
      destruct (Nat.eqb (st_parent s) v) eqn:E1; [|reflexivity].
      destruct (String.eqb (st_name s) m) eqn:E2; [|reflexivity].
      apply Nat.eqb_eq in E1. apply String.eqb_eq in E2. subst v m.
      destruct Hne as [Hne|Hne]; now elim Hne. }
    rewrite E'. exact IH.
  - destruct (is_step v m s); [reflexivity|exact IH].
Qed.

Lemma sleep_run w u row caller :
  stored w u row -> String.eqb caller wf_exit_call = false ->
  sleep caller w
  = match find_step (w_db w) u caller with
    | Some s => (Ok tt, commit [SetStepStatus u caller SLEEP] w)
    | None => (Raise UnknownCaller, w)
    end.
Proof.
  intros Hst Hc. unfold sleep.
  mstep (has_step_stored _ _ _ _ Hst Hc).
  destruct (find_step (w_db w) u caller) as [s|] eqn:Hs; [|reflexivity].
  cbn [negb].
  mstep (get_step_attr_stored _ _ _ _ "set_status" _ Hst Hc Hs).
  destruct (find_step_key _ _ _ _ Hs) as [-> ->]. apply write_commit.
Qed.

(** X2: [sleep], called from the step [caller] of a stored workflow,
    makes one write: the step record of the caller goes to SLEEP, with
    its pointer and its attachments as they were; no other step record,
    no workflow record and no calculation changes.  When the caller has
    no step record, [sleep] fails with [UnknownCaller] and writes
    nothing. *)
Theorem sleep_marks_the_caller_only w u row caller :
  stored w u row -> String.eqb caller wf_exit_call = false ->
  match find_step (w_db w) u caller with
  | Some s =>
      exists w',
        sleep caller w = (Ok tt, w') /\
        w_log w' = w_log w ++ [SetStepStatus u caller SLEEP] /\
        find_step (w_db w') u caller = Some (with_status SLEEP s) /\
        (forall v m, v <> u \/ m <> caller ->
           find_step (w_db w') v m = find_step (w_db w) v m) /\
        db_workflows (w_db w') = db_workflows (w_db w) /\
        db_calcs (w_db w') = db_calcs (w_db w) /\
        w_self w' = w_self w
  | None => sleep caller w = (Raise UnknownCaller, w)
  end.
Proof.
  intros Hst Hc. rewrite (sleep_run _ _ _ _ Hst Hc).
  destruct (find_step (w_db w) u caller) as [s|] eqn:Hs; [|reflexivity].
  eexists. split; [reflexivity|]. split; [reflexivity|].
  unfold commit; cbn [w_db w_self replay fold_left apply_op].
  split.
  { rewrite find_step_upd_same by (intros; now split). now rewrite Hs. }
  split.
  { intros v m Hne. apply find_step_upd_other; [intros; now split|exact Hne]. }
  repeat split.
Qed.

(** ** The calculations of a step *)

(** X3: [get_step_calculations] on a decorated method of a stored
    workflow returns the calculations attached to the step record of the
    method, all of them or those in the requested state; when the
    workflow has no step record of that name, or the name is the exit
    sentinel, it does not return [None] but fails with the
    [AiidaException] of its bare [except], and nothing is changed. *)
Theorem get_step_calculations_missing_step_raises w u row name calc_state :
  stored w u row ->
  get_step_calculations (decorated name) calc_state w
  = match (if String.eqb name wf_exit_call then None
           else find_step (w_db w) u name) with
    | Some s => (Ok (get_calculations (w_db w) s calc_state), w)
    | None => (Raise (AiidaException "Cannot retrieve step's calculations"), w)
    end.
Proof.
  intros Hst. unfold get_step_calculations, decorated; cbn [m_is_wf_step m_wf_step_name].
  unfold try_except.
  destruct (String.eqb name wf_exit_call) eqn:Hn.
  - unfold get_step. unfold bind at 1. unfold bind at 1. cbn [ret].
    rewrite Hn. reflexivity.
  - mstep (get_step_stored _ _ _ _ Hst Hn).
    destruct (find_step (w_db w) u name) as [s|]; reflexivity.
Qed.

(** ** The first invocation of a step *)

Lemma find_workflow_fresh d : find_workflow d (fresh_uuid d) = None.
Proof.
  unfold find_workflow, fresh_uuid.
  destruct (find _ (db_workflows d)) as [r|] eqn:Hf; [|reflexivity].
  exfalso. apply find_some in Hf. destruct Hf as [Hin Heq].
  apply Nat.eqb_eq in Heq.
  assert (Hle : wf_uuid r <= list_max (map wf_uuid (db_workflows d))).
  { pose proof (list_max_le (map wf_uuid (db_workflows d))
                  (list_max (map wf_uuid (db_workflows d)))) as [Hmax _].
    specialize (Hmax (Nat.le_refl _)). rewrite Forall_forall in Hmax.
    apply Hmax. now apply in_map. }
  lia.
Qed.

Lemma replay_cons o L d : replay (o :: L) d = replay L (apply_op o d).
Proof. reflexivity. Qed.

Lemma replay_nil d : replay [] d = d.
Proof. reflexivity. Qed.

Lemma find_workflow_upd_step u n f d v :
  find_workflow (upd_step u n f d) v = find_workflow d v.
Proof. reflexivity. Qed.

Lemma find_step_upd_wf u f d v n :
  find_step (upd_wf u f d) v n = find_step d v n.
Proof. reflexivity. Qed.

Lemma find_step_upd_calc c f d v n :
  find_step (upd_calc c f d) v n = find_step d v n.
Proof. reflexivity. Qed.

Lemma find_workflow_upd_calc c f d v :
  find_workflow (upd_calc c f d) v = find_workflow d v.
Proof. reflexivity. Qed.

Lemma store_run w : store w = (Ok tt, after_store w).
Proof. reflexivity. Qed.

Lemma after_store_stored w :
  stored (after_store w) (fresh_uuid (w_db w)) (new_record w).
Proof.
  split; [reflexivity|].
  unfold after_store; cbn [w_db apply_op]. unfold find_workflow; cbn [db_workflows].
  rewrite find_append.
  pose proof (find_workflow_fresh (w_db w)) as Hf. unfold find_workflow in Hf.
  rewrite Hf. cbn. now rewrite Nat.eqb_refl.
Qed.

(** On a new object the prologue first stores it, and goes on as on the
    stored one. *)
Lemma step_prologue_store m nargs w :
  _to_be_stored (w_self w) = true ->
  step_prologue m nargs w = step_prologue m nargs (after_store w).
Proof.
  intros Hnew. unfold step_prologue.
  mstep (eq_refl : get_self w = (Ok (w_self w), w)). rewrite Hnew.
  mstep (store_run w).
  mstep (eq_refl : get_self (after_store w) = (Ok (w_self (after_store w)), after_store w)).
  cbn [after_store w_self _to_be_stored].
  now mstep (eq_refl : ret tt (after_store w) = (Ok tt, after_store w)).
Qed.

Lemma step_prologue_arguments m nargs w :
  _to_be_stored (w_self w) = false -> 0 < nargs ->
  step_prologue m nargs w = (Raise InvalidStepCall, w).
Proof.
  intros Hcommitted Hn. unfold step_prologue.
  mstep (eq_refl : get_self w = (Ok (w_self w), w)). rewrite Hcommitted.
  mstep (eq_refl : ret tt w = (Ok tt, w)).
  apply Nat.ltb_lt in Hn. now rewrite Hn.
Qed.

Lemma find_step_no_parent d u name :
  steps_have_parents d -> find_workflow d u = None -> find_step d u name = None.
Proof.
  intros Hp Hu. destruct (find_step d u name) as [s|] eqn:Hs; [|reflexivity].
  exfalso. destruct (find_step_key _ _ _ _ Hs) as [Hpar _].
  unfold find_step in Hs. apply find_some in Hs. destruct Hs as [Hin _].
  apply (Hp s Hin). now rewrite Hpar.
Qed.

(** X4: the first invocation of a step [m] on a new workflow object,
    when the body of the step calls [next] on a method that names a
    successor: the wrapper stores the workflow, creates the step record
    and runs the body, and [next] flushes what is buffered under [m] and
    writes the pointer.  The writes are, in this order, the workflow
    record, the step record, the buffered attachments, the pointer and
    the two RUNNING statuses; afterwards the workflow is RUNNING under
    the sealed fingerprint of its path, and the step is RUNNING, points
    to the successor and holds exactly what was buffered. *)
Theorem first_invocation_launches w m next_method name :
  _to_be_stored (w_self w) = true ->
  String.eqb m wf_exit_call = false ->
  steps_have_parents (w_db w) ->
  next_call_name next_method = Some name ->
  exists w',
    step m (next m (Some next_method)) 0 w = (Ok tt, w') /\
    w_log w'
    = w_log w
      ++ [CreateWorkflow (new_record w);
          CreateStep (new_step (fresh_uuid (w_db w)) m)]
      ++ flush_ops (fresh_uuid (w_db w)) m
           (buffered m (attach_calc_lazy_storage (w_self w)))
           (buffered m (attach_subwf_lazy_storage (w_self w)))
      ++ [SetNextcall (fresh_uuid (w_db w)) m name;
          SetWfStatus (fresh_uuid (w_db w)) RUNNING;
          SetStepStatus (fresh_uuid (w_db w)) m RUNNING] /\
    find_workflow (w_db w') (fresh_uuid (w_db w))
    = Some (with_wf_status RUNNING (new_record w)) /\
    find_step (w_db w') (fresh_uuid (w_db w)) m
    = Some (mkDbWorkflowStep (fresh_uuid (w_db w)) m RUNNING name
              (buffered m (attach_calc_lazy_storage (w_self w)))
              (buffered m (attach_subwf_lazy_storage (w_self w)))) /\
    _to_be_stored (w_self w') = false /\
    _dbworkflowinstance (w_self w') = Some (fresh_uuid (w_db w)).
Proof.
  intros Hnew Hm Hpar Hname.
  set (u := fresh_uuid (w_db w)).
  set (w1 := after_store w).
  pose proof (after_store_stored w) as Hst1. fold u w1 in Hst1.
  assert (Hnone : find_step (w_db w1) u m = None).
  { unfold w1, after_store; cbn [w_db apply_op].
    rewrite (find_step_steps _ (w_db w)) by reflexivity.
    apply find_step_no_parent; [exact Hpar|apply find_workflow_fresh]. }
  set (w2 := commit [CreateStep (new_step u m)] w1).
  assert (Hpro : step_prologue m 0 w = (Ok (new_step u m), w2)).
  { rewrite (step_prologue_store _ _ _ Hnew). fold w1.
    rewrite (step_prologue_stored w1 u (new_record w) m 0 eq_refl Hst1 Hm).
    cbn [Nat.ltb Nat.leb]. rewrite Hnone.
    rewrite (steps_get_or_create_stored _ _ _ _ Hst1), Hnone. reflexivity. }
  assert (Hst2 : stored w2 u (new_record w)).
  { apply stored_commit_step_ops; [reflexivity|exact Hst1]. }
  assert (Hs2 : find_step (w_db w2) u m = Some (new_step u m)).
  { unfold w2, commit; cbn [w_db replay fold_left apply_op].
    unfold find_step in *; cbn [db_steps]. rewrite find_append, Hnone. cbn [find].
    unfold is_step; cbn. now rewrite Nat.eqb_refl, String.eqb_refl. }
  pose proof (next_run w2 u (new_record w) m (new_step u m) next_method
                Hst2 eq_refl Hm Hs2) as Hnext.
  cbn zeta in Hnext. rewrite Hname in Hnext.
  set (calcs := buffered m (attach_calc_lazy_storage (w_self w))) in *.
  set (subwfs := buffered m (attach_subwf_lazy_storage (w_self w))) in *.
  change (buffered m (attach_calc_lazy_storage (w_self w2))) with calcs in Hnext.
  change (buffered m (attach_subwf_lazy_storage (w_self w2))) with subwfs in Hnext.
  set (ops := flush_ops u m calcs subwfs
              ++ [SetNextcall u m name; SetWfStatus u RUNNING; SetStepStatus u m RUNNING])
    in *.
  exists (commit ops w2). split.
  { unfold step. mstep Hpro. unfold try_except at 1.
    unfold bind at 1. unfold try_except. rewrite Hnext. reflexivity. }
  split.
  { unfold commit, w2, w1, after_store, commit; cbn [w_log].
    rewrite <- !app_assoc. reflexivity. }
  split.
  { unfold commit at 1; cbn [w_db]. unfold ops.
    rewrite replay_app, !replay_cons, replay_nil. cbn [apply_op].
    rewrite find_workflow_upd_step, find_workflow_upd_same by reflexivity.
    rewrite find_workflow_upd_step.
    unfold find_workflow.
    rewrite (replay_step_ops_workflows _ _ (flush_ops_step_ops u m calcs subwfs)).
    destruct Hst2 as [_ Hrow]. unfold find_workflow in Hrow. rewrite Hrow.
    reflexivity. }
  split.
  { unfold commit at 1; cbn [w_db]. unfold ops.
    rewrite replay_app, !replay_cons, replay_nil. cbn [apply_op].
    rewrite find_step_upd_same by (intros; now split).
    rewrite find_step_upd_wf.
    rewrite find_step_upd_same by (intros; now split).
    rewrite find_step_flush, Hs2. reflexivity. }
  split; reflexivity.
Qed.

(** X5: the wrapper stores a new workflow before it looks at the
    arguments: an invocation of a step with positional arguments on a
    new object fails with [InvalidStepCall], and the workflow record has
    been created all the same; the body does not run. *)
Theorem step_with_arguments_still_stores w m fun_ nargs :
  _to_be_stored (w_self w) = true -> 0 < nargs ->
  step m fun_ nargs w = (Raise InvalidStepCall, after_store w) /\
  w_log (after_store w) = w_log w ++ [CreateWorkflow (new_record w)] /\
  find_workflow (w_db (after_store w)) (fresh_uuid (w_db w)) = Some (new_record w) /\
  find_workflow (w_db w) (fresh_uuid (w_db w)) = None /\
  _to_be_stored (w_self (after_store w)) = false.
Proof.
  intros Hnew Hn. split.
  { unfold step. apply bind_raise. rewrite (step_prologue_store _ _ _ Hnew).
    now apply step_prologue_arguments. }
  split; [reflexivity|].
  split; [apply after_store_stored|].
  split; [apply find_workflow_fresh|reflexivity].
Qed.

(** X6: a step whose record is neither in ERROR nor in SLEEP and whose
    pointer is still the default one, or names the step itself, can be
    invoked again: the prologue of the wrapper hands the existing record
    to the body and writes nothing, so the attachments of the earlier
    round stay on the record. *)
Theorem step_reinvocation_keeps_record w u row m s :
  _to_be_stored (w_self w) = false -> stored w u row ->
  String.eqb m wf_exit_call = false ->
  find_step (w_db w) u m = Some s ->
  st_status s <> ERROR -> st_status s <> SLEEP ->
  st_nextcall s = wf_default_call \/ st_nextcall s = m ->
  step_prologue m 0 w = (Ok s, w).
Proof.
  intros Hcommitted Hst Hm Hs Herr Hsleep Hnext.
  rewrite (step_prologue_stored _ _ _ _ _ Hcommitted Hst Hm), Hs. cbn [Nat.ltb Nat.leb].
  assert (Hres : restartable s = false).
  { destruct (restartable s) eqn:E; [|reflexivity].
    apply restartable_iff in E. tauto. }
  assert (Hre : reenterable m s = true).
  { unfold reenterable. rewrite Hres. cbn [orb].
    destruct Hnext as [-> | ->]; rewrite String.eqb_refl; [reflexivity|].
    apply orb_true_r. }
  rewrite Hre, Hres. cbn [negb].
  now rewrite (steps_get_or_create_stored _ _ _ _ Hst), Hs.
Qed.

(** X7: the handler of the wrapper is not protected itself.  When the
    body of a step raises and the workflow is attached to more than one
    parent step, the first [append_to_report] of the handler fails with
    [MultipleObjectsReturned]; this exception leaves the wrapper, the
    one of the body is lost, nothing is reported and the step is not set
    to ERROR. *)
Theorem step_handler_failure_escapes w m nargs fun_ ms w1 e w2 u row s1 s2 rest :
  step_prologue m nargs w = (Ok ms, w1) ->
  fun_ w1 = (Raise e, w2) ->
  stored w2 u row ->
  parent_workflow_step (w_db w2) u = s1 :: s2 :: rest ->
  0 < recursion_limit ->
  step m fun_ nargs w = (Raise MultipleObjectsReturned, w2).
Proof.
  intros Hpro Hfun [Hself Hrow] Hparents Hlimit.
  unfold step. mstep Hpro.
  assert (Hrep : forall text,
            append_to_report text w2 = (Raise MultipleObjectsReturned, w2)).
  { intros text. unfold append_to_report.
    mstep (eq_refl : get_self w2 = (Ok (w_self w2), w2)). rewrite Hself.
    unfold append_to_report_of. destruct recursion_limit as [|n]; [lia|].
    cbn [append_to_report_rec].
    assert (Hfetch : fetch u w2 = (Ok row, w2)) by (unfold fetch; now rewrite Hrow).
    mstep Hfetch. mstep (eq_refl : get_db w2 = (Ok (w_db w2), w2)).
    rewrite (find_workflow_uuid _ _ _ Hrow), Hparents. reflexivity. }
  assert (Htry : try_except fun_ (step_on_error m ms) w1
                 = (Raise MultipleObjectsReturned, w2)).
  { unfold try_except. rewrite Hfun. unfold step_on_error.
    now mfail (Hrep (("ERROR ! This workflow got and error in the " ++ m
                      ++ " method, we report down the stack trace")%string)). }
  now mfail Htry.
Qed.

(** ** What [kill] leaves alone *)

Lemma with_wf_status_idem st r :
  with_wf_status st (with_wf_status st r) = with_wf_status st r.
Proof. reflexivity. Qed.

(** The workflow table after the writes of [kill]: the marked records
    are FINISHED, and nothing else has changed. *)
Lemma replay_kill_ops_workflows L : forall d,
  forallb kill_op L = true ->
  db_workflows (replay L d) = map (finish_marked L) (db_workflows d).
Proof.
  induction L as [|o L IH]; intros d HL.
  - cbn. rewrite <- (map_id (db_workflows d)) at 1. apply map_ext.
    intros r. reflexivity.
  - cbn [forallb] in HL. apply andb_true_iff in HL. destruct HL as [Ho HL].
    rewrite replay_cons, (IH _ HL).
    destruct o as [| |x st| | | | | | | |c st|]; try discriminate Ho.
    + destruct st; try discriminate Ho. cbn [apply_op upd_wf db_workflows].
      rewrite map_map. apply map_ext. intros r.
      unfold finish_marked, marks. cbn [existsb].
      rewrite (Nat.eqb_sym x (wf_uuid r)).
      destruct (Nat.eqb (wf_uuid r) x) eqn:E; cbn [orb wf_uuid].
      * fold (with_wf_status FINISHED r). cbn [with_wf_status wf_uuid].
        destruct (existsb _ L); reflexivity.
      * reflexivity.
    + destruct st; try discriminate Ho. cbn [apply_op upd_calc db_workflows].
      apply map_ext. intros r. reflexivity.
Qed.

Lemma find_map_uuid (g : DbWorkflow -> DbWorkflow) l v :
  (forall r, wf_uuid (g r) = wf_uuid r) ->
  find (fun r => Nat.eqb (wf_uuid r) v) (map g l)
  = option_map g (find (fun r => Nat.eqb (wf_uuid r) v) l).
Proof.
  intros Hg. induction l as [|r l IH]; [reflexivity|]. cbn [map find].
  rewrite Hg. destruct (Nat.eqb (wf_uuid r) v); [reflexivity|exact IH].
Qed.

Lemma finish_marked_uuid L r : wf_uuid (finish_marked L r) = wf_uuid r.
Proof. unfold finish_marked. now destruct (marks L (wf_uuid r)). Qed.

Lemma find_workflow_kill_marks L d v :
  forallb kill_op L = true ->
  find_workflow (replay L d) v
  = if marks L v then option_map (with_wf_status FINISHED) (find_workflow d v)
    else find_workflow d v.
Proof.
  intros HL. unfold find_workflow.
  rewrite (replay_kill_ops_workflows _ _ HL).
  rewrite (find_map_uuid _ _ _ (finish_marked_uuid L)).
  destruct (find _ (db_workflows d)) as [r|] eqn:Hr.
  - pose proof (find_workflow_uuid d v r Hr) as Hu.
    cbn [option_map]. unfold finish_marked. rewrite Hu.
    now destruct (marks L v).
  - now destruct (marks L v).
Qed.

Lemma marks_In L v : forallb kill_op L = true ->
  marks L v = true <-> In (SetWfStatus v FINISHED) L.
Proof.
  intros HL. unfold marks. rewrite existsb_exists. split.
  - intros (o & Hin & Ho). destruct o as [| |x st| | | | | | | | |]; try discriminate.
    destruct st; try discriminate. apply Nat.eqb_eq in Ho. now subst x.
  - intros Hin. exists (SetWfStatus v FINISHED). split; [exact Hin|].
    apply Nat.eqb_refl.
Qed.

Lemma calc_state_of_kill_ops L : forall d c,
  forallb kill_op L = true ->
  ~ In (CalcSetState c CALC_FINISHED) L ->
  calc_state_of (replay L d) c = calc_state_of d c.
Proof.
  induction L as [|o L IH]; intros d c HL Hc; [reflexivity|].
  cbn [forallb] in HL. apply andb_true_iff in HL. destruct HL as [Ho HL].
  rewrite replay_cons, IH; [|exact HL|intros H; apply Hc; now right].
  destruct o as [| |x st| | | | | | | |c' st|]; try discriminate Ho.
  - reflexivity.
  - destruct st; try discriminate Ho. rewrite calc_state_of_set.
    destruct (Nat.eqb c' c) eqn:E; [|reflexivity].
    apply Nat.eqb_eq in E. subst c'. exfalso. apply Hc. now left.
Qed.

Lemma kill_within_steps d d' u o :
  db_steps d = db_steps d' -> kill_within d u o -> kill_within d' u o.
Proof.
  intros Hst. destruct o as [| |x st| | | | | | | |c st|]; cbn; try tauto.
  - destruct st; try tauto. now apply reaches_running_steps.
  - destruct st; try tauto. intros (v & s & Hv & Hs & Hc).
    exists v, s. split; [now apply (reaches_running_steps d)|].
    split; [now apply (running_step_steps d)|exact Hc].
Qed.

Lemma kill_within_below d u s x o :
  running_step d u s -> In x (st_sub_workflows s) ->
  kill_within d x o -> kill_within d u o.
Proof.
  intros Hs Hx. destruct o as [| |y st| | | | | | | |c st|]; cbn; try tauto.
  - destruct st; try tauto. intros Hv. eapply reaches_below; eauto.
  - destruct st; try tauto. intros (v & s' & Hv & Hs' & Hc).
    exists v, s'. split; [eapply reaches_below; eauto|]. now split.
Qed.

Section KillWithin.

Variable k : uuid -> M unit.
Hypothesis k_within : forall u w w',
  k u w = (Ok tt, w') ->
  exists L, w' = commit L w /\ forallb kill_op L = true /\
            Forall (kill_within (w_db w) u) L.

Lemma for_each_kill_within l : forall w w',
  for_each l k w = (Ok tt, w') ->
  exists L, w' = commit L w /\ forallb kill_op L = true /\
            Forall (fun o => exists x, In x l /\ kill_within (w_db w) x o) L.
Proof.
  induction l as [|x l IH]; intros w w' H.
  - inversion H; subst. exists []. rewrite commit_nil. repeat split; auto.
  - cbn [for_each] in H.
    destruct (k x w) as [[[]|e] w1] eqn:Hk.
    2:{ mfail Hk in H. discriminate. }
    mstep Hk in H.
    destruct (k_within _ _ _ Hk) as (L1 & -> & HL1 & Hw1).
    destruct (IH _ _ H) as (L2 & -> & HL2 & Hw2).
    exists (L1 ++ L2). rewrite commit_app. split; [reflexivity|].
    split; [rewrite forallb_app; now rewrite HL1, HL2|].
    apply Forall_app. split.
    + eapply Forall_impl; [|exact Hw1]. intros o Ho. exists x. split; [now left|exact Ho].
    + eapply Forall_impl; [|exact Hw2]. intros o (y & Hy & Ho).
      exists y. split; [now right|].
      eapply kill_within_steps; [|exact Ho].
      unfold commit; cbn [w_db]. now apply replay_kill_ops_steps.
Qed.

Lemma for_each_steps_within l : forall w w',
  for_each l (fun s => kill_step_calculations s ;;
                       for_each (st_sub_workflows s) k) w = (Ok tt, w') ->
  exists L, w' = commit L w /\ forallb kill_op L = true /\
    Forall (fun o => exists s, In s l /\
              ((exists c, In c (st_calculations s) /\ o = CalcSetState c CALC_FINISHED) \/
               (exists x, In x (st_sub_workflows s) /\ kill_within (w_db w) x o))) L.
Proof.
  induction l as [|s l IH]; intros w w' H.
  - inversion H; subst. exists []. rewrite commit_nil. repeat split; auto.
  - cbn [for_each] in H.
    set (Ls := map (fun c => CalcSetState c CALC_FINISHED) (st_calculations s)) in *.
    destruct (for_each (st_sub_workflows s) k (commit Ls w)) as [[[]|e] w1] eqn:Hsub.
    2:{ erewrite bind_raise in H; [discriminate|].
        mstep (kill_step_calculations_run s w). exact Hsub. }
    erewrite bind_ok in H
      by (mstep (kill_step_calculations_run s w); exact Hsub).
    destruct (for_each_kill_within _ _ _ Hsub) as (L1 & -> & HL1 & Hw1).
    destruct (IH _ _ H) as (L2 & -> & HL2 & Hw2).
    pose proof (kill_ops_calc_states (st_calculations s)) as HLs. fold Ls in HLs.
    exists (Ls ++ L1 ++ L2). rewrite !commit_app. split; [reflexivity|].
    split; [rewrite !forallb_app; now rewrite HLs, HL1, HL2|].
    apply Forall_app. split; [|apply Forall_app; split].
    + apply Forall_forall. intros o Ho. unfold Ls in Ho. apply in_map_iff in Ho.
      destruct Ho as (c & <- & Hc). exists s. split; [now left|].
      left. exists c. now split.
    + eapply Forall_impl; [|exact Hw1]. intros o (x & Hx & Ho).
      exists s. split; [now left|]. right. exists x. split; [exact Hx|].
      eapply kill_within_steps; [|exact Ho].
      unfold commit; cbn [w_db]. now apply replay_kill_ops_steps.
    + eapply Forall_impl; [|exact Hw2]. intros o (s' & Hs' & Ho).
      exists s'. split; [now right|].
      destruct Ho as [Ho|(x & Hx & Ho)]; [now left|].
      right. exists x. split; [exact Hx|].
      eapply kill_within_steps; [|exact Ho].
      unfold commit; cbn [w_db]. rewrite <- replay_app.
      apply replay_kill_ops_steps. rewrite forallb_app. now rewrite HLs, HL1.
Qed.

End KillWithin.

(** Every write of [kill] is a FINISHED mark on something it walks. *)
Lemma kill_rec_within n : forall u w w',
  kill_rec n u w = (Ok tt, w') ->
  exists L, w' = commit L w /\ forallb kill_op L = true /\
            Forall (kill_within (w_db w) u) L.
Proof.
  induction n as [|n IH]; intros u w w' H; [discriminate|].
  cbn [kill_rec] in H.
  pose proof (get_steps_running_run u w) as Hget.
  destruct (find_workflow (w_db w) u) as [row|] eqn:Hrow.
  2:{ mfail Hget in H. discriminate. }
  mstep Hget in H. clear Hget.
  set (l := filter _ _) in H.
  destruct (for_each l (fun s => kill_step_calculations s ;;
                                for_each (st_sub_workflows s) (kill_rec n)) w)
    as [[[]|e] w1] eqn:Hloop.
  2:{ mfail Hloop in H. discriminate. }
  mstep Hloop in H.
  destruct (for_each_steps_within _ IH _ _ _ Hloop) as (L1 & -> & HL1 & Hw1).
  assert (Hrow1 : exists row1, find_workflow (w_db (commit L1 w)) u = Some row1).
  { pose proof (find_workflow_kill_ops_none L1 (w_db w) u HL1) as [_ Hb].
    unfold commit; cbn [w_db].
    destruct (find_workflow (replay L1 (w_db w)) u); [eauto|].
    exfalso. apply Hb; [congruence|reflexivity]. }
  destruct Hrow1 as [row1 Hrow1].
  unfold fetch in H at 1. unfold bind in H at 1. rewrite Hrow1 in H.
  rewrite (find_workflow_uuid _ _ _ Hrow1), write_commit, commit_app in H.
  inversion H; subst w'. clear H.
  exists (L1 ++ [SetWfStatus u FINISHED]). split; [reflexivity|].
  split; [rewrite forallb_app; now rewrite HL1|].
  apply Forall_app. split.
  - eapply Forall_impl; [|exact Hw1]. intros o (s & Hs & Ho).
    apply In_running_steps in Hs.
    destruct Ho as [(c & Hc & ->)|(x & Hx & Ho)].
    + cbn. exists u, s. split; [constructor|]. now split.
    + eapply kill_within_below; eauto.
  - constructor; [|constructor]. cbn. constructor.
Qed.

Lemma commit_inj L L' w : commit L w = commit L' w -> L = L'.
Proof.
  unfold commit. intros H. inversion H as [[Hdb Hlog]].
  now apply app_inv_head in Hlog.
Qed.

(** X8: what [kill] leaves alone.  When [kill] returns, no step record
    has changed (a RUNNING step of a killed workflow is still RUNNING and
    keeps its pointer and its attachments); the record of a workflow it
    reached through running steps differs from the former one in its
    status only, the record of any other workflow is the former one; and
    the state of a calculation that is not attached to a running step of
    a reached workflow is the former one. *)
Theorem kill_changes_only_what_it_walks w u n :
  killable (w_db w) n u -> n <= recursion_limit ->
  exists w',
    kill u w = (Ok tt, w') /\
    w_self w' = w_self w /\
    db_steps (w_db w') = db_steps (w_db w) /\
    (forall v, reaches_running (w_db w) u v ->
       find_workflow (w_db w') v
       = option_map (with_wf_status FINISHED) (find_workflow (w_db w) v)) /\
    (forall v, ~ reaches_running (w_db w) u v ->
       find_workflow (w_db w') v = find_workflow (w_db w) v) /\
    (forall c,
       (forall v s, reaches_running (w_db w) u v -> running_step (w_db w) v s ->
          ~ In c (st_calculations s)) ->
       calc_state_of (w_db w') c = calc_state_of (w_db w) c).
Proof.
  intros Hk Hn.
  destruct (kill_rec_returns recursion_limit u w (killable_le _ _ _ _ Hk Hn))
    as (w' & Hrun & _).
  exists w'. split; [exact Hrun|].
  destruct (kill_rec_sound _ _ _ _ Hrun) as (L & HwL & HL & Hcover).
  destruct (kill_rec_within _ _ _ _ Hrun) as (L' & HwL' & _ & Hwithin).
  assert (L' = L) by (apply (commit_inj _ _ w); congruence). subst L' w'.
  clear HwL'. rewrite Forall_forall in Hwithin.
  unfold commit; cbn [w_self w_db].
  split; [reflexivity|].
  split; [now apply replay_kill_ops_steps|].
  split; [|split].
  - intros v Hv. rewrite (find_workflow_kill_marks _ _ _ HL).
    destruct Hcover as [Hwf _]. destruct (Hwf v Hv) as [_ Hin].
    apply (marks_In _ _ HL) in Hin. now rewrite Hin.
  - intros v Hv. rewrite (find_workflow_kill_marks _ _ _ HL).
    destruct (marks L v) eqn:Hm; [|reflexivity].
    exfalso. apply Hv. apply (marks_In _ _ HL) in Hm.
    exact (Hwithin _ Hm).
  - intros c Hc. apply calc_state_of_kill_ops; [exact HL|].
    intros Hin. destruct (Hwithin _ Hin) as (v & s & Hv & Hs & Hcs).
    exact (Hc v s Hv Hs Hcs).
Qed.

(** ** Kill all *)

Lemma loadable_replay importable L d v :
  forallb kill_op L = true ->
  loadable importable d v -> loadable importable (replay L d) v.
Proof.
  intros HL (row & wf_mod & name & Hrow & Himp & Hcls).
  pose proof (find_workflow_kill_marks L d v HL) as Hf. rewrite Hrow in Hf.
  destruct (marks L v).
  - exists (with_wf_status FINISHED row), wf_mod, name. now split.
  - exists row, wf_mod, name. now split.
Qed.

(** The resumer on a record whose class can be loaded. *)
Lemma get_subclass_loadable importable d v :
  loadable importable d v ->
  get_subclass_from_uuid importable d v
  = Ok (Some (mkWorkflow false (Some v) "" "" "" [] [])).
Proof.
  intros (row & wf_mod & name & Hrow & Himp & Hcls).
  pose proof (find_workflow_uuid _ _ _ Hrow) as Hu.
  unfold get_subclass_from_uuid. rewrite Hrow.
  unfold get_subclass_from_dbnode. rewrite Himp, Hcls.
  unfold call_with_uuid, Workflow_init. rewrite Hu, Hrow, Hu. reflexivity.
Qed.

Lemma kill_all_loop importable l : forall w,
  (forall r, In r l ->
     loadable importable (w_db w) (wf_uuid r) /\
     killable (w_db w) recursion_limit (wf_uuid r)) ->
  exists L,
    for_each l (fun w_ =>
      d <- get_db ;;
      o <- lift (get_subclass_from_uuid importable d (wf_uuid w_)) ;;
      kill_object o) w = (Ok tt, commit L w) /\
    forallb kill_op L = true /\
    (forall r, In r l -> marks L (wf_uuid r) = true) /\
    Forall (fun o => exists r, In r l /\ kill_within (w_db w) (wf_uuid r) o) L.
Proof.
  induction l as [|r l IH]; intros w Hl.
  - exists []. rewrite commit_nil. repeat split; [intros r []|constructor].
  - destruct (Hl r (or_introl eq_refl)) as [Hload Hkill].
    destruct (kill_rec_returns _ _ _ Hkill) as (w1 & Hrun & _).
    destruct (kill_rec_sound _ _ _ _ Hrun) as (L1 & -> & HL1 & Hcov).
    destruct (kill_rec_within _ _ _ _ Hrun) as (L1' & HwL' & _ & Hw1).
    assert (L1' = L1) by (apply (commit_inj _ _ w); congruence). subst L1'.
    clear HwL'.
    destruct (IH (commit L1 w)) as (L2 & Hrest & HL2 & Hm2 & Hw2).
    { intros r' Hr'. destruct (Hl r' (or_intror Hr')) as [Hload' Hkill'].
      unfold commit; cbn [w_db]. split.
      - now apply loadable_replay.
      - now apply killable_replay. }
    exists (L1 ++ L2). split.
    { cbn [for_each].
      erewrite bind_ok; [rewrite Hrest; now rewrite commit_app|].
      mstep (eq_refl : get_db w = (Ok (w_db w), w)).
      unfold lift. unfold bind at 1. rewrite (get_subclass_loadable _ _ _ Hload).
      exact Hrun. }
    assert (HL : forallb kill_op (L1 ++ L2) = true)
      by (rewrite forallb_app; now rewrite HL1, HL2).
    split; [exact HL|]. split.
    + intros r' [<-|Hr'].
      * apply (marks_In _ _ HL). apply in_or_app. left.
        destruct Hcov as [Hwf _]. apply (Hwf (wf_uuid r)). constructor.
      * apply (marks_In _ _ HL). apply in_or_app. right.
        apply (marks_In _ _ HL2). now apply Hm2.
    + apply Forall_app. split.
      * eapply Forall_impl; [|exact Hw1]. intros o Ho.
        exists r. split; [now left|exact Ho].
      * eapply Forall_impl; [|exact Hw2]. intros o (r' & Hr' & Ho).
        exists r'. split; [now right|].
        eapply kill_within_steps; [|exact Ho].
        unfold commit; cbn [w_db]. now apply replay_kill_ops_steps.
Qed.

Lemma kill_all_selects_iff wf_user user r :
  kill_all_selects wf_user user r = true
  <-> wf_user (wf_uuid r) = user /\ wf_status r <> FINISHED.
Proof.
  unfold kill_all_selects. rewrite andb_true_iff, Nat.eqb_eq, negb_true_iff.
  split; intros [Hu Hs]; (split; [exact Hu|]).
  - intros E. rewrite E in Hs. discriminate.
  - destruct (wf_states_eqb (wf_status r) FINISHED) eqn:E; [|reflexivity].
    apply wf_states_eqb_eq in E. contradiction.
Qed.

(** X9: [kill_all] kills the unfinished workflows of the current user,
    and what they reach.  When the class of each of them can be loaded
    and the tree under it fits the recursion limit, the call returns and
    every workflow record of the user is FINISHED afterwards.  The
    record of a workflow that none of them reaches through running
    steps, such as an unfinished workflow of another user, is the former
    one; no record has been added or removed, and no step record has
    changed. *)
Theorem kill_all_finishes_every_workflow importable wf_user user w :
  (forall r, In r (db_workflows (w_db w)) ->
     wf_user (wf_uuid r) = user -> wf_status r <> FINISHED ->
     loadable importable (w_db w) (wf_uuid r) /\
     killable (w_db w) recursion_limit (wf_uuid r)) ->
  exists w',
    kill_all importable wf_user (Ok user) w = (Ok tt, w') /\
    (forall r, In r (db_workflows (w_db w')) -> wf_user (wf_uuid r) = user ->
       wf_status r = FINISHED) /\
    (forall v,
       (forall r, In r (db_workflows (w_db w)) ->
          wf_user (wf_uuid r) = user -> wf_status r <> FINISHED ->
          ~ reaches_running (w_db w) (wf_uuid r) v) ->
       find_workflow (w_db w') v = find_workflow (w_db w) v) /\
    map wf_uuid (db_workflows (w_db w')) = map wf_uuid (db_workflows (w_db w)) /\
    db_steps (w_db w') = db_steps (w_db w).
Proof.
  intros Hall.
  set (l := filter (kill_all_selects wf_user user) (db_workflows (w_db w))).
  assert (Hl : forall r, In r l <->
            In r (db_workflows (w_db w)) /\
            wf_user (wf_uuid r) = user /\ wf_status r <> FINISHED).
  { intros r. unfold l. now rewrite filter_In, kill_all_selects_iff. }
  destruct (kill_all_loop importable l w) as (L & Hrun & HL & Hmarks & Hwithin).
  { intros r Hr. apply Hl in Hr. destruct Hr as (Hin & Hu & Hs). now apply Hall. }
  exists (commit L w). split.
  { unfold kill_all.
    mstep (eq_refl : lift (Ok user) w = (Ok user, w)).
    mstep (eq_refl : get_db w = (Ok (w_db w), w)). exact Hrun. }
  unfold commit; cbn [w_db].
  split; [|split; [|split]].
  - rewrite (replay_kill_ops_workflows _ _ HL).
    intros r' Hr' Hu'. apply in_map_iff in Hr'. destruct Hr' as (r & <- & Hr).
    rewrite finish_marked_uuid in Hu'. unfold finish_marked.
    destruct (wf_states_eqb (wf_status r) FINISHED) eqn:E.
    + apply wf_states_eqb_eq in E. now destruct (marks L (wf_uuid r)).
    + rewrite Hmarks; [reflexivity|]. apply Hl.
      split; [exact Hr|]. split; [exact Hu'|].
      intros E'. rewrite E' in E. discriminate.
  - intros v Hv. rewrite (find_workflow_kill_marks _ _ _ HL).
    destruct (marks L v) eqn:Hm; [|reflexivity].
    exfalso. apply (marks_In _ _ HL) in Hm.
    rewrite Forall_forall in Hwithin.
    destruct (Hwithin _ Hm) as (r & Hr & Hreach).
    apply Hl in Hr. destruct Hr as (Hin & Hu & Hs).
    exact (Hv r Hin Hu Hs Hreach).
  - rewrite (replay_kill_ops_workflows _ _ HL).
    rewrite map_map. apply map_ext. intros r. apply finish_marked_uuid.
  - now apply replay_kill_ops_steps.
Qed.


(** ** Revive *)

Lemma kills_return l w :
  (forall x, In x l -> killable (w_db w) recursion_limit x) ->
  exists L, for_each l kill w = (Ok tt, commit L w) /\ forallb kill_op L = true /\
            forall x, In x l -> kill_covers (w_db w) L x.
Proof.
  intros Hk.
  destruct (for_each_returns (fun w0 x => killable (w_db w0) recursion_limit x) kill)
    with (l := l) (w := w) as (wk & Hkills & _).
  - intros x w0 Hx.
    destruct (kill_rec_returns recursion_limit x w0 Hx) as (w2 & Hrun2 & Hkeep).
    exists w2. split; [exact Hrun2|]. intros y. apply Hkeep.
  - exact Hk.
  - destruct (kill_for_each_sound _ _ _ Hkills) as (L & -> & HL & Hcov).
    exists L. auto.
Qed.

Lemma killable_transfer d d' :
  (forall v, find_workflow d v <> None -> find_workflow d' v <> None) ->
  (forall v s, running_step d' v s -> running_step d v s) ->
  forall n x, killable d n x -> killable d' n x.
Proof.
  intros Hpres Hrun n x H. induction H as [n u row Hrow _ IH].
  destruct (find_workflow d' u) as [row'|] eqn:Hrow'.
  - apply (killable_intro _ n u row' Hrow'). intros s x Hs Hx.
    apply (IH s x); [now apply Hrun|exact Hx].
  - exfalso. apply (Hpres u); congruence.
Qed.

Lemma reaches_running_mono d d' :
  (forall v s, running_step d v s -> running_step d' v s) ->
  forall x v, reaches_running d x v -> reaches_running d' x v.
Proof.
  intros Hrun x v H. induction H as [u|u s x v Hs Hx _ IH].
  - constructor.
  - eapply reaches_below; eauto.
Qed.

Lemma is_step_reset u n s : is_step u n (reset_step s) = is_step u n s.
Proof. reflexivity. Qed.

(** One round of the loop of [revive]. *)
Lemma revive_step_run s w :
  find_step (w_db w) (st_parent s) (st_name s) = Some s ->
  (forall x, In x (st_sub_workflows s) -> killable (w_db w) recursion_limit x) ->
  exists L, forallb kill_op L = true /\
            (forall x, In x (st_sub_workflows s) -> kill_covers (w_db w) L x) /\
            revive_step s w = (Ok tt, commit (revive_ops s L) w).
Proof.
  intros Hs Hk.
  destruct (kills_return _ _ Hk) as (L & Hkills & HL & Hcov).
  exists L. split; [exact HL|]. split; [exact Hcov|].
  set (u := st_parent s) in *. set (n := st_name s) in *.
  set (w1 := commit L w).
  assert (Hs1 : find_step (w_db w1) u n = Some s).
  { rewrite <- Hs. apply find_step_steps. now apply replay_kill_ops_steps. }
  set (w2 := commit [RemoveSubWorkflows u n] w1).
  set (s2 := mkDbWorkflowStep (st_parent s) (st_name s) (st_status s)
               (st_nextcall s) (st_calculations s) []).
  assert (Hs2 : find_step (w_db w2) u n = Some s2).
  { unfold w2, commit; cbn [w_db replay fold_left apply_op].
    rewrite find_step_upd_same by (intros; now split). now rewrite Hs1. }
  set (w3 := commit (map CalcKill (st_calculations s)) w2).
  assert (Hw : commit [RemoveCalculations u n; SetStepStatus u n INITIALIZED] w3
               = commit (revive_ops s L) w).
  { unfold w3, w2, w1, revive_ops, clean_ops. fold u n.
    rewrite !commit_app, <- !app_assoc. reflexivity. }
  unfold revive_step. fold u n.
  assert (Hsubs : get_sub_workflows s w = (Ok (st_sub_workflows s), w)).
  { unfold get_sub_workflows. mstep (eq_refl : get_db w = (Ok (w_db w), w)).
    fold u n. now rewrite Hs. }
  mstep Hsubs. mstep Hkills. fold w1.
  mstep (write_commit (RemoveSubWorkflows u n) w1). fold w2.
  assert (Hcalcs : get_step_calcs s w2 = (Ok (st_calculations s), w2)).
  { unfold get_step_calcs. mstep (eq_refl : get_db w2 = (Ok (w_db w2), w2)).
    fold u n. now rewrite Hs2. }
  mstep Hcalcs.
  mstep (for_each_write CalcKill (st_calculations s) w2). fold w3.
  mstep (write_commit (RemoveCalculations u n) w3).
  rewrite write_commit, commit_app. cbn [app]. now rewrite Hw.
Qed.

Lemma replay_revive_ops_steps s L d :
  forallb kill_op L = true ->
  db_steps (replay (revive_ops s L) d)
  = map (fun s0 => if is_step (st_parent s) (st_name s) s0 then reset_step s0 else s0)
        (db_steps d).
Proof.
  intros HL. unfold revive_ops, clean_ops.
  rewrite !replay_app, !replay_cons, !replay_nil. cbn [apply_op upd_step db_steps].
  rewrite (proj1 (replay_calc_ops _ _ (calc_ops_kills (st_calculations s)))).
  cbn [upd_step db_steps].
  rewrite (replay_kill_ops_steps _ _ HL), !map_map.
  apply map_ext. intros s0.
  destruct (is_step (st_parent s) (st_name s) s0) eqn:E.
  - cbn [st_parent st_name is_step]. unfold is_step in E |- *. cbn [st_parent st_name].
    rewrite E. cbn [st_parent st_name]. rewrite E. reflexivity.
  - rewrite E. now rewrite E.
Qed.

Lemma replay_revive_ops_workflows s L d :
  forallb kill_op L = true ->
  db_workflows (replay (revive_ops s L) d) = map (finish_marked L) (db_workflows d).
Proof.
  intros HL. unfold revive_ops, clean_ops.
  rewrite <- app_assoc, replay_app.
  rewrite replay_keeps_workflows.
  - now apply replay_kill_ops_workflows.
  - rewrite !forallb_app. cbn. rewrite !andb_true_r.
    clear. induction (st_calculations s); cbn; auto.
Qed.

Lemma finish_marked_app L1 L2 r :
  finish_marked L2 (finish_marked L1 r) = finish_marked (L1 ++ L2) r.
Proof.
  unfold finish_marked, marks. rewrite existsb_app.
  destruct (existsb _ L1) eqn:E1; cbn [orb wf_uuid with_wf_status].
  - destruct (existsb _ L2); reflexivity.
  - reflexivity.
Qed.

Lemma marks_app L1 L2 v : marks (L1 ++ L2) v = marks L1 v || marks L2 v.
Proof. unfold marks. apply existsb_app. Qed.

Lemma find_workflow_marked L d d' v :
  db_workflows d' = map (finish_marked L) (db_workflows d) ->
  find_workflow d' v = option_map (finish_marked L) (find_workflow d v).
Proof.
  intros H. unfold find_workflow. rewrite H.
  apply find_map_uuid. apply finish_marked_uuid.
Qed.

Lemma NoDup_map_filter {A B} (f : A -> B) (p : A -> bool) l :
  NoDup (map f l) -> NoDup (map f (filter p l)).
Proof.
  induction l as [|a l IH]; cbn; intros H; [constructor|].
  inversion H as [|x l' Hnin Hnd]; subst.
  destruct (p a); cbn; [constructor|]; auto.
  intros Hin. apply Hnin. apply in_map_iff in Hin. destruct Hin as (b & Hb & Hin).
  apply filter_In in Hin. apply in_map_iff. exists b. tauto.
Qed.

Lemma NoDup_map_inj {A B} (f : A -> B) l a b :
  NoDup (map f l) -> In a l -> In b l -> f a = f b -> a = b.
Proof.
  induction l as [|c l IH]; cbn; intros H Ha Hb Hf; [contradiction|].
  inversion H as [|x l' Hnin Hnd]; subst.
  destruct Ha as [->|Ha], Hb as [->|Hb]; auto.
  - exfalso. apply Hnin. rewrite Hf. now apply in_map.
  - exfalso. apply Hnin. rewrite <- Hf. now apply in_map.
Qed.

(** The loop of [revive] over steps in ERROR whose names are distinct
    and which are the only records of their names. *)
Lemma revive_loop u l : forall w,
  (forall s, In s l ->
     st_parent s = u /\ st_status s = ERROR /\ In s (db_steps (w_db w))) ->
  (forall s s0, In s l -> In s0 (db_steps (w_db w)) ->
     is_step u (st_name s) s0 = true -> s0 = s) ->
  NoDup (map st_name l) ->
  (forall s x, In s l -> In x (st_sub_workflows s) ->
     killable (w_db w) recursion_limit x) ->
  exists ops L,
    for_each l revive_step w = (Ok tt, commit ops w) /\
    forallb kill_op L = true /\
    db_steps (replay ops (w_db w))
    = map (fun s0 => if existsb (fun s => is_step u (st_name s) s0) l
                     then reset_step s0 else s0) (db_steps (w_db w)) /\
    db_workflows (replay ops (w_db w)) = map (finish_marked L) (db_workflows (w_db w)) /\
    (forall s x v, In s l -> In x (st_sub_workflows s) ->
       reaches_running (w_db w) x v ->
       find_workflow (w_db w) v <> None /\ marks L v = true) /\
    (forall s c, In s l -> In c (st_calculations s) -> In (CalcKill c) ops).
Proof.
  induction l as [|s l IH]; intros w Hl Huniq Hnd Hk.
  - exists [], []. rewrite commit_nil. split; [reflexivity|]. split; [reflexivity|].
    split.
    { cbn. rewrite <- (map_id (db_steps (w_db w))) at 1. now apply map_ext. }
    split.
    { cbn. rewrite <- (map_id (db_workflows (w_db w))) at 1. now apply map_ext. }
    split; [intros ? ? ? []|intros ? ? []].
  - destruct (Hl s (or_introl eq_refl)) as (Hp & Herr & Hin).
    assert (Hs : find_step (w_db w) (st_parent s) (st_name s) = Some s).
    { rewrite Hp. destruct (find_step (w_db w) u (st_name s)) as [s0|] eqn:Hf.
      - unfold find_step in Hf. apply find_some in Hf. destruct Hf as [Hin0 Hkey].
        f_equal. apply (Huniq s s0); auto. now left.
      - exfalso. unfold find_step in Hf.
        pose proof (find_none _ _ Hf s Hin) as Hno. unfold is_step in Hno.
        rewrite Hp, Nat.eqb_refl, String.eqb_refl in Hno. discriminate. }
    destruct (revive_step_run s w Hs (fun x => Hk s x (or_introl eq_refl)))
      as (L1 & HL1 & Hcov1 & Hrun1).
    set (w1 := commit (revive_ops s L1) w) in *.
    set (g1 := fun s0 => if is_step u (st_name s) s0 then reset_step s0 else s0).
    assert (Hsteps1 : db_steps (w_db w1) = map g1 (db_steps (w_db w))).
    { unfold w1, commit; cbn [w_db].
      rewrite (replay_revive_ops_steps _ _ _ HL1), Hp. reflexivity. }
    assert (Hwfs1 : db_workflows (w_db w1)
                    = map (finish_marked L1) (db_workflows (w_db w))).
    { unfold w1, commit; cbn [w_db]. now apply replay_revive_ops_workflows. }
    assert (Hg1 : forall s0, In s0 (db_steps (w_db w)) -> s0 <> s -> g1 s0 = s0).
    { intros s0 Hin0 Hne. unfold g1.
      destruct (is_step u (st_name s) s0) eqn:E; [|reflexivity].
      exfalso. apply Hne. apply (Huniq s s0); auto. now left. }
    assert (Hkey1 : forall n s0, is_step u n (g1 s0) = is_step u n s0).
    { intros n s0. unfold g1. now destruct (is_step u (st_name s) s0). }
    assert (Hfwd : forall v s0, running_step (w_db w) v s0 -> running_step (w_db w1) v s0).
    { intros v s0 (Hin0 & Hpar0 & Hst0). split; [|now split]. rewrite Hsteps1.
      assert (Hne : s0 <> s) by (intros ->; rewrite Herr in Hst0; discriminate).
      rewrite <- (Hg1 s0 Hin0 Hne) at 1. now apply in_map. }
    assert (Hbwd : forall v s0, running_step (w_db w1) v s0 -> running_step (w_db w) v s0).
    { intros v s0' (Hin0 & Hpar0 & Hst0). rewrite Hsteps1 in Hin0.
      apply in_map_iff in Hin0. destruct Hin0 as (s0 & <- & Hin0).
      unfold g1 in *. destruct (is_step u (st_name s) s0) eqn:E.
      - cbn in Hst0. discriminate.
      - now split. }
    assert (Hpres1 : forall v, find_workflow (w_db w) v <> None <->
                               find_workflow (w_db w1) v <> None).
    { intros v. rewrite (find_workflow_marked L1 (w_db w) (w_db w1) v Hwfs1).
      destruct (find_workflow (w_db w) v); cbn; split; congruence. }
    cbn [map] in Hnd. apply NoDup_cons_iff in Hnd. destruct Hnd as [Hnin Hnd'].
    assert (Hne : forall s', In s' l -> s' <> s).
    { intros s' Hs' ->. apply Hnin. now apply in_map. }
    destruct (IH w1) as (ops2 & L2 & Hrun2 & HL2 & Hsteps2 & Hwfs2 & Hmarks2 & Hcalc2).
    { intros s' Hs'. destruct (Hl s' (or_intror Hs')) as (Hp' & Herr' & Hin').
      split; [exact Hp'|]. split; [exact Herr'|].
      rewrite Hsteps1. rewrite <- (Hg1 s' Hin' (Hne s' Hs')) at 1. now apply in_map. }
    { intros s' s0' Hs' Hin0' Hkey. rewrite Hsteps1 in Hin0'.
      apply in_map_iff in Hin0'. destruct Hin0' as (s0 & <- & Hin0).
      rewrite Hkey1 in Hkey.
      rewrite (Huniq s' s0 (or_intror Hs') Hin0 Hkey).
      destruct (Hl s' (or_intror Hs')) as (_ & _ & Hin').
      apply Hg1; auto. }
    { exact Hnd'. }
    { intros s' x Hs' Hx. apply (killable_transfer (w_db w)).
      - intros v. apply Hpres1.
      - exact Hbwd.
      - apply (Hk s' x); [now right|exact Hx]. }
    exists (revive_ops s L1 ++ ops2), (L1 ++ L2).
    split.
    { cbn [for_each]. mstep Hrun1. rewrite Hrun2. unfold w1. now rewrite commit_app. }
    split; [rewrite forallb_app; now rewrite HL1, HL2|].
    split.
    { rewrite replay_app.
      change (replay (revive_ops s L1) (w_db w)) with (w_db w1).
      rewrite Hsteps2, Hsteps1, map_map. apply map_ext. intros s0.
      cbn [existsb]. unfold g1.
      destruct (is_step u (st_name s) s0) eqn:E; cbn [orb]; [|reflexivity].
      destruct (existsb _ l); reflexivity. }
    split.
    { rewrite replay_app.
      change (replay (revive_ops s L1) (w_db w)) with (w_db w1).
      rewrite Hwfs2, Hwfs1, map_map. apply map_ext. intros r.
      apply finish_marked_app. }
    split.
    { intros s' x v [<-|Hs'] Hx Hv.
      - destruct (Hcov1 x Hx) as [Hwf _]. destruct (Hwf v Hv) as [Hex Hin'].
        split; [exact Hex|]. rewrite marks_app.
        apply (marks_In _ _ HL1) in Hin'. now rewrite Hin'.
      - destruct (Hmarks2 s' x v Hs' Hx (reaches_running_mono _ _ Hfwd _ _ Hv))
          as [Hex Hm].
        split; [now apply Hpres1|]. rewrite marks_app, Hm. apply orb_true_r. }
    intros s' c [<-|Hs'] Hc; apply in_or_app.
    + left. unfold revive_ops, clean_ops. apply in_or_app. left.
      apply in_or_app. right. cbn [app]. right. apply in_or_app. left.
      now apply in_map.
    + right. eapply Hcalc2; eauto.
Qed.

Lemma find_step_map g d d' u n :
  (forall s, st_parent (g s) = st_parent s /\ st_name (g s) = st_name s) ->
  db_steps d' = map g (db_steps d) ->
  find_step d' u n = option_map g (find_step d u n).
Proof.
  intros Hg H. unfold find_step. rewrite H. clear H.
  induction (db_steps d) as [|s l IH]; [reflexivity|]. cbn [map find].
  assert (E : is_step u n (g s) = is_step u n s).
  { unfold is_step. destruct (Hg s) as [-> ->]. reflexivity. }
  rewrite E. destruct (is_step u n s); [reflexivity|exact IH].
Qed.

Lemma revived_key u s :
  st_parent (revived u s) = st_parent s /\ st_name (revived u s) = st_name s.
Proof.
  unfold revived. now destruct (Nat.eqb (st_parent s) u && wf_states_eqb (st_status s) ERROR).
Qed.

(** [revive] on a stored workflow whose steps have distinct names. *)
Lemma revive_run w u row :
  stored w u row ->
  NoDup (map st_name (steps_of (w_db w) u)) ->
  (forall s x, In s (steps_of (w_db w) u) -> st_status s = ERROR ->
     In x (st_sub_workflows s) -> killable (w_db w) recursion_limit x) ->
  exists w',
    revive w = (Ok tt, w') /\
    w_self w' = w_self w /\
    find_workflow (w_db w') u = Some (resealed row) /\
    db_steps (w_db w') = map (revived u) (db_steps (w_db w)) /\
    (forall s x v, In s (steps_of (w_db w) u) -> st_status s = ERROR ->
       In x (st_sub_workflows s) -> reaches_running (w_db w) x v -> v <> u ->
       wf_status_of (w_db w') v = Some FINISHED) /\
    (forall s c, In s (steps_of (w_db w) u) -> st_status s = ERROR ->
       In c (st_calculations s) -> In (CalcKill c) (w_log w')).
Proof.
  intros [Hself Hrow] Hnd Hk.
  pose proof (find_workflow_uuid _ _ _ Hrow) as Hu.
  set (row0 := mkDbWorkflow (wf_pk row) (wf_uuid row) (wf_module row)
                 (wf_module_class row) (wf_script_path row)
                 (md5 (wf_script_path row)) (wf_status row) (wf_report row)).
  assert (Hfetch : fetch u w = (Ok row, w)) by (unfold fetch; now rewrite Hrow).
  (* the fingerprint *)
  assert (Hseal : exists w0,
    (if negb (String.eqb (wf_script_md5 row) (md5 (wf_script_path row)))
     then r <- fetch u ;; set_script_md5 (wf_uuid r) (md5 (wf_script_path row))
     else ret tt) w = (Ok tt, w0) /\
    w_self w0 = w_self w /\ w_log w0 = w_log w /\
    db_steps (w_db w0) = db_steps (w_db w) /\
    find_workflow (w_db w0) u = Some row0 /\
    (forall v, find_workflow (w_db w) v <> None -> find_workflow (w_db w0) v <> None) /\
    (forall v, find_workflow (w_db w0) v <> None -> find_workflow (w_db w) v <> None)).
  { destruct (String.eqb (wf_script_md5 row) (md5 (wf_script_path row))) eqn:E;
      cbn [negb].
    - exists w. apply String.eqb_eq in E.
      repeat (split; [reflexivity|]). split; [|split; auto].
      rewrite Hrow. f_equal. unfold row0. rewrite <- E. now destruct row.
    - eexists. split.
      { mstep Hfetch. unfold set_script_md5, modify_db. reflexivity. }
      cbn [w_self w_log w_db]. repeat (split; [reflexivity|]).
      split.
      { rewrite Hu, find_workflow_upd_same by reflexivity. now rewrite Hrow. }
      assert (Hsame : forall v,
        option_map wf_uuid (find_workflow
          (upd_wf u (fun r => mkDbWorkflow (wf_pk r) (wf_uuid r) (wf_module r)
                      (wf_module_class r) (wf_script_path r)
                      (md5 (wf_script_path row)) (wf_status r) (wf_report r))
                  (w_db w)) v)
        = option_map wf_uuid (find_workflow (w_db w) v)).
      { intros v. now apply find_workflow_upd_uuid. }
      rewrite Hu.
      split; intros v Hv; specialize (Hsame v);
        destruct (find_workflow (w_db w) v), (find_workflow (upd_wf _ _ _) v);
        cbn in Hsame; congruence. }
  destruct Hseal as (w0 & Hphase & Hself0 & Hlog0 & Hsteps0 & Hrow0 & Hpres0 & Hpres0').
  assert (Hsteps_of : steps_of (w_db w0) u = steps_of (w_db w) u).
  { unfold steps_of. now rewrite Hsteps0. }
  set (l := filter (fun s => wf_states_eqb (st_status s) ERROR) (steps_of (w_db w) u)).
  assert (Hl : forall s, In s l <->
            In s (db_steps (w_db w)) /\ st_parent s = u /\ st_status s = ERROR).
  { intros s. unfold l, steps_of. rewrite !filter_In, Nat.eqb_eq, wf_states_eqb_eq.
    tauto. }
  assert (Huniq : forall s s0, In s l -> In s0 (db_steps (w_db w)) ->
            is_step u (st_name s) s0 = true -> s0 = s).
  { intros s s0 Hs Hin0 Hkey. apply Hl in Hs. destruct Hs as (Hin & Hp & _).
    unfold is_step in Hkey. apply andb_true_iff in Hkey. destruct Hkey as [Hk1 Hk2].
    apply Nat.eqb_eq in Hk1. apply String.eqb_eq in Hk2.
    apply (NoDup_map_inj st_name (steps_of (w_db w) u)); auto;
      unfold steps_of; apply filter_In; split; auto; now apply Nat.eqb_eq. }
  destruct (revive_loop u l w0) as (ops & L & Hloop & HL & Hsteps & Hwfs & Hmarks & Hcalcs).
  { intros s Hs. apply Hl in Hs. rewrite Hsteps0. tauto. }
  { intros s s0 Hs Hin0. rewrite Hsteps0 in Hin0. now apply Huniq. }
  { unfold l. now apply NoDup_map_filter. }
  { intros s x Hs Hx. apply (killable_transfer (w_db w)).
    - exact Hpres0.
    - intros v s0. apply running_step_steps. exact Hsteps0.
    - pose proof (proj1 (Hl s) Hs) as (Hin & Hp & Herr).
      apply (Hk s x); auto. unfold steps_of. apply filter_In. split; [exact Hin|].
      now apply Nat.eqb_eq. }
  set (w1 := commit ops w0) in *.
  assert (Hrow1 : find_workflow (w_db w1) u = Some (finish_marked L row0)).
  { rewrite (find_workflow_marked L (w_db w0) (w_db w1) u Hwfs). now rewrite Hrow0. }
  assert (Hrun : revive w = (Ok tt, commit [SetWfStatus u RUNNING] w1)).
  { unfold revive. mstep (eq_refl : get_self w = (Ok (w_self w), w)). rewrite Hself.
    unfold revive_of. mstep Hfetch. cbn beta zeta. mstep Hphase.
    assert (Hget : get_steps u (Some ERROR) w0 = (Ok l, w0)).
    { unfold get_steps.
      assert (Hf0 : fetch u w0 = (Ok row0, w0)) by (unfold fetch; now rewrite Hrow0).
      mstep Hf0. mstep (eq_refl : get_db w0 = (Ok (w_db w0), w0)).
      unfold row0 at 1. cbn [wf_uuid]. rewrite Hu, Hsteps_of. reflexivity. }
    mstep Hget. mstep Hloop. fold w1.
    assert (Hf1 : fetch u w1 = (Ok (finish_marked L row0), w1))
      by (unfold fetch; now rewrite Hrow1).
    mstep Hf1. rewrite finish_marked_uuid. unfold row0. cbn [wf_uuid]. rewrite Hu.
    apply write_commit. }
  exists (commit [SetWfStatus u RUNNING] w1). split; [exact Hrun|].
  split; [cbn; exact Hself0|].
  split.
  { unfold commit at 1; cbn [w_db replay fold_left apply_op].
    rewrite find_workflow_upd_same by reflexivity. rewrite Hrow1.
    cbn [option_map]. f_equal. unfold finish_marked, row0, resealed.
    now destruct (marks L _). }
  split.
  { unfold commit at 1; cbn [w_db replay fold_left apply_op upd_wf db_steps].
    unfold w1, commit; cbn [w_db]. rewrite Hsteps, Hsteps0.
    apply map_ext_in. intros s0 Hin0. unfold revived.
    destruct (existsb (fun s => is_step u (st_name s) s0) l) eqn:E1;
      destruct (Nat.eqb (st_parent s0) u && wf_states_eqb (st_status s0) ERROR) eqn:E2;
      try reflexivity; exfalso.
    - apply existsb_exists in E1. destruct E1 as (s & Hs & Hkey).
      pose proof (Huniq s s0 Hs Hin0 Hkey) as ->.
      apply Hl in Hs. destruct Hs as (_ & Hp & Herr).
      rewrite Hp, Herr, Nat.eqb_refl in E2. discriminate.
    - apply andb_true_iff in E2. destruct E2 as [Hp Herr].
      apply Nat.eqb_eq in Hp. apply wf_states_eqb_eq in Herr.
      assert (Hs0 : In s0 l) by (apply Hl; auto).
      assert (Hex : existsb (fun s => is_step u (st_name s) s0) l = true).
      { apply existsb_exists. exists s0. split; [exact Hs0|].
        unfold is_step. now rewrite Hp, Nat.eqb_refl, String.eqb_refl. }
      congruence. }
  split.
  { intros s x v Hs Herr Hx Hv Hne.
    assert (Hsl : In s l).
    { apply Hl. unfold steps_of in Hs. apply filter_In in Hs. destruct Hs as [Hin Hp].
      apply Nat.eqb_eq in Hp. auto. }
    destruct (Hmarks s x v Hsl Hx) as [Hex Hm].
    { eapply reaches_running_steps; [|exact Hv]. now rewrite Hsteps0. }
    unfold wf_status_of.
    unfold commit at 1; cbn [w_db replay fold_left apply_op].
    rewrite find_workflow_upd_other by (try reflexivity; congruence).
    rewrite (find_workflow_marked L (w_db w0) (w_db w1) v Hwfs).
    destruct (find_workflow (w_db w0) v) as [rv|] eqn:Hrv; [|congruence].
    cbn [option_map]. unfold finish_marked.
    rewrite (find_workflow_uuid _ _ _ Hrv), Hm. reflexivity. }
  intros s c Hs Herr Hc.
  assert (Hsl : In s l).
  { apply Hl. unfold steps_of in Hs. apply filter_In in Hs. destruct Hs as [Hin Hp].
    apply Nat.eqb_eq in Hp. auto. }
  unfold commit, w1, commit; cbn [w_log].
  apply in_or_app. left. apply in_or_app. right. eapply Hcalcs; eauto.
Qed.

(** X11: [revive] on a stored workflow whose steps have distinct names,
    when the trees under the sub-workflows of its steps in ERROR fit the
    recursion limit.  The call returns; the record of the workflow
    carries the fingerprint of its script path again and is RUNNING, its
    other fields being the former ones; every step of the workflow that
    was in ERROR is INITIALIZED with both attachment lists empty and its
    pointer unchanged, and every other step record is the former one;
    the workflows reached from the sub-workflows of the steps in ERROR
    are FINISHED, [kill] has been called on every calculation these
    steps held, and no step of the workflow is left in ERROR. *)
Theorem revive_resets_error_steps w u row :
  stored w u row ->
  NoDup (map st_name (steps_of (w_db w) u)) ->
  (forall s x, In s (steps_of (w_db w) u) -> st_status s = ERROR ->
     In x (st_sub_workflows s) -> killable (w_db w) recursion_limit x) ->
  exists w',
    revive w = (Ok tt, w') /\
    w_self w' = w_self w /\
    find_workflow (w_db w') u = Some (resealed row) /\
    db_steps (w_db w') = map (revived u) (db_steps (w_db w)) /\
    (forall s x v, In s (steps_of (w_db w) u) -> st_status s = ERROR ->
       In x (st_sub_workflows s) -> reaches_running (w_db w) x v -> v <> u ->
       wf_status_of (w_db w') v = Some FINISHED) /\
    (forall s c, In s (steps_of (w_db w) u) -> st_status s = ERROR ->
       In c (st_calculations s) -> In (CalcKill c) (w_log w')) /\
    (forall s', In s' (db_steps (w_db w')) -> st_parent s' = u ->
       st_status s' <> ERROR).
Proof.
  intros Hst Hnd Hk.
  destruct (revive_run w u row Hst Hnd Hk)
    as (w' & Hrun & Hself & Hrow & Hsteps & Hfin & Hcalcs).
  exists w'. repeat (split; [assumption|]).
  intros s' Hin Hp. rewrite Hsteps in Hin. apply in_map_iff in Hin.
  destruct Hin as (s & <- & _). destruct (revived_key u s) as [Hp' _].
  rewrite Hp' in Hp. unfold revived. rewrite Hp, Nat.eqb_refl. cbn [andb].
  destruct (wf_states_eqb (st_status s) ERROR) eqn:E; [discriminate|].
  intros Herr. rewrite Herr in E. discriminate.
Qed.

(** X12: [revive] is what lets [next] through again.  On a stored
    workflow whose record does not carry the fingerprint of its script
    path, every [next] fails with [IntegrityViolation] and writes
    nothing; after [revive], no [next] fails with [IntegrityViolation],
    whoever the caller and whatever the method. *)
Theorem revive_lets_next_through w u row :
  stored w u row ->
  wf_script_md5 row <> md5 (wf_script_path row) ->
  NoDup (map st_name (steps_of (w_db w) u)) ->
  (forall s x, In s (steps_of (w_db w) u) -> st_status s = ERROR ->
     In x (st_sub_workflows s) -> killable (w_db w) recursion_limit x) ->
  (forall caller next_method,
     next caller next_method w = (Raise (IntegrityViolation (wf_script_path row)), w)) /\
  exists w',
    revive w = (Ok tt, w') /\
    forall caller next_method path,
      fst (next caller next_method w') <> Raise (IntegrityViolation path).
Proof.
  intros Hst Hmd5 Hnd Hk. split.
  { intros caller next_method. now apply (next_integrity_violation _ u). }
  destruct (revive_run w u row Hst Hnd Hk) as (w' & Hrun & Hself & Hrow & _).
  exists w'. split; [exact Hrun|]. intros caller next_method path.
  apply (next_after_store_never_IntegrityViolation w' u (resealed row)).
  - destruct Hst as [Hs _]. split; [now rewrite Hself|exact Hrow].
  - reflexivity.
Qed.

(** X13: [revive] keeps the pointer of a step it resets, and the
    wrapper looks at the pointer.  After [revive], an invocation without
    arguments of a step that was in ERROR finds the record INITIALIZED:
    when the pointer of the step is still the default one, or names the
    step itself, the prologue hands the emptied record to the body and
    writes nothing; when the step had named another successor before it
    failed, the invocation is refused with [StepAlreadyInitialized]. *)
Theorem revive_keeps_the_pointer w u row m s :
  _to_be_stored (w_self w) = false ->
  stored w u row ->
  NoDup (map st_name (steps_of (w_db w) u)) ->
  (forall s x, In s (steps_of (w_db w) u) -> st_status s = ERROR ->
     In x (st_sub_workflows s) -> killable (w_db w) recursion_limit x) ->
  String.eqb m wf_exit_call = false ->
  find_step (w_db w) u m = Some s -> st_status s = ERROR ->
  exists w',
    revive w = (Ok tt, w') /\
    find_step (w_db w') u m = Some (reset_step s) /\
    step_prologue m 0 w'
    = if String.eqb (st_nextcall s) wf_default_call || String.eqb (st_nextcall s) m
      then (Ok (reset_step s), w')
      else (Raise (StepAlreadyInitialized m), w').
Proof.
  intros Hcommitted Hst Hnd Hk Hm Hs Herr.
  destruct (revive_run w u row Hst Hnd Hk) as (w' & Hrun & Hself & Hrow & Hsteps & _).
  exists w'. split; [exact Hrun|].
  destruct (find_step_key _ _ _ _ Hs) as [Hp Hn].
  assert (Hs' : find_step (w_db w') u m = Some (reset_step s)).
  { rewrite (find_step_map (revived u) (w_db w) (w_db w') u m (revived_key u) Hsteps), Hs.
    cbn [option_map]. unfold revived.
    now rewrite Hp, Herr, Nat.eqb_refl. }
  split; [exact Hs'|].
  assert (Hst' : stored w' u (resealed row)).
  { destruct Hst as [Hu _]. split; [now rewrite Hself|exact Hrow]. }
  assert (Hcommitted' : _to_be_stored (w_self w') = false) by now rewrite Hself.
  rewrite (step_prologue_stored _ _ _ _ _ Hcommitted' Hst' Hm), Hs'.
  cbn [Nat.ltb Nat.leb].
  unfold reenterable, restartable. cbn [reset_step st_status st_nextcall wf_states_eqb orb].
  destruct (String.eqb (st_nextcall s) wf_default_call || String.eqb (st_nextcall s) m);
    cbn [negb]; [|reflexivity].
  now rewrite (steps_get_or_create_stored _ _ _ _ Hst'), Hs'.
Qed.

(** ** Reading and clearing the report *)

Lemma find_workflow_upd_wf x f d v :
  (forall r, wf_uuid (f r) = wf_uuid r) ->
  find_workflow (upd_wf x f d) v
  = if Nat.eqb x v then option_map f (find_workflow d v) else find_workflow d v.
Proof.
  intros Hf. destruct (Nat.eqb x v) eqn:E.
  - apply Nat.eqb_eq in E. subst. now apply find_workflow_upd_same.
  - apply Nat.eqb_neq in E. now apply find_workflow_upd_other.
Qed.

Lemma readable_root_report_root importable d n u r :
  readable_root importable d n u r -> report_root d n u r.
Proof. induction 1; econstructor; eauto. Qed.

(** The chain to the root is the same after a change of the tables that
    keeps the steps, the records and the classes of the records. *)
Lemma readable_root_transfer importable d d' n u r :
  db_steps d' = db_steps d ->
  (forall v row, find_workflow d v = Some row ->
     exists row', find_workflow d' v = Some row' /\
       wf_module row' = wf_module row /\
       wf_module_class row' = wf_module_class row) ->
  readable_root importable d n u r -> readable_root importable d' n u r.
Proof.
  intros Hsteps Hrows H.
  assert (Hp : forall v, parent_workflow_step d' v = parent_workflow_step d v)
    by (intros v; unfold parent_workflow_step; now rewrite Hsteps).
  induction H as [u row Hrow Hpar|n u row s r Hrow Hpar Hload _ IH].
  - destruct (Hrows _ _ Hrow) as (row' & Hrow' & _).
    apply (readable_root_here _ _ u row'); [exact Hrow'|now rewrite Hp].
  - destruct (Hrows _ _ Hrow) as (row' & Hrow' & _).
    apply (readable_root_up _ _ n u row' s r);
      [exact Hrow'|now rewrite Hp| |exact IH].
    destruct Hload as (prow & wf_mod & name & Hprow & Himp & Hcls).
    destruct (Hrows _ _ Hprow) as (prow' & Hprow' & Hm & Hc).
    exists prow', wf_mod, name. rewrite Hm, Hc. auto.
Qed.

Lemma get_report_rec_run splitlines importable w n u r report :
  readable_root importable (w_db w) n u r ->
  wf_report_of (w_db w) r = Some report ->
  forall depth, n < depth ->
  get_report_rec splitlines importable depth u w = (Ok (splitlines report), w).
Proof.
  induction 1 as [u row Hrow Hp|n u row s r Hrow Hp Hload Hup IH];
    intros Hrep depth Hd;
    (destruct depth as [|depth]; [lia|]); cbn [get_report_rec];
    unfold fetch at 1, bind at 1; rewrite Hrow;
    unfold get_db at 1, bind at 1; rewrite (find_workflow_uuid _ _ _ Hrow), Hp.
  - unfold wf_report_of in Hrep. rewrite Hrow in Hrep. now inversion Hrep.
  - pose proof (get_subclass_loadable _ _ _ Hload) as Hsub.
    destruct Hload as (prow & wf_mod & name & Hprow & _).
    unfold fetch at 1, bind at 1. rewrite Hprow.
    unfold get_db, bind at 1. unfold lift, bind at 1.
    rewrite (find_workflow_uuid _ _ _ Hprow), Hsub. cbn [_dbworkflowinstance].
    apply IH; [exact Hrep|lia].
Qed.

Lemma get_report_run splitlines importable w n u r report :
  _dbworkflowinstance (w_self w) = Some u ->
  readable_root importable (w_db w) n u r -> n < recursion_limit ->
  wf_report_of (w_db w) r = Some report ->
  get_report splitlines importable w = (Ok (splitlines report), w).
Proof.
  intros Hu Hroot Hn Hrep. unfold get_report.
  mstep (eq_refl : get_self w = (Ok (w_self w), w)). rewrite Hu.
  now apply (get_report_rec_run splitlines importable w n u r).
Qed.

Lemma clear_report_rec_run w n u r :
  report_root (w_db w) n u r ->
  forall depth, n < depth ->
  clear_report_rec depth u w = (Ok tt, report_cleared r w).
Proof.
  induction 1 as [u row Hrow Hp|n u row s r Hrow Hp Hup IH]; intros depth Hd;
    (destruct depth as [|depth]; [lia|]); cbn [clear_report_rec];
    unfold fetch at 1, bind at 1; rewrite Hrow;
    unfold get_db, bind at 1; rewrite (find_workflow_uuid _ _ _ Hrow), Hp.
  - reflexivity.
  - assert (Hparent : exists p, find_workflow (w_db w) (st_parent s) = Some p).
    { inversion Hup; eauto. }
    destruct Hparent as [p Hparent].
    unfold fetch, bind. rewrite Hparent, (find_workflow_uuid _ _ _ Hparent).
    apply IH. lia.
Qed.

(** X14: [get_report] reads what [append_to_report] wrote.  For a
    workflow [n] parent steps below a root, when the class of every
    workflow above it can be loaded, [get_report] returns the lines of
    the report of the root and changes nothing; and after
    [append_to_report] of a text it returns the lines of that report
    followed by the text and a line break. *)
Theorem get_report_reads_what_append_wrote splitlines importable text w n u r report :
  _dbworkflowinstance (w_self w) = Some u ->
  readable_root importable (w_db w) n u r -> n < recursion_limit ->
  wf_report_of (w_db w) r = Some report ->
  get_report splitlines importable w = (Ok (splitlines report), w) /\
  exists w',
    append_to_report text w = (Ok tt, w') /\
    get_report splitlines importable w'
    = (Ok (splitlines (report ++ text ++ newline)%string), w').
Proof.
  intros Hu Hroot Hn Hrep.
  split; [now apply (get_report_run splitlines importable w n u r)|].
  exists (commit [AppendReport r text] w). split.
  { apply (append_to_report_run text w n u r); auto.
    now apply (readable_root_report_root importable). }
  apply (get_report_run splitlines importable _ n u r); auto.
  - unfold commit; cbn [w_db replay fold_left].
    apply (readable_root_transfer importable (w_db w)); [reflexivity| |exact Hroot].
    intros v row Hrow. cbn [apply_op].
    rewrite find_workflow_upd_wf by reflexivity. rewrite Hrow.
    destruct (Nat.eqb r v); eexists; (split; [reflexivity|]); split; reflexivity.
  - unfold wf_report_of in *. unfold commit; cbn [w_db replay fold_left apply_op].
    rewrite find_workflow_upd_same by reflexivity.
    destruct (find_workflow (w_db w) r) as [row|]; [|discriminate].
    cbn in Hrep |- *. now inversion Hrep.
Qed.

(** X15: [clear_report] empties the report of the root and nothing
    else.  For a workflow [n] parent steps below a root [r], the call
    returns; the record of [r] differs from the former one in its report
    only, which is empty; every other workflow record, the step records
    and the log of the writes are the former ones; and when the classes
    above the workflow can be loaded, [get_report] then returns the
    lines of the empty string. *)
Theorem clear_report_empties_the_root w n u r :
  _dbworkflowinstance (w_self w) = Some u ->
  report_root (w_db w) n u r -> n < recursion_limit ->
  exists w',
    clear_report w = (Ok tt, w') /\
    find_workflow (w_db w') r = option_map with_empty_report (find_workflow (w_db w) r) /\
    wf_report_of (w_db w') r = Some "" /\
    (forall v, v <> r -> find_workflow (w_db w') v = find_workflow (w_db w) v) /\
    db_steps (w_db w') = db_steps (w_db w) /\
    w_log w' = w_log w /\
    forall splitlines importable,
      readable_root importable (w_db w) n u r ->
      get_report splitlines importable w' = (Ok (splitlines ""), w').
Proof.
  intros Hu Hroot Hn. exists (report_cleared r w).
  assert (Hfind : find_workflow (w_db (report_cleared r w)) r
                  = option_map with_empty_report (find_workflow (w_db w) r)).
  { unfold report_cleared; cbn [w_db]. now apply find_workflow_upd_same. }
  assert (Hrep : wf_report_of (w_db (report_cleared r w)) r = Some "").
  { unfold wf_report_of. rewrite Hfind.
    destruct (report_root_is_root _ _ _ _ Hroot) as [_ [row Hrow]].
    now rewrite Hrow. }
  split.
  { unfold clear_report. mstep (eq_refl : get_self w = (Ok (w_self w), w)).
    rewrite Hu. now apply (clear_report_rec_run w n u r). }
  split; [exact Hfind|]. split; [exact Hrep|].
  split.
  { intros v Hv. unfold report_cleared; cbn [w_db].
    apply find_workflow_upd_other; [reflexivity|congruence]. }
  split; [reflexivity|]. split; [reflexivity|].
  intros splitlines importable Hread.
  apply (get_report_run splitlines importable _ n u r); auto.
  apply (readable_root_transfer importable (w_db w)); [reflexivity| |exact Hread].
  intros v row Hrow. unfold report_cleared; cbn [w_db].
  rewrite find_workflow_upd_wf by reflexivity. rewrite Hrow.
  destruct (Nat.eqb r v); eexists; (split; [reflexivity|]); split; reflexivity.
Qed.

(** X16: [get_report] needs the class of the parent, [append_to_report]
    does not.  For a sub-workflow whose parent has a record with a module
    that cannot be imported, [get_report] fails with the [InternalError]
    of the resumer and changes nothing, while [append_to_report] on the
    same object still reaches the root. *)
Theorem get_report_needs_the_parent_class splitlines importable w u row s prow :
  stored w u row ->
  parent_workflow_step (w_db w) u = [s] ->
  find_workflow (w_db w) (st_parent s) = Some prow ->
  import_module importable (wf_module prow) = None ->
  0 < recursion_limit ->
  get_report splitlines importable w
  = (Raise (InternalError ("Unable to load the workflow module " ++ wf_module prow)), w) /\
  forall n r text,
    report_root (w_db w) n u r -> n < recursion_limit ->
    append_to_report text w = (Ok tt, commit [AppendReport r text] w).
Proof.
  intros [Hu Hrow] Hp Hprow Himp Hlimit. split.
  - unfold get_report. mstep (eq_refl : get_self w = (Ok (w_self w), w)). rewrite Hu.
    destruct recursion_limit as [|depth]; [lia|]. cbn [get_report_rec].
    unfold fetch at 1, bind at 1. rewrite Hrow.
    unfold get_db at 1, bind at 1. rewrite (find_workflow_uuid _ _ _ Hrow), Hp.
    unfold fetch at 1, bind at 1. rewrite Hprow.
    unfold get_db, bind at 1. unfold lift, bind at 1.
    rewrite (find_workflow_uuid _ _ _ Hprow).
    unfold get_subclass_from_uuid. rewrite Hprow.
    unfold get_subclass_from_dbnode. rewrite Himp. reflexivity.
  - intros n r text Hroot Hn. now apply (append_to_report_run text w n u r).
Qed.

(** ** One commit, and no path after it *)

Lemma tame_ret {A} (a : A) : tame (ret a).
Proof. intros w r w' H. inversion H. exists []. now rewrite commit_nil. Qed.

Lemma tame_raise {A} e : tame (@raise A e).
Proof. intros w r w' H. inversion H. exists []. now rewrite commit_nil. Qed.

Lemma tame_get_self : tame get_self.
Proof. intros w r w' H. inversion H. exists []. now rewrite commit_nil. Qed.

Lemma tame_get_db : tame get_db.
Proof. intros w r w' H. inversion H. exists []. now rewrite commit_nil. Qed.

Lemma tame_fetch u : tame (fetch u).
Proof.
  intros w r w' H. unfold fetch in H.
  destruct (find_workflow (w_db w) u); inversion H; exists []; now rewrite commit_nil.
Qed.

Lemma tame_write o : creates_workflow o = false -> tame (write o).
Proof.
  intros Ho w r w' H. rewrite write_commit in H. inversion H.
  exists [o]. split; [reflexivity|]. cbn. now rewrite Ho.
Qed.

Lemma tame_bind {A B} (m : M A) (k : A -> M B) :
  tame m -> (forall a, tame (k a)) -> tame (bind m k).
Proof.
  intros Hm Hk w r w' H. unfold bind in H.
  destruct (m w) as [[a|e] w1] eqn:E; destruct (Hm _ _ _ E) as (L1 & -> & HL1).
  - destruct (Hk a _ _ _ H) as (L2 & -> & HL2).
    exists (L1 ++ L2). rewrite commit_app. split; [reflexivity|].
    rewrite forallb_app. now rewrite HL1, HL2.
  - inversion H; subst. now exists L1.
Qed.

Lemma tame_for_each {A} (f : A -> M unit) l :
  (forall x, tame (f x)) -> tame (for_each l f).
Proof.
  intros Hf. induction l as [|x l IH]; cbn [for_each].
  - apply tame_ret.
  - apply tame_bind; [apply Hf|intros _; exact IH].
Qed.

Ltac tame_step :=
  first
    [ apply tame_ret | apply tame_raise | apply tame_get_self | apply tame_get_db
    | apply tame_fetch | apply tame_write; reflexivity
    | apply tame_bind; [|intros ?]
    | apply tame_for_each; intros ?
    | match goal with
      | |- tame (if ?b then _ else _) => destruct b
      | |- tame (match ?x with _ => _ end) => destruct x
      end ].

Lemma tame_dbworkflowinstance : tame dbworkflowinstance.
Proof. unfold dbworkflowinstance. repeat tame_step. Qed.

Lemma tame_get_step x : tame (get_step x).
Proof. unfold get_step. repeat tame_step. Qed.

Lemma tame_has_step x : tame (has_step x).
Proof. unfold has_step. apply tame_bind; [apply tame_get_step|intros ?; apply tame_ret]. Qed.

Lemma tame_get_step_attr name attr : tame (get_step_attr name attr).
Proof.
  unfold get_step_attr. apply tame_bind; [apply tame_get_step|intros ?].
  repeat tame_step.
Qed.

Lemma tame_get_steps u state : tame (get_steps u state).
Proof. unfold get_steps. repeat tame_step. Qed.

Lemma tame_kill_rec n : forall u, tame (kill_rec n u).
Proof.
  induction n as [|n IH]; intros u; cbn [kill_rec]; [apply tame_raise|].
  apply tame_bind; [apply tame_get_steps|intros steps].
  apply tame_bind.
  - apply tame_for_each. intros s. apply tame_bind.
    + unfold kill_step_calculations. repeat tame_step.
    + intros _. apply tame_for_each. intros x. apply IH.
  - intros _. repeat tame_step.
Qed.

Lemma tame_clean_step m : tame (clean_step m).
Proof.
  unfold clean_step.
  repeat first [ apply tame_get_step_attr
               | apply (tame_for_each kill); intros ?; apply tame_kill_rec
               | apply tame_bind; [|intros ?]
               | apply tame_for_each; intros ?
               | apply tame_write; reflexivity ].
Qed.

Lemma tame_steps_get_or_create name : tame (steps_get_or_create name).
Proof.
  unfold steps_get_or_create.
  apply tame_bind; [apply tame_dbworkflowinstance|intros row].
  repeat tame_step.
Qed.

(** On a stored object the prologue of the wrapper is tame. *)
Lemma step_prologue_tame m nargs w r w' :
  _to_be_stored (w_self w) = false ->
  step_prologue m nargs w = (r, w') ->
  exists L, w' = commit L w /\
            forallb (fun o => negb (creates_workflow o)) L = true.
Proof.
  intros Hcommitted H. unfold step_prologue in H.
  mstep (eq_refl : get_self w = (Ok (w_self w), w)) in H. rewrite Hcommitted in H.
  mstep (eq_refl : ret tt w = (Ok tt, w)) in H.
  revert H.
  match goal with |- ?X w = _ -> _ => assert (T : tame X) end.
  { repeat first [ apply tame_has_step | apply tame_get_step_attr
                 | apply tame_clean_step | apply tame_steps_get_or_create
                 | tame_step ]. }
  intros H. exact (T _ _ _ H).
Qed.

Lemma replay_no_create_length L : forall d,
  forallb (fun o => negb (creates_workflow o)) L = true ->
  List.length (db_workflows (replay L d)) = List.length (db_workflows d).
Proof.
  induction L as [|o L IH]; intros d HL; [reflexivity|].
  cbn [forallb] in HL. apply andb_true_iff in HL. destruct HL as [Ho HL].
  rewrite replay_cons, (IH _ HL).
  destruct o; try discriminate Ho; cbn [apply_op upd_wf upd_step upd_calc db_workflows];
    try reflexivity; apply List.length_map.
Qed.

(** The three ways [store] ends. *)
Lemma store_with_returns c w :
  store_calls_return c -> store_with c w = (Ok tt, after_store w).
Proof.
  destruct c as [a p f]. intros (Ha & Hp & Hf). cbn in Ha, Hp, Hf. subst.
  reflexivity.
Qed.

Lemma store_with_no_user c w e :
  sc_get_automatic_user c = Raise e -> store_with c w = (Raise e, w).
Proof.
  destruct c as [a p f]. cbn. intros ->. reflexivity.
Qed.

Lemma store_with_fails_late c w e :
  sc_get_automatic_user c = Ok tt ->
  sc_add_parameters c = Raise e \/
  (sc_add_parameters c = Ok tt /\ sc_replace_with_folder c = Raise e) ->
  store_with c w = (Raise e, after_failed_store w).
Proof.
  destruct c as [a p f]. cbn. intros -> [->|[-> ->]]; reflexivity.
Qed.

(** When the calls of [store] return, the prologue is the one of the
    engine above. *)
Lemma step_prologue_with_returns c m nargs w :
  store_calls_return c -> step_prologue_with c m nargs w = step_prologue m nargs w.
Proof.
  intros Hc. unfold step_prologue_with.
  mstep (eq_refl : get_self w = (Ok (w_self w), w)).
  destruct (_to_be_stored (w_self w)) eqn:Hnew.
  - mstep (store_with_returns c w Hc). symmetry. now apply step_prologue_store.
  - now mstep (eq_refl : ret tt w = (Ok tt, w)).
Qed.

(** On a stored object [store] is not called. *)
Lemma step_prologue_with_stored c m nargs w :
  _to_be_stored (w_self w) = false ->
  step_prologue_with c m nargs w = step_prologue m nargs w.
Proof.
  intros Hc. unfold step_prologue_with.
  mstep (eq_refl : get_self w = (Ok (w_self w), w)). rewrite Hc.
  now mstep (eq_refl : ret tt w = (Ok tt, w)).
Qed.

(** The rest of the prologue neither creates a workflow record nor
    touches the object. *)
Lemma step_prologue_stored_adds_none m nargs w :
  _to_be_stored (w_self w) = false ->
  _to_be_stored (w_self (snd (step_prologue m nargs w))) = false /\
  List.length (db_workflows (w_db (snd (step_prologue m nargs w))))
  = List.length (db_workflows (w_db w)).
Proof.
  intros Hc. destruct (step_prologue m nargs w) as [r w1] eqn:E.
  destruct (step_prologue_tame _ _ _ _ _ Hc E) as (L & -> & HL).
  cbn [snd]. split; [exact Hc|].
  unfold commit; cbn [w_db]. now apply replay_no_create_length.
Qed.

Lemma after_store_length w :
  List.length (db_workflows (w_db (after_store w)))
  = List.length (db_workflows (w_db w)) + 1.
Proof.
  unfold after_store; cbn [w_db apply_op db_workflows]. now rewrite List.length_app.
Qed.

(** X17: the wrapper commits a workflow once if [store] returns.  When
    the calls of [store] return, then whatever the outcome of the rest
    of the prologue (the step record or any of its errors), the object
    is no longer to be stored, the workflow table has grown by exactly
    one record if the object was to be stored and by none otherwise, a
    second invocation adds no record, and [add_path] and [remove_path]
    fail with their [ValueError] for all arguments.  On an object to be
    stored, when [get_automatic_user] raises, the wrapper raises the
    same and nothing has changed; when the parameters or the move of
    the folder raise, the wrapper raises the same after the record was
    created: the record is in the table, the object is still to be
    stored, and a second invocation in which the calls return creates a
    second record. *)
Theorem wrapper_commits_once_if_store_returns c m nargs w :
  (store_calls_return c ->
   _to_be_stored (w_self (snd (step_prologue_with c m nargs w))) = false /\
   List.length (db_workflows (w_db (snd (step_prologue_with c m nargs w))))
   = List.length (db_workflows (w_db w)) + (if _to_be_stored (w_self w) then 1 else 0) /\
   (forall c' m' nargs',
      List.length (db_workflows
                (w_db (snd (step_prologue_with c' m' nargs'
                              (snd (step_prologue_with c m nargs w))))))
      = List.length (db_workflows (w_db (snd (step_prologue_with c m nargs w))))) /\
   (forall src_abs dst_path,
      add_path (w_self (snd (step_prologue_with c m nargs w))) src_abs dst_path
      = PathValueError "Cannot insert a path after storing the node") /\
   (forall path,
      remove_path (w_self (snd (step_prologue_with c m nargs w))) path
      = PathValueError "Cannot delete a path after storing the node")) /\
  (_to_be_stored (w_self w) = true ->
   (forall e, sc_get_automatic_user c = Raise e ->
      step_prologue_with c m nargs w = (Raise e, w)) /\
   (forall e, sc_get_automatic_user c = Ok tt ->
      sc_add_parameters c = Raise e \/
      (sc_add_parameters c = Ok tt /\ sc_replace_with_folder c = Raise e) ->
      step_prologue_with c m nargs w = (Raise e, after_failed_store w) /\
      _to_be_stored (w_self (after_failed_store w)) = true /\
      db_workflows (w_db (after_failed_store w))
      = db_workflows (w_db w) ++ [new_record w] /\
      (forall src_abs dst_path,
         add_path (w_self (after_failed_store w)) src_abs dst_path
         = add_path (w_self w) src_abs dst_path) /\
      forall c' m' nargs', store_calls_return c' ->
        List.length (db_workflows
                  (w_db (snd (step_prologue_with c' m' nargs' (after_failed_store w)))))
        = List.length (db_workflows (w_db w)) + 2)).
Proof.
  split.
  - intros Hc. rewrite (step_prologue_with_returns c m nargs w Hc).
    assert (Hfirst :
              _to_be_stored (w_self (snd (step_prologue m nargs w))) = false /\
              List.length (db_workflows (w_db (snd (step_prologue m nargs w))))
              = List.length (db_workflows (w_db w))
                + (if _to_be_stored (w_self w) then 1 else 0)).
    { destruct (_to_be_stored (w_self w)) eqn:Hnew.
      - rewrite (step_prologue_store _ _ _ Hnew).
        destruct (step_prologue_stored_adds_none m nargs (after_store w) eq_refl)
          as [H1 H2].
        split; [exact H1|]. now rewrite H2, after_store_length.
      - destruct (step_prologue_stored_adds_none m nargs w Hnew) as [H1 H2].
        split; [exact H1|lia]. }
    destruct Hfirst as [Hfalse Hlen].
    split; [exact Hfalse|]. split; [exact Hlen|].
    split.
    { intros c' m' nargs'. rewrite (step_prologue_with_stored c' m' nargs' _ Hfalse).
      now apply step_prologue_stored_adds_none. }
    unfold add_path, remove_path. rewrite Hfalse. split; reflexivity.
  - intros Hnew. split.
    + intros e He. unfold step_prologue_with.
      mstep (eq_refl : get_self w = (Ok (w_self w), w)). rewrite Hnew.
      now mfail (store_with_no_user c w e He).
    + intros e Hu Hlate. split.
      { unfold step_prologue_with.
        mstep (eq_refl : get_self w = (Ok (w_self w), w)). rewrite Hnew.
        now mfail (store_with_fails_late c w e Hu Hlate). }
      split; [exact Hnew|]. split; [reflexivity|]. split; [reflexivity|].
      intros c' m' nargs' Hc'.
      rewrite (step_prologue_with_returns c' m' nargs' _ Hc').
      rewrite (step_prologue_store m' nargs' (after_failed_store w) Hnew).
      destruct (step_prologue_stored_adds_none m' nargs'
                  (after_store (after_failed_store w)) eq_refl) as [_ H2].
      rewrite H2, after_store_length.
      unfold after_failed_store; cbn [w_db apply_op db_workflows].
      rewrite List.length_app. cbn [List.length]. lia.
Qed.

(** * The database environment *)

Lemma option_string_eqb_eq a b : option_string_eqb a b = true <-> a = b.
Proof.
  destruct a as [x|], b as [y|]; cbn; try (split; congruence).
  rewrite String.eqb_eq. split; congruence.
Qed.

Lemma load_flag_set {S} (ext : Externals S) process profile (s : Env S) :
  LOAD_DBENV_CALLED (snd (_load_dbenv_noschemacheck ext process profile s)) = true.
Proof.
  unfold _load_dbenv_noschemacheck.
  destruct (LOAD_DBENV_CALLED s) eqn:Hflag; [exact Hflag|].
  cbn [CURRENT_AIIDADB_PROCESS AIIDADB_PROFILE LOAD_DBENV_CALLED].
  destruct (CURRENT_AIIDADB_PROCESS s) as [c|], process as [p|];
    cbn [option_string_eqb negb];
    try destruct (String.eqb p c);
    cbn [negb AIIDADB_PROFILE CURRENT_AIIDADB_PROCESS LOAD_DBENV_CALLED];
    destruct (AIIDADB_PROFILE s), profile;
    cbn [snd LOAD_DBENV_CALLED]; try reflexivity;
    match goal with
    | |- context [get_default_profile ?e ?x] => destruct (get_default_profile e x)
    end; reflexivity.
Qed.

Lemma check_schema_version_flag {S} (ext : Externals S) (s : Env S) :
  LOAD_DBENV_CALLED (snd (check_schema_version ext s)) = LOAD_DBENV_CALLED s.
Proof.
  unfold check_schema_version.
  destruct (negb (existsb _ (table_names s))); [reflexivity|].
  destruct (get_db_schema_version ext s) as [v|];
    match goal with
    | |- context [if ?b then _ else _] => destruct b
    end; reflexivity.
Qed.

(** X18: the environment can be loaded once, and a failed load counts.
    Whatever the outcome of [_load_dbenv_noschemacheck] and of
    [load_dbenv] (they may return, or fail on the profile, in
    [get_default_profile], in [django.setup] or on the version of the
    schema), [is_dbenv_loaded] answers [True] afterwards, and every
    further call of either, with any arguments, fails with
    [InvalidOperation] and changes nothing. *)
Theorem load_dbenv_only_once {S} (ext : Externals S) process profile (s : Env S) :
  is_dbenv_loaded (snd (_load_dbenv_noschemacheck ext process profile s)) = true /\
  is_dbenv_loaded (snd (load_dbenv ext process profile s)) = true /\
  forall s', s' = snd (_load_dbenv_noschemacheck ext process profile s) \/
             s' = snd (load_dbenv ext process profile s) ->
    forall (ext' : Externals S) process' profile',
      _load_dbenv_noschemacheck ext' process' profile' s'
      = (Fails (InvalidOperation "You cannot call load_dbenv multiple times!"), s') /\
      load_dbenv ext' process' profile' s'
      = (Fails (InvalidOperation "You cannot call load_dbenv multiple times!"), s').
Proof.
  assert (H1 : is_dbenv_loaded (snd (_load_dbenv_noschemacheck ext process profile s))
               = true) by apply load_flag_set.
  assert (H2 : is_dbenv_loaded (snd (load_dbenv ext process profile s)) = true).
  { unfold load_dbenv.
    destruct (_load_dbenv_noschemacheck ext process profile s) as [[[]|e] s1] eqn:E.
    - unfold is_dbenv_loaded. rewrite check_schema_version_flag.
      change s1 with (snd (Returns tt, s1)). rewrite <- E. apply load_flag_set.
    - change s1 with (snd (@Fails unit e, s1)). rewrite <- E. apply load_flag_set. }
  split; [exact H1|]. split; [exact H2|].
  intros s' Hs' ext' process' profile'.
  assert (Hflag : LOAD_DBENV_CALLED s' = true) by (destruct Hs' as [-> | ->]; assumption).
  assert (Hagain : _load_dbenv_noschemacheck ext' process' profile' s'
                   = (Fails (InvalidOperation "You cannot call load_dbenv multiple times!"),
                      s')).
  { unfold _load_dbenv_noschemacheck. now rewrite Hflag. }
  split; [exact Hagain|]. unfold load_dbenv. now rewrite Hagain.
Qed.

(** X19: a profile passed to the first [_load_dbenv_noschemacheck] is
    used or refused, never ignored.  When no profile is set yet, or the
    process passed differs from the current one (which drops the profile
    that was set), the profile passed becomes the current profile and
    the call ends as [django.setup] does; when a profile is set and the
    process is not changed, the call fails with [ValueError], keeps the
    profile that was set, and the environment counts as loaded. *)
Theorem load_dbenv_explicit_profile {S} (ext : Externals S) process p (s : Env S) :
  LOAD_DBENV_CALLED s = false ->
  (AIIDADB_PROFILE s = None \/
   (exists q, process = Some q /\ CURRENT_AIIDADB_PROCESS s <> Some q) ->
   fst (_load_dbenv_noschemacheck ext process (Some p) s) = django_setup ext /\
   AIIDADB_PROFILE (snd (_load_dbenv_noschemacheck ext process (Some p) s)) = Some p /\
   get_current_profile (snd (_load_dbenv_noschemacheck ext process (Some p) s)) = Some p /\
   DJANGO_SETTINGS_MODULE (snd (_load_dbenv_noschemacheck ext process (Some p) s))
   = Some "aiida.djsite.settings.settings") /\
  (forall old, AIIDADB_PROFILE s = Some old ->
   process = None \/ process = CURRENT_AIIDADB_PROCESS s ->
   fst (_load_dbenv_noschemacheck ext process (Some p) s)
   = Fails (ValueError
       "You are specifying a profile, but the settings_profile.AIIDADB_PROFILE is already set") /\
   AIIDADB_PROFILE (snd (_load_dbenv_noschemacheck ext process (Some p) s)) = Some old /\
   is_dbenv_loaded (snd (_load_dbenv_noschemacheck ext process (Some p) s)) = true).
Proof.
  intros Hflag. unfold _load_dbenv_noschemacheck, get_current_profile, is_dbenv_loaded.
  rewrite Hflag.
  cbn [CURRENT_AIIDADB_PROCESS AIIDADB_PROFILE LOAD_DBENV_CALLED].
  split.
  - intros [Hnone|(q & -> & Hq)].
    + rewrite Hnone.
      destruct (CURRENT_AIIDADB_PROCESS s) as [c|], process as [q|];
        cbn [option_string_eqb negb];
        try destruct (String.eqb q c);
        cbn [negb AIIDADB_PROFILE CURRENT_AIIDADB_PROCESS LOAD_DBENV_CALLED
               DJANGO_SETTINGS_MODULE fst snd];
        rewrite ?Hnone; cbn [fst snd AIIDADB_PROFILE LOAD_DBENV_CALLED
                               DJANGO_SETTINGS_MODULE]; auto.
    + assert (Hne : negb (option_string_eqb (Some q) (CURRENT_AIIDADB_PROCESS s)) = true).
      { destruct (option_string_eqb (Some q) (CURRENT_AIIDADB_PROCESS s)) eqn:E;
          [|reflexivity].
        apply option_string_eqb_eq in E. congruence. }
      destruct (CURRENT_AIIDADB_PROCESS s) as [c|]; rewrite Hne;
        cbn [fst snd AIIDADB_PROFILE LOAD_DBENV_CALLED DJANGO_SETTINGS_MODULE]; auto.
  - intros old Hold [-> | ->].
    + destruct (CURRENT_AIIDADB_PROCESS s) as [c|];
        cbn [AIIDADB_PROFILE]; rewrite Hold;
        cbn [fst snd AIIDADB_PROFILE LOAD_DBENV_CALLED]; auto.
    + destruct (CURRENT_AIIDADB_PROCESS s) as [c|];
        cbn [option_string_eqb negb AIIDADB_PROFILE]; rewrite ?String.eqb_refl;
        cbn [negb AIIDADB_PROFILE]; rewrite Hold;
        cbn [fst snd AIIDADB_PROFILE LOAD_DBENV_CALLED]; auto.
Qed.

(** X20: [check_schema_version].  Without the settings table the check
    returns and changes nothing.  With the table, and a store of
    settings that gives back what was set: when no version is stored,
    the check stores the version of the code and returns, and the check
    repeated then returns without a change; when the stored version is
    the one of the code it returns and changes nothing; when it is
    another one it fails with [ConfigurationError] and changes
    nothing. *)
Theorem check_schema_version_sets_or_compares {S} (ext : Externals S) (s : Env S) :
  (forall key value description store,
     get_global_setting ext key (set_global_setting ext key value description store)
     = Some value) ->
  (existsb (String.eqb "db_dbsetting") (table_names s) = false ->
   check_schema_version ext s = (Returns tt, s)) /\
  (existsb (String.eqb "db_dbsetting") (table_names s) = true ->
   match get_db_schema_version ext s with
   | None =>
       check_schema_version ext s
       = (Returns tt, set_db_schema_version ext (SCHEMA_VERSION ext) s) /\
       get_db_schema_version ext (set_db_schema_version ext (SCHEMA_VERSION ext) s)
       = Some (SCHEMA_VERSION ext) /\
       check_schema_version ext (set_db_schema_version ext (SCHEMA_VERSION ext) s)
       = (Returns tt, set_db_schema_version ext (SCHEMA_VERSION ext) s)
   | Some v =>
       check_schema_version ext s
       = if String.eqb (SCHEMA_VERSION ext) v then (Returns tt, s)
         else (Fails (schema_mismatch (SCHEMA_VERSION ext) v (get_current_profile s)), s)
   end).
Proof.
  intros Hlaw. split.
  - intros Htable. unfold check_schema_version. now rewrite Htable.
  - intros Htable.
    assert (Hset : get_db_schema_version ext
                     (set_db_schema_version ext (SCHEMA_VERSION ext) s)
                   = Some (SCHEMA_VERSION ext)).
    { unfold get_db_schema_version, set_db_schema_version; cbn [dbsetting].
      apply Hlaw. }
    destruct (get_db_schema_version ext s) as [v|] eqn:Hv.
    + unfold check_schema_version. rewrite Htable, Hv. cbn [negb option_string_eqb].
      reflexivity.
    + split; [|split; [exact Hset|]].
      * unfold check_schema_version. rewrite Htable, Hv, Hset.
        cbn [negb option_string_eqb]. now rewrite String.eqb_refl.
      * unfold check_schema_version.
        change (table_names (set_db_schema_version ext (SCHEMA_VERSION ext) s))
          with (table_names s).
        rewrite Htable, Hset. cbn [negb option_string_eqb].
        now rewrite String.eqb_refl.
Qed.

(** X21: the cache of the automatic user is never invalidated, and a
    failure is not cached.  Once [get_automatic_user] has returned a
    user, every later call returns this user without looking at the
    configuration or at the table of the users, whatever they have
    become; a call that fails leaves the cache empty, as it found it. *)
Theorem get_automatic_user_is_cached {S} get_profile_config field users (s : Env S) :
  match get_automatic_user get_profile_config field users s with
  | (Returns user, s') =>
      forall get_profile_config' field' users',
        get_automatic_user get_profile_config' field' users' s' = (Returns user, s')
  | (Fails e, s') =>
      s' = s /\ _aiida_autouser_cache s = None
  end.
Proof.
  unfold get_automatic_user at 1.
  destruct (_aiida_autouser_cache s) as [user|] eqn:Hcache.
  - intros g f us. unfold get_automatic_user. now rewrite Hcache.
  - destruct (get_configured_user_email get_profile_config field s) as [email|e];
      [|now split].
    destruct (filter _ users) as [|user [|user' rest]]; [now split| |now split].
    intros g f us. reflexivity.
Qed.

(** * The constructor, the store and the resumer *)

(** X22: what was launched can be resumed.  When the constructor builds
    a new workflow object, the caller is the [__init__] of a class in a
    module whose name starts with [aiida.workflows]; no record can be
    loaded yet under the UUID the object will get; once the object is
    stored, the constructor loads this UUID, and the resumer, for which
    the module of the caller is importable and defines the class of the
    caller, returns an object of that record that is not to be stored
    again. *)
Theorem launched_workflow_resumes d more_kwargs frame wf files log
    importable wf_mod name :
  Workflow___init__ d None more_kwargs frame = Built wf ->
  import_module importable (caller_module wf) = Some wf_mod ->
  find (fun p => String.eqb (caller_module_class wf) (fst p)) wf_mod
    = Some (name, WorkflowSubclass) ->
  frame_funct frame = "__init__" /\
  (exists module, frame_module frame = Some module /\
                  String.prefix "aiida.workflows" module = true) /\
  _to_be_stored wf = true /\
  (exists e, Workflow___init__ d (Some (fresh_uuid d)) false frame = InitRaise e) /\
  store (mkWorld wf d files log) = (Ok tt, after_store (mkWorld wf d files log)) /\
  Workflow___init__ (w_db (after_store (mkWorld wf d files log)))
    (Some (fresh_uuid d)) false frame
  = Built (mkWorkflow false (Some (fresh_uuid d)) "" "" "" [] []) /\
  get_subclass_from_uuid importable (w_db (after_store (mkWorld wf d files log)))
    (fresh_uuid d)
  = Ok (Some (mkWorkflow false (Some (fresh_uuid d)) "" "" "" [] [])).
Proof.
  intros Hinit Himp Hcls. unfold Workflow___init__ in Hinit.
  destruct (String.eqb (frame_funct frame) "__init__") eqn:Hf; [|discriminate].
  cbn [negb] in Hinit.
  destruct (frame_module frame) as [module|] eqn:Hm; [|discriminate].
  destruct (String.prefix "aiida.workflows" module) eqn:Hp; [|discriminate].
  cbn [negb] in Hinit. inversion Hinit; subst wf. clear Hinit.
  cbn [caller_module caller_module_class] in Himp, Hcls.
  set (w := mkWorld (mkWorkflow true None module (frame_class frame)
                       (frame_file frame) [] []) d files log).
  pose proof (after_store_stored w) as [_ Hrow].
  change (w_db w) with d in Hrow.
  split; [now apply String.eqb_eq|].
  split; [exists module; now split|].
  split; [reflexivity|].
  split.
  { unfold Workflow___init__, Workflow_init. rewrite (find_workflow_fresh d). eauto. }
  split; [apply store_run|].
  split.
  { unfold Workflow___init__, Workflow_init. rewrite Hrow. reflexivity. }
  apply get_subclass_loadable.
  exists (new_record w), wf_mod, name. repeat split; assumption.
Qed.

(** * The buffers after [next] *)

Lemma next_ops_workflow u m calcs subwfs name d :
  find_workflow
    (replay (flush_ops u m calcs subwfs
             ++ [SetNextcall u m name; SetWfStatus u RUNNING; SetStepStatus u m RUNNING]) d) u
  = option_map (with_wf_status RUNNING) (find_workflow d u).
Proof.
  rewrite replay_app, !replay_cons, replay_nil. cbn [apply_op].
  rewrite find_workflow_upd_step, find_workflow_upd_same by reflexivity.
  rewrite find_workflow_upd_step. unfold find_workflow.
  now rewrite (replay_step_ops_workflows _ _ (flush_ops_step_ops u m calcs subwfs)).
Qed.

Lemma next_ops_step u m calcs subwfs name d :
  find_step
    (replay (flush_ops u m calcs subwfs
             ++ [SetNextcall u m name; SetWfStatus u RUNNING; SetStepStatus u m RUNNING]) d)
    u m
  = option_map (fun s => mkDbWorkflowStep (st_parent s) (st_name s) RUNNING name
                           (st_calculations s ++ calcs) (st_sub_workflows s ++ subwfs))
      (find_step d u m).
Proof.
  rewrite replay_app, !replay_cons, replay_nil. cbn [apply_op].
  rewrite find_step_upd_same by (intros; now split).
  rewrite find_step_upd_wf.
  rewrite find_step_upd_same by (intros; now split).
  rewrite find_step_flush. now destruct (find_step d u m).
Qed.

(** X23: [next] does not empty the buffers.  After a call of [next]
    that returned, the object still holds every buffered calculation and
    sub-workflow, and a second [next] from the same step, on any method
    that names a successor, returns after the same calls of
    [add_calculation] and [add_sub_workflow] as the first, followed by
    the write of the new pointer and of the two RUNNING statuses. *)
Theorem next_keeps_the_buffers w caller next_method w' next_method2 name2 :
  next caller next_method w = (Ok tt, w') ->
  next_call_name next_method2 = Some name2 ->
  w_self w' = w_self w /\
  exists u,
    _dbworkflowinstance (w_self w) = Some u /\
    next caller (Some next_method2) w'
    = (Ok tt,
       commit (flush_ops u caller
                 (buffered caller (attach_calc_lazy_storage (w_self w)))
                 (buffered caller (attach_subwf_lazy_storage (w_self w)))
               ++ [SetNextcall u caller name2; SetWfStatus u RUNNING;
                   SetStepStatus u caller RUNNING]) w').
Proof.
  intros Hrun Hname2.
  destruct (next_success_inv _ _ _ _ Hrun) as (u & row & ms & m & Hst & Hmd5 & Hc & Hms & ->).
  pose proof (next_run w u row caller ms m Hst Hmd5 Hc Hms) as Hnext.
  cbn zeta in Hnext. rewrite Hrun in Hnext.
  destruct (next_call_name m) as [name|]; [|discriminate].
  inversion Hnext as [Hw']. clear Hnext.
  set (calcs := buffered caller (attach_calc_lazy_storage (w_self w))) in *.
  set (subwfs := buffered caller (attach_subwf_lazy_storage (w_self w))) in *.
  split; [reflexivity|].
  exists u. split; [apply Hst|].
  assert (Hst' : stored (commit (flush_ops u caller calcs subwfs
                                 ++ [SetNextcall u caller name; SetWfStatus u RUNNING;
                                     SetStepStatus u caller RUNNING]) w)
                        u (with_wf_status RUNNING row)).
  { split; [apply Hst|]. unfold commit; cbn [w_db].
    rewrite next_ops_workflow. destruct Hst as [_ Hrow]. now rewrite Hrow. }
  pose proof (next_run _ u (with_wf_status RUNNING row) caller _ next_method2
                Hst' Hmd5 Hc
                (eq_trans (next_ops_step u caller calcs subwfs name (w_db w))
                          (f_equal _ Hms))) as Hnext2.
  cbn zeta in Hnext2. rewrite Hname2 in Hnext2. exact Hnext2.
Qed.

(** * Attachments and their step *)

Lemma buffered_lazy_append_other {A} a b (x : A) storage :
  String.eqb a b = false ->
  buffered b (lazy_append a x storage) = buffered b storage.
Proof.
  intros Hab. unfold buffered, lazy_append, lazy_get.
  destruct (find (fun p => fst p =? a) storage) as [p|] eqn:Hf; cbn [option_map].
  - clear Hf. induction storage as [|q l IH]; [reflexivity|]. cbn [find map].
    destruct (fst q =? a) eqn:Hq; cbn [fst].
    + apply String.eqb_eq in Hq. rewrite Hq, Hab. exact IH.
    + destruct (fst q =? b); [reflexivity|exact IH].
  - rewrite find_append.
    destruct (find (fun p => fst p =? b) storage); [reflexivity|].
    cbn. now rewrite Hab.
Qed.

Lemma find_step_apply_op_other o d v m :
  op_step_key o <> Some (v, m) ->
  find_step (apply_op o d) v m = find_step d v m.
Proof.
  intros Hkey.
  assert (Hne : forall u n, Some (u, n) <> Some (v, m) -> v <> u \/ m <> n).
  { intros u n H. destruct (Nat.eq_dec v u) as [->|]; [|now left].
    right. intros ->. now apply H. }
  destruct o; cbn [op_step_key] in Hkey; cbn [apply_op];
    try reflexivity;
    try (apply find_step_upd_other; [intros; now split|now apply Hne]).
  unfold find_step; cbn [db_steps]. rewrite find_append.
  destruct (find (is_step v m) (db_steps d)); [reflexivity|]. cbn [find].
  unfold is_step.
  destruct (Nat.eqb (st_parent row) v) eqn:E1; [|reflexivity].
  destruct (String.eqb (st_name row) m) eqn:E2; [|reflexivity].
  apply Nat.eqb_eq in E1. apply String.eqb_eq in E2. subst. now elim Hkey.
Qed.

Lemma find_step_replay_other L v m : forall d,
  Forall (fun o => op_step_key o <> Some (v, m)) L ->
  find_step (replay L d) v m = find_step d v m.
Proof.
  induction L as [|o L IH]; intros d HL; [reflexivity|].
  inversion HL as [|o' L' Ho HL']; subst.
  rewrite replay_cons, (IH _ HL'). now apply find_step_apply_op_other.
Qed.

(** X24: an attachment belongs to the step that made it.  What
    [attach_calculation] and [attach_workflow] buffer for the step [a]
    is written nowhere by them, and a [next] called from another step
    [b] flushes the buffer of [b] only: it returns after the writes for
    [b], the step record of [a] is the former one, and the calculation
    and the sub-workflow are still in the buffer of [a]. *)
Theorem attachments_belong_to_the_caller w u row a b calc sub_wf ms next_method name :
  stored w u row ->
  wf_script_md5 row = md5 (wf_script_path row) ->
  String.eqb a b = false ->
  String.eqb b wf_exit_call = false ->
  find_step (w_db w) u b = Some ms ->
  next_call_name next_method = Some name ->
  exists w1 w2,
    (attach_calculation a calc ;; attach_workflow a sub_wf) w = (Ok tt, w1) /\
    w_db w1 = w_db w /\ w_log w1 = w_log w /\
    next b (Some next_method) w1 = (Ok tt, w2) /\
    w_log w2
    = w_log w
      ++ flush_ops u b (buffered b (attach_calc_lazy_storage (w_self w)))
                       (buffered b (attach_subwf_lazy_storage (w_self w)))
      ++ [SetNextcall u b name; SetWfStatus u RUNNING; SetStepStatus u b RUNNING] /\
    find_step (w_db w2) u a = find_step (w_db w) u a /\
    buffered a (attach_calc_lazy_storage (w_self w2))
    = buffered a (attach_calc_lazy_storage (w_self w)) ++ [calc] /\
    buffered a (attach_subwf_lazy_storage (w_self w2))
    = buffered a (attach_subwf_lazy_storage (w_self w)) ++ [sub_wf].
Proof.
  intros Hst Hmd5 Hab Hb Hms Hname.
  set (self1 := mkWorkflow (_to_be_stored (w_self w)) (_dbworkflowinstance (w_self w))
                  (caller_module (w_self w)) (caller_module_class (w_self w))
                  (caller_file (w_self w))
                  (lazy_append a calc (attach_calc_lazy_storage (w_self w)))
                  (lazy_append a sub_wf (attach_subwf_lazy_storage (w_self w)))).
  set (w1 := mkWorld self1 (w_db w) (w_files w) (w_log w)).
  assert (Hst1 : stored w1 u row) by (destruct Hst; now split).
  pose proof (next_run w1 u row b ms next_method Hst1 Hmd5 Hb Hms) as Hnext.
  cbn zeta in Hnext. rewrite Hname in Hnext.
  cbn [w1 w_self self1 attach_calc_lazy_storage attach_subwf_lazy_storage] in Hnext.
  rewrite !(buffered_lazy_append_other a b) in Hnext by exact Hab.
  set (ops := flush_ops u b (buffered b (attach_calc_lazy_storage (w_self w)))
                (buffered b (attach_subwf_lazy_storage (w_self w)))
              ++ [SetNextcall u b name; SetWfStatus u RUNNING; SetStepStatus u b RUNNING])
    in *.
  exists w1, (commit ops w1).
  split; [reflexivity|]. split; [reflexivity|]. split; [reflexivity|].
  split; [exact Hnext|].
  split; [reflexivity|].
  split.
  { unfold commit; cbn [w_db w1]. apply find_step_replay_other.
    assert (Hkey : Some (u, b) <> Some (u, a)).
    { intros E. inversion E; subst. rewrite String.eqb_refl in Hab. discriminate. }
    unfold ops, flush_ops.
    apply Forall_app; split; [apply Forall_app; split|].
    - apply Forall_forall. intros o Ho. apply in_map_iff in Ho.
      destruct Ho as (c & <- & _). exact Hkey.
    - apply Forall_forall. intros o Ho. apply in_map_iff in Ho.
      destruct Ho as (x & <- & _). exact Hkey.
    - repeat constructor; cbn [op_step_key]; try exact Hkey; discriminate. }
  split; cbn [commit w_self w1 self1 attach_calc_lazy_storage attach_subwf_lazy_storage];
    apply buffered_lazy_append.
Qed.

(** * Kill is not final *)

(** X25: [next] does not look at the status of the workflow.  After
    [kill] on the workflow of a running burst, the workflow is FINISHED;
    a [next] that the burst then calls from one of its steps returns all
    the same, and the workflow is RUNNING again. *)
Theorem next_after_kill_sets_running_again w u row caller ms next_method name n :
  stored w u row ->
  wf_script_md5 row = md5 (wf_script_path row) ->
  String.eqb caller wf_exit_call = false ->
  find_step (w_db w) u caller = Some ms ->
  next_call_name next_method = Some name ->
  killable (w_db w) n u -> n <= recursion_limit ->
  exists w1 w2,
    kill u w = (Ok tt, w1) /\
    wf_status_of (w_db w1) u = Some FINISHED /\
    next caller (Some next_method) w1 = (Ok tt, w2) /\
    wf_status_of (w_db w2) u = Some RUNNING /\
    option_map st_status (find_step (w_db w2) u caller) = Some RUNNING /\
    option_map st_nextcall (find_step (w_db w2) u caller) = Some name.
Proof.
  intros Hst Hmd5 Hc Hms Hname Hk Hn.
  destruct (kill_rec_returns recursion_limit u w (killable_le _ _ _ _ Hk Hn))
    as (w1 & Hrun & _).
  destruct (kill_rec_sound _ _ _ _ Hrun) as (L & -> & HL & Hcover).
  destruct Hst as [Hself Hrow].
  assert (Hmark : marks L u = true).
  { apply (marks_In _ _ HL). destruct Hcover as [Hwf _].
    apply (Hwf u). constructor. }
  assert (Hrow1 : find_workflow (w_db (commit L w)) u
                  = Some (with_wf_status FINISHED row)).
  { unfold commit; cbn [w_db].
    now rewrite (find_workflow_kill_marks _ _ _ HL), Hmark, Hrow. }
  assert (Hst1 : stored (commit L w) u (with_wf_status FINISHED row))
    by (split; [exact Hself|exact Hrow1]).
  assert (Hms1 : find_step (w_db (commit L w)) u caller = Some ms).
  { rewrite <- Hms. apply find_step_steps. unfold commit; cbn [w_db].
    now apply replay_kill_ops_steps. }
  pose proof (next_run _ u _ caller ms next_method Hst1 Hmd5 Hc Hms1) as Hnext.
  cbn zeta in Hnext. rewrite Hname in Hnext.
  eexists. eexists. split; [exact Hrun|].
  split; [unfold wf_status_of; now rewrite Hrow1|].
  split; [exact Hnext|].
  unfold wf_status_of.
  repeat split; unfold commit at 1; cbn [w_db];
    rewrite ?next_ops_workflow, ?next_ops_step, ?Hrow1, ?Hms1; reflexivity.
Qed.

(** * Kill, twice *)

(** The calculations after the writes of [kill]. *)
Lemma replay_kill_ops_calcs L : forall d,
  forallb kill_op L = true ->
  db_calcs (replay L d) = map (calc_marked L) (db_calcs d).
Proof.
  induction L as [|o L IH]; intros d HL.
  - cbn. rewrite <- (map_id (db_calcs d)) at 1. apply map_ext.
    intros p. reflexivity.
  - cbn [forallb] in HL. apply andb_true_iff in HL. destruct HL as [Ho HL].
    rewrite replay_cons, (IH _ HL).
    destruct o as [| |x st| | | | | | | |c st|]; try discriminate Ho.
    + destruct st; try discriminate Ho. cbn [apply_op upd_wf db_calcs].
      apply map_ext. intros p. reflexivity.
    + destruct st; try discriminate Ho. cbn [apply_op upd_calc db_calcs].
      rewrite map_map. apply map_ext. intros [x s].
      unfold calc_marked, calc_marks. cbn [existsb fst snd].
      rewrite (Nat.eqb_sym c x).
      destruct (Nat.eqb x c) eqn:E; cbn [orb fst].
      * destruct (existsb _ L); reflexivity.
      * reflexivity.
Qed.

Lemma calc_marks_In L c :
  In (CalcSetState c CALC_FINISHED) L -> calc_marks L c = true.
Proof.
  intros Hin. unfold calc_marks. apply existsb_exists.
  exists (CalcSetState c CALC_FINISHED). split; [exact Hin|]. apply Nat.eqb_refl.
Qed.

(** A write of [kill] that the log already holds changes nothing. *)
Lemma kill_op_absorbed L d o :
  forallb kill_op L = true -> In o L ->
  apply_op o (replay L d) = replay L d.
Proof.
  intros HL Hin.
  assert (Ho : kill_op o = true).
  { rewrite forallb_forall in HL. now apply HL. }
  pose proof (replay_kill_ops_workflows L d HL) as Hwfs.
  pose proof (replay_kill_ops_calcs L d HL) as Hcalcs.
  destruct o as [| |x st| | | | | | | |c st|]; try discriminate Ho.
  - destruct st; try discriminate Ho.
    apply (marks_In _ _ HL) in Hin.
    cbn [apply_op]. unfold upd_wf.
    destruct (replay L d) as [ws sts cs]. cbn [db_workflows db_steps db_calcs] in *.
    f_equal. rewrite <- (map_id ws) at 2. apply map_ext_in. intros r Hr.
    destruct (Nat.eqb (wf_uuid r) x) eqn:E; [|reflexivity].
    apply Nat.eqb_eq in E. rewrite Hwfs in Hr. apply in_map_iff in Hr.
    destruct Hr as (r0 & <- & _). unfold finish_marked in *.
    destruct (marks L (wf_uuid r0)) eqn:Hm; [reflexivity|].
    rewrite E in Hm. congruence.
  - destruct st; try discriminate Ho.
    apply calc_marks_In in Hin.
    cbn [apply_op]. unfold upd_calc.
    destruct (replay L d) as [ws sts cs]. cbn [db_workflows db_steps db_calcs] in *.
    f_equal. rewrite <- (map_id cs) at 2. apply map_ext_in. intros [x s] Hp.
    cbn [fst snd]. destruct (Nat.eqb x c) eqn:E; [|reflexivity].
    apply Nat.eqb_eq in E. rewrite Hcalcs in Hp. apply in_map_iff in Hp.
    destruct Hp as ([x0 s0] & Heq & _). unfold calc_marked in Heq. cbn [fst] in Heq.
    destruct (calc_marks L x0) eqn:Hm; inversion Heq; subst; [reflexivity|congruence].
Qed.

Lemma kill_ops_absorbed L d L2 :
  forallb kill_op L = true -> incl L2 L ->
  replay L2 (replay L d) = replay L d.
Proof.
  intros HL. induction L2 as [|o L2 IH]; intros Hincl; [reflexivity|].
  rewrite replay_cons, (kill_op_absorbed L d o HL) by (apply Hincl; now left).
  apply IH. intros o' Ho'. apply Hincl. now right.
Qed.

(** X26: [kill] twice is [kill] once.  When the tree that [kill] walks
    fits the recursion limit, [kill] returns, a second [kill] on the same
    workflow returns too, and the tables after the second are the tables
    after the first: the second repeats writes of the first. *)
Theorem kill_twice_is_kill_once w u n :
  killable (w_db w) n u -> n <= recursion_limit ->
  exists w1 w2,
    kill u w = (Ok tt, w1) /\
    kill u w1 = (Ok tt, w2) /\
    w_db w2 = w_db w1 /\
    w_self w2 = w_self w1 /\
    forall o, In o (w_log w2) -> In o (w_log w1).
Proof.
  intros Hk Hn.
  pose proof (killable_le _ _ _ _ Hk Hn) as Hk0.
  destruct (kill_rec_returns recursion_limit u w Hk0) as (w1 & Hrun1 & Hkeep).
  destruct (kill_rec_sound _ _ _ _ Hrun1) as (L & -> & HL & Hcover).
  destruct (kill_rec_returns recursion_limit u (commit L w) (Hkeep _ _ Hk0))
    as (w2 & Hrun2 & _).
  destruct (kill_rec_within _ _ _ _ Hrun2) as (L2 & -> & HL2 & Hwithin).
  assert (Hincl : incl L2 L).
  { intros o Ho. rewrite Forall_forall in Hwithin. specialize (Hwithin o Ho).
    apply (kill_within_steps _ (w_db w)) in Hwithin.
    2:{ unfold commit; cbn [w_db]. now apply replay_kill_ops_steps. }
    destruct Hcover as [Hwf Hcalc].
    destruct o as [| |x st| | | | | | | |c st|]; cbn in Hwithin; try contradiction.
    - destruct st; try contradiction. now destruct (Hwf x Hwithin).
    - destruct st; try contradiction. destruct Hwithin as (v & s & Hv & Hs & Hc).
      exact (Hcalc v s c Hv Hs Hc). }
  exists (commit L w), (commit L2 (commit L w)).
  split; [exact Hrun1|]. split; [exact Hrun2|].
  split.
  { unfold commit; cbn [w_db]. now apply kill_ops_absorbed. }
  split; [reflexivity|].
  intros o Ho. unfold commit in *; cbn [w_log] in *.
  apply in_app_or in Ho. destruct Ho as [Ho|Ho]; [exact Ho|].
  apply in_or_app. right. now apply Hincl.
Qed.

(** X27: the profile of the first [_load_dbenv_noschemacheck] when none
    is passed.  The process is the one passed, else the current one,
    else the default one.  A profile that was set stays when the process
    is not changed, and the call ends as [django.setup] does; otherwise
    the profile is the default one of the process, and when
    [get_default_profile] fails the call fails in the same way, with no
    profile set and the environment counted as loaded. *)
Theorem load_dbenv_default_profile {S} (ext : Externals S) process (s : Env S) :
  LOAD_DBENV_CALLED s = false ->
  CURRENT_AIIDADB_PROCESS (snd (_load_dbenv_noschemacheck ext process None s))
  = Some (match process, CURRENT_AIIDADB_PROCESS s with
          | Some p, _ => p
          | None, Some c => c
          | None, None => DEFAULT_PROCESS ext
          end) /\
  (forall old, AIIDADB_PROFILE s = Some old ->
     process = None \/ process = CURRENT_AIIDADB_PROCESS s ->
     fst (_load_dbenv_noschemacheck ext process None s) = django_setup ext /\
     AIIDADB_PROFILE (snd (_load_dbenv_noschemacheck ext process None s)) = Some old) /\
  (AIIDADB_PROFILE s = None \/
   (exists q, process = Some q /\ CURRENT_AIIDADB_PROCESS s <> Some q) ->
   match get_default_profile ext
           (CURRENT_AIIDADB_PROCESS (snd (_load_dbenv_noschemacheck ext process None s)))
   with
   | Returns p =>
       fst (_load_dbenv_noschemacheck ext process None s) = django_setup ext /\
       AIIDADB_PROFILE (snd (_load_dbenv_noschemacheck ext process None s)) = Some p
   | Fails e =>
       fst (_load_dbenv_noschemacheck ext process None s) = Fails e /\
       AIIDADB_PROFILE (snd (_load_dbenv_noschemacheck ext process None s)) = None /\
       is_dbenv_loaded (snd (_load_dbenv_noschemacheck ext process None s)) = true
   end).
Proof.
  intros Hflag. unfold _load_dbenv_noschemacheck, is_dbenv_loaded. rewrite Hflag.
  cbn [CURRENT_AIIDADB_PROCESS AIIDADB_PROFILE LOAD_DBENV_CALLED].
  split; [|split].
  - destruct (CURRENT_AIIDADB_PROCESS s) as [c|], process as [q|];
      cbn [option_string_eqb negb];
      try (destruct (String.eqb q c) eqn:E; [apply String.eqb_eq in E; subst q|]);
      cbn [negb AIIDADB_PROFILE CURRENT_AIIDADB_PROCESS];
      destruct (AIIDADB_PROFILE s);
      cbn [snd CURRENT_AIIDADB_PROCESS]; try reflexivity;
      match goal with
      | |- context [get_default_profile ?e ?x] => destruct (get_default_profile e x)
      end; reflexivity.
  - intros old Hold [-> | ->].
    + destruct (CURRENT_AIIDADB_PROCESS s) as [c|];
        cbn [AIIDADB_PROFILE]; rewrite Hold;
        cbn [fst snd AIIDADB_PROFILE]; auto.
    + destruct (CURRENT_AIIDADB_PROCESS s) as [c|];
        cbn [option_string_eqb negb AIIDADB_PROFILE]; rewrite ?String.eqb_refl;
        cbn [negb AIIDADB_PROFILE]; rewrite Hold;
        cbn [fst snd AIIDADB_PROFILE]; auto.
  - intros Hcase. destruct s as [flag cur prof dsm tn dbs cache].
    cbn in Hcase |- *.
    destruct Hcase as [->|(q & -> & Hq)].
    + destruct cur as [c|], process as [q|]; cbn;
        try destruct (String.eqb q c); cbn;
        match goal with
        | |- context [get_default_profile ext (Some ?p)] =>
            destruct (get_default_profile ext (Some p)) eqn:Hd
        end; cbn; rewrite Hd; repeat split.
    + destruct cur as [c|]; cbn.
      * destruct (String.eqb_spec q c) as [->|Hne]; [now contradiction Hq|]. cbn.
        destruct (get_default_profile ext (Some q)) eqn:Hd; cbn; rewrite Hd;
          repeat split.
      * destruct (get_default_profile ext (Some q)) eqn:Hd; cbn; rewrite Hd;
          repeat split.
Qed.

End Engine.

(** * Closed instances *)

Local Open Scope list_scope.

Lemma has_finished_ok_finished_or_sleep_witness :
  exists b, has_finished_ok sleeping_world = (Ok b, sleeping_world) /\
            (b = true <-> wf_status (sample_row 1 SLEEP "") = FINISHED
                          \/ wf_status (sample_row 1 SLEEP "") = SLEEP).
Proof.
  apply (has_finished_ok_finished_or_sleep sleeping_world 1 (sample_row 1 SLEEP "")).
  repeat split; reflexivity.
Defined.

(** C9, as the specification states it, fails: the record of
    [sleeping_world] is in [SLEEP], not in [FINISHED], and
    [has_finished_ok] answers [True]. *)
Lemma has_finished_ok_sleep_is_true :
  dbworkflowinstance sleeping_world = (Ok (sample_row 1 SLEEP ""), sleeping_world) /\
  wf_status (sample_row 1 SLEEP "") <> FINISHED /\
  has_finished_ok sleeping_world = (Ok true, sleeping_world).
Proof.
  repeat split; try reflexivity. discriminate.
Qed.

Lemma get_subclass_missing_class_is_None_witness :
  get_subclass_from_dbnode sample_importable sample_db_one (sample_row 1 RUNNING "") = Ok None /\
  get_subclass_from_pk sample_importable sample_db_one 1 = Ok None /\
  get_subclass_from_uuid sample_importable sample_db_one 1 = Ok None.
Proof.
  apply (get_subclass_missing_class_is_None sample_importable sample_db_one
           (sample_row 1 RUNNING "")
           [("Workflow", WorkflowSubclass); ("WorkflowOther", WorkflowSubclass)]).
  - reflexivity.
  - reflexivity.
  - reflexivity.
  - intros elem [H|[H|[]]]; inversion H.
Defined.

(** C2 on scenario 4 of the specification. *)
Lemma next_flushes_then_writes_pointer_witness :
  next sample_md5 sample_calc_kill "start" (Some (decorated "middle")) flush_world
    = (Ok tt, flushed_world sample_calc_kill) /\
  exists u ms name,
    _dbworkflowinstance (w_self flush_world) = Some u /\
    find_step (w_db flush_world) u "start" = Some ms /\
    let calcs := buffered "start" (attach_calc_lazy_storage (w_self flush_world)) in
    let subwfs := buffered "start" (attach_subwf_lazy_storage (w_self flush_world)) in
    let flush := map (AddCalculation u "start") calcs
                 ++ map (AddSubWorkflow u "start") subwfs in
    let ops := flush ++ [SetNextcall u "start" name; SetWfStatus u RUNNING;
                         SetStepStatus u "start" RUNNING] in
    w_log (flushed_world sample_calc_kill) = w_log flush_world ++ ops /\
    w_db (flushed_world sample_calc_kill)
      = replay sample_calc_kill ops (w_db flush_world) /\
    find_step (replay sample_calc_kill flush (w_db flush_world)) u "start"
      = Some (mkDbWorkflowStep u "start" (st_status ms) (st_nextcall ms)
                (st_calculations ms ++ calcs) (st_sub_workflows ms ++ subwfs)) /\
    find_step (w_db (flushed_world sample_calc_kill)) u "start"
      = Some (mkDbWorkflowStep u "start" RUNNING name
                (st_calculations ms ++ calcs) (st_sub_workflows ms ++ subwfs)) /\
    option_map wf_status (find_workflow (w_db (flushed_world sample_calc_kill)) u)
      = Some RUNNING.
Proof.
  split; [reflexivity|].
  apply (next_flushes_then_writes_pointer sample_md5 sample_calc_kill
           flush_world "start" (Some (decorated "middle"))).
  reflexivity.
Defined.

(** C1: the workflow of [launch_world] is stored by the wrapper of its
    first step, which seals the digest of the path of the script; the
    digest of the content of the script is a different one, and the
    [next] of the step body neither fails with [IntegrityViolation] nor
    leaves the tables alone.  The same happens in [flush_world], whose
    script was edited after the workflow was stored: [next] flushes the
    buffers and writes the pointer. *)
Lemma next_accepts_edited_script :
  step sample_md5 sample_format_exc sample_calc_kill 1000
       "start" (calling_next sample_md5 sample_calc_kill) 0 launch_world
    = (Ok tt,
       mkWorld (mkWorkflow false (Some 1) "aiida.workflows.user.demo" "WorkflowDemo"
                  sample_path [] [])
               (mkDb [mkDbWorkflow 1 1 "aiida.workflows.user.demo" "WorkflowDemo"
                        sample_path (sample_md5 sample_path) RUNNING ""]
                     [mkDbWorkflowStep 1 "start" RUNNING "middle" [] []] [])
               (w_files launch_world)
               [CreateWorkflow
                  (mkDbWorkflow 1 1 "aiida.workflows.user.demo" "WorkflowDemo"
                     sample_path (sample_md5 sample_path) CREATED "");
                CreateStep (mkDbWorkflowStep 1 "start" INITIALIZED wf_default_call [] []);
                SetNextcall 1 "start" "middle"; SetWfStatus 1 RUNNING;
                SetStepStatus 1 "start" RUNNING]) /\
  option_map sample_md5 (current_content launch_world sample_path)
    <> Some (sample_md5 sample_path) /\
  option_map sample_md5 (current_content flush_world sample_path)
    <> Some (wf_script_md5 (sample_row 1 CREATED "")) /\
  next sample_md5 sample_calc_kill "start" (Some (decorated "middle")) flush_world
    = (Ok tt, flushed_world sample_calc_kill).
Proof.
  split; [reflexivity|]. split; [cbn; discriminate|].
  split; [cbn; discriminate|reflexivity].
Qed.

(** C6: a method that was never decorated is not refused with
    [NotAStep]: the buffers are flushed and the call then fails with an
    [AttributeError]; a method that carries a step name without being
    marked as a step is accepted. *)
Lemma next_does_not_refuse_non_steps :
  m_is_wf_step undecorated <> Some true /\
  m_name undecorated <> wf_exit_call /\
  next sample_md5 sample_calc_kill "start" (Some undecorated) flush_world
    = (Raise (AttributeError "wf_step_name"),
       commit sample_calc_kill
         [AddCalculation 1 "start" 11; AddCalculation 1 "start" 12;
          AddSubWorkflow 1 "start" 2] flush_world) /\
  m_is_wf_step unmarked <> Some true /\
  m_name unmarked <> wf_exit_call /\
  next sample_md5 sample_calc_kill "start" (Some unmarked) flush_world
    = (Ok tt,
       commit sample_calc_kill
         [AddCalculation 1 "start" 11; AddCalculation 1 "start" 12;
          AddSubWorkflow 1 "start" 2; SetNextcall 1 "start" "helper";
          SetWfStatus 1 RUNNING; SetStepStatus 1 "start" RUNNING] flush_world).
Proof.
  repeat split; try reflexivity; discriminate.
Qed.

Lemma tree_world_killable : killable (w_db tree_world) 2 1.
Proof.
  eapply (killable_intro _ 1 1); [reflexivity|].
  intros s x (Hin & Hp & Hs) Hx.
  destruct Hin as [<-|[<-|[<-|[<-|[]]]]]; try discriminate.
  destruct Hx as [<-|[]].
  apply (killable_intro _ 0 2 (sample_row 2 RUNNING "")); [reflexivity|].
  intros s' x' (Hin' & Hp' & Hs') Hx'.
  destruct Hin' as [<-|[<-|[<-|[<-|[]]]]]; try discriminate.
  destruct Hx'.
Qed.

(** The tables of [tree_world] are those the engine itself leaves when
    the step [e] of workflow 1 fails after its [next]. *)
Lemma tree_world_arises :
  step sample_md5 sample_format_exc sample_calc_kill 1000
       "e" (failing_after_next sample_md5 sample_calc_kill) 0 before_world
  = (Ok tt, mkWorld (mkWorkflow false (Some 1) "" "" "" [] [("e", [3])])
              sample_db_tree []
              [CreateStep (mkDbWorkflowStep 1 "e" INITIALIZED wf_default_call [] []);
               AddSubWorkflow 1 "e" 3; SetNextcall 1 "e" "s";
               SetWfStatus 1 RUNNING; SetStepStatus 1 "e" RUNNING;
               AppendReport 1 (error_header "e");
               AppendReport 1 ("full traceback: "
                 ++ sample_format_exc (UserException "RuntimeError: boom"))%string;
               SetStepStatus 1 "e" ERROR]).
Proof. reflexivity. Qed.

Lemma kill_finishes_running_tree_witness :
  exists w',
    kill sample_calc_kill 1000 1 tree_world = (Ok tt, w') /\
    (forall v, reaches_running (w_db tree_world) 1 v ->
       wf_status_of (w_db w') v = Some FINISHED) /\
    (forall v s c, reaches_running (w_db tree_world) 1 v ->
       running_step (w_db tree_world) v s ->
       In c (st_calculations s) ->
       calc_state_of (w_db w') c
         = option_map (fun _ => CALC_FINISHED) (calc_state_of (w_db tree_world) c) /\
       forall st, calc_state_of (w_db w') c = Some st -> calc_is_terminal st = true).
Proof.
  apply (kill_finishes_running_tree sample_calc_kill 1000 tree_world 1 2).
  - exact tree_world_killable.
  - lia.
Defined.

(** C7, as the specification states it, fails: workflow 3 is a
    sub-workflow of workflow 1, through the step [e], and is still
    RUNNING after [kill] on workflow 1, because [e] is not RUNNING. *)
Lemma kill_skips_steps_not_running :
  descendant (w_db tree_world) 1 3 /\
  kill sample_calc_kill 1000 1 tree_world
    = (Ok tt, commit sample_calc_kill
                [CalcSetState 10 CALC_FINISHED; CalcSetState 20 CALC_FINISHED;
                 SetWfStatus 2 FINISHED; SetWfStatus 1 FINISHED] tree_world) /\
  wf_status_of
    (w_db (commit sample_calc_kill
             [CalcSetState 10 CALC_FINISHED; CalcSetState 20 CALC_FINISHED;
              SetWfStatus 2 FINISHED; SetWfStatus 1 FINISHED] tree_world)) 3
    = Some RUNNING.
Proof.
  split; [|split; reflexivity].
  apply (descendant_child _ 1 (mkDbWorkflowStep 1 "e" ERROR "s" [] [3]) 3).
  - cbn. tauto.
  - reflexivity.
  - now left.
Qed.

Lemma child_world_root : report_root (w_db child_world) 1 2 1.
Proof.
  apply (report_root_up _ 0 2 (sample_row 2 RUNNING "child")
           (mkDbWorkflowStep 1 "start" RUNNING "middle" [] [2]) 1);
    try reflexivity.
  apply (report_root_here _ 1 (sample_row 1 RUNNING ("started" ++ newline)));
    reflexivity.
Qed.

(** C8 on scenario 6 of the specification. *)
Lemma append_to_report_goes_to_root_witness :
  exists w',
    append_to_report_of sample_calc_kill 1000 2 "x" child_world = (Ok tt, w') /\
    w_log w' = w_log child_world ++ [AppendReport 1 "x"] /\
    (exists report, wf_report_of (w_db child_world) 1 = Some report /\
       wf_report_of (w_db w') 1 = Some (report ++ "x" ++ newline)%string) /\
    (forall v, v <> 1 -> find_workflow (w_db w') v = find_workflow (w_db child_world) v) /\
    (0 < 1 -> 2 <> 1 /\ wf_report_of (w_db w') 2 = wf_report_of (w_db child_world) 2).
Proof.
  apply (append_to_report_goes_to_root sample_calc_kill 1000 "x" child_world 1 2 1).
  - exact child_world_root.
  - lia.
Defined.

Lemma step_reentry_guard_witness :
  step sample_md5 sample_format_exc sample_calc_kill 1000
       "start" never_called 0 running_world
  = (Raise (StepAlreadyInitialized "start"), running_world).
Proof.
  apply (step_reentry_guard sample_md5 sample_format_exc sample_calc_kill 1000
           running_world "start"
           (mkDbWorkflowStep 1 "start" RUNNING "middle" [11] []));
    try reflexivity; discriminate.
Defined.

(** The test that precedes the guard: with a positional argument the
    wrapper fails with [InvalidStepCall] before it looks at the step
    record, here one that is RUNNING and points to [middle]. *)
Lemma step_with_argument_is_InvalidStepCall :
  get_step (inl "start") running_world
    = (Ok (Some (mkDbWorkflowStep 1 "start" RUNNING "middle" [11] [])), running_world) /\
  step sample_md5 sample_format_exc sample_calc_kill 1000
       "start" never_called 1 running_world
    = (Raise InvalidStepCall, running_world) /\
  InvalidStepCall <> StepAlreadyInitialized "start".
Proof.
  repeat split; try reflexivity. discriminate.
Qed.

Lemma failed_world_sub_killable :
  forall x, In x [2] -> killable (w_db failed_world) 1 x.
Proof.
  intros x [<-|[]].
  apply (killable_intro _ 0 2 (sample_row 2 RUNNING "")); [reflexivity|].
  intros s x (Hin & Hp & Hs) Hx.
  destruct Hin as [<-|[<-|[]]]; try discriminate. destruct Hx.
Qed.

(** C4 on a step in ERROR that holds calculation 11 and sub-workflow 2. *)
Lemma step_restart_clears_attachments_witness :
  exists ms w1,
    step_prologue sample_md5 sample_calc_kill 1000 "start" 0 failed_world = (Ok ms, w1) /\
    w_log w1 = [CalcSetState 20 CALC_FINISHED; SetWfStatus 2 FINISHED;
                RemoveSubWorkflows 1 "start"; CalcKill 11;
                RemoveCalculations 1 "start"] /\
    wf_status_of (w_db w1) 2 = Some FINISHED /\
    find_step (w_db w1) 1 "start" = Some ms /\
    st_sub_workflows ms = [] /\ st_calculations ms = [].
Proof.
  destruct (step_restart_clears_attachments sample_md5 sample_calc_kill 1000
              failed_world 1 (sample_row 1 RUNNING "") "start"
              (mkDbWorkflowStep 1 "start" ERROR "middle" [11] [2]) 0
              eq_refl (conj eq_refl eq_refl) eq_refl (or_introl eq_refl))
    as [Hsound Hreturns].
  destruct (Hreturns eq_refl eq_refl 1 failed_world_sub_killable) as (ms & w1 & Hrun);
    [lia|].
  exists ms, w1. split; [exact Hrun|].
  destruct (Hsound ms w1 Hrun) as (L & _ & _ & _ & _ & Hfin & Hfind & Hsubs & Hcalcs).
  split.
  { assert (E : step_prologue sample_md5 sample_calc_kill 1000 "start" 0 failed_world
              = (Ok (cleaned (mkDbWorkflowStep 1 "start" ERROR "middle" [11] [2])),
                 commit sample_calc_kill
                   [CalcSetState 20 CALC_FINISHED; SetWfStatus 2 FINISHED;
                    RemoveSubWorkflows 1 "start"; CalcKill 11;
                    RemoveCalculations 1 "start"] failed_world))
      by reflexivity.
    rewrite E in Hrun. now inversion Hrun. }
  split; [apply (Hfin 2 2); [now left|constructor]|]. auto.
Defined.


(** The tables of [shared_world] are those the engine leaves when the
    step [a] of workflow 1 and the step [a] of workflow 2 have both
    attached workflow 3 and called [next]. *)
Lemma shared_world_arises :
  exists w1 w2,
    bind (attach_workflow "a" 3)
         (fun _ => next sample_md5 sample_calc_kill "a" (Some (decorated "b")))
         (mkWorld (loaded 1)
            (mkDb [sample_row 1 RUNNING ""; sample_row 2 RUNNING ""; sample_row 3 CREATED ""]
                  [mkDbWorkflowStep 1 "a" INITIALIZED wf_default_call [] [];
                   mkDbWorkflowStep 2 "a" INITIALIZED wf_default_call [] []]
                  []) [] [])
    = (Ok tt, w1) /\
    bind (attach_workflow "a" 3)
         (fun _ => next sample_md5 sample_calc_kill "a" (Some (decorated "b")))
         (mkWorld (loaded 2) (w_db w1) [] [])
    = (Ok tt, w2) /\
    w_db w2 = w_db shared_world.
Proof.
  eexists. eexists. split; [vm_compute; reflexivity|].
  split; vm_compute; reflexivity.
Qed.


(** * Closed instances of the further properties *)

Lemma status_predicates_exclusive_witness :
  exists n r o f,
    is_new running_world = (Ok n, running_world) /\
    is_running running_world = (Ok r, running_world) /\
    has_finished_ok running_world = (Ok o, running_world) /\
    has_failed running_world = (Ok f, running_world) /\
    (n = true <-> wf_status (sample_row 1 RUNNING "") = CREATED) /\
    (r = true <-> wf_status (sample_row 1 RUNNING "") = RUNNING) /\
    (f = true <-> wf_status (sample_row 1 RUNNING "") = ERROR) /\
    count_occ Bool.bool_dec [n; r; o; f] true
    = if wf_states_eqb (wf_status (sample_row 1 RUNNING "")) INITIALIZED then 0 else 1.
Proof.
  apply (status_predicates_exclusive running_world 1 (sample_row 1 RUNNING "")).
  split; reflexivity.
Defined.

Lemma sleep_marks_the_caller_only_witness :
  exists w',
    sleep sample_calc_kill "start" running_world = (Ok tt, w') /\
    w_log w' = w_log running_world ++ [SetStepStatus 1 "start" SLEEP] /\
    find_step (w_db w') 1 "start"
    = Some (with_status SLEEP (mkDbWorkflowStep 1 "start" RUNNING "middle" [11] [])) /\
    (forall v m, v <> 1 \/ m <> "start" ->
       find_step (w_db w') v m = find_step (w_db running_world) v m) /\
    db_workflows (w_db w') = db_workflows (w_db running_world) /\
    db_calcs (w_db w') = db_calcs (w_db running_world) /\
    w_self w' = w_self running_world.
Proof.
  exact (sleep_marks_the_caller_only sample_calc_kill running_world 1
           (sample_row 1 RUNNING "") "start" (conj eq_refl eq_refl) eq_refl).
Defined.

Lemma get_step_calculations_missing_step_raises_witness :
  get_step_calculations (decorated "middle") None running_world
  = (Raise (AiidaException "Cannot retrieve step's calculations"), running_world).
Proof.
  exact (get_step_calculations_missing_step_raises running_world 1
           (sample_row 1 RUNNING "") "middle" None (conj eq_refl eq_refl)).
Defined.

(** Scenario 1 of the specification, from the new object on. *)
Lemma first_invocation_launches_witness :
  exists w',
    step sample_md5 sample_format_exc sample_calc_kill 1000 "start"
         (next sample_md5 sample_calc_kill "start" (Some (decorated "middle"))) 0
         launch_world = (Ok tt, w') /\
    w_log w'
    = w_log launch_world
      ++ [CreateWorkflow (new_record sample_md5 launch_world);
          CreateStep (new_step (fresh_uuid (w_db launch_world)) "start")]
      ++ flush_ops (fresh_uuid (w_db launch_world)) "start"
           (buffered "start" (attach_calc_lazy_storage (w_self launch_world)))
           (buffered "start" (attach_subwf_lazy_storage (w_self launch_world)))
      ++ [SetNextcall (fresh_uuid (w_db launch_world)) "start" "middle";
          SetWfStatus (fresh_uuid (w_db launch_world)) RUNNING;
          SetStepStatus (fresh_uuid (w_db launch_world)) "start" RUNNING] /\
    find_workflow (w_db w') (fresh_uuid (w_db launch_world))
    = Some (with_wf_status RUNNING (new_record sample_md5 launch_world)) /\
    find_step (w_db w') (fresh_uuid (w_db launch_world)) "start"
    = Some (mkDbWorkflowStep (fresh_uuid (w_db launch_world)) "start" RUNNING "middle"
              (buffered "start" (attach_calc_lazy_storage (w_self launch_world)))
              (buffered "start" (attach_subwf_lazy_storage (w_self launch_world)))) /\
    _to_be_stored (w_self w') = false /\
    _dbworkflowinstance (w_self w') = Some (fresh_uuid (w_db launch_world)).
Proof.
  apply (first_invocation_launches sample_md5 sample_format_exc sample_calc_kill 1000
           launch_world "start" (decorated "middle") "middle").
  - reflexivity.
  - reflexivity.
  - intros s [].
  - reflexivity.
Defined.

Lemma step_with_arguments_still_stores_witness :
  step sample_md5 sample_format_exc sample_calc_kill 1000 "start" never_called 1
       launch_world
  = (Raise InvalidStepCall, after_store sample_md5 sample_calc_kill launch_world) /\
  w_log (after_store sample_md5 sample_calc_kill launch_world)
  = w_log launch_world ++ [CreateWorkflow (new_record sample_md5 launch_world)] /\
  find_workflow (w_db (after_store sample_md5 sample_calc_kill launch_world))
    (fresh_uuid (w_db launch_world))
  = Some (new_record sample_md5 launch_world) /\
  find_workflow (w_db launch_world) (fresh_uuid (w_db launch_world)) = None /\
  _to_be_stored (w_self (after_store sample_md5 sample_calc_kill launch_world)) = false.
Proof.
  apply (step_with_arguments_still_stores sample_md5 sample_format_exc sample_calc_kill
           1000 launch_world "start" never_called 1).
  - reflexivity.
  - lia.
Defined.

Lemma step_reinvocation_keeps_record_witness :
  step_prologue sample_md5 sample_calc_kill 1000 "start" 0 flush_world
  = (Ok start_record, flush_world).
Proof.
  apply (step_reinvocation_keeps_record sample_md5 sample_calc_kill 1000
           flush_world 1 (sample_row 1 CREATED "") "start" start_record).
  - reflexivity.
  - split; reflexivity.
  - reflexivity.
  - reflexivity.
  - discriminate.
  - discriminate.
  - now left.
Defined.

Lemma step_handler_failure_escapes_witness :
  step sample_md5 sample_format_exc sample_calc_kill 1000 "go" raising_body 0
       shared_world
  = (Raise MultipleObjectsReturned,
     commit sample_calc_kill [CreateStep (new_step 3 "go")] shared_world).
Proof.
  apply (step_handler_failure_escapes sample_md5 sample_format_exc sample_calc_kill 1000
           shared_world "go" 0 raising_body (new_step 3 "go")
           (commit sample_calc_kill [CreateStep (new_step 3 "go")] shared_world)
           (UserException "RuntimeError: boom")
           (commit sample_calc_kill [CreateStep (new_step 3 "go")] shared_world)
           3 (sample_row 3 CREATED "")
           (mkDbWorkflowStep 1 "a" RUNNING "b" [] [3])
           (mkDbWorkflowStep 2 "a" RUNNING "b" [] [3]) []).
  - reflexivity.
  - reflexivity.
  - split; reflexivity.
  - reflexivity.
  - lia.
Defined.

Lemma kill_changes_only_what_it_walks_witness :
  exists w',
    kill sample_calc_kill 1000 1 tree_world = (Ok tt, w') /\
    w_self w' = w_self tree_world /\
    db_steps (w_db w') = db_steps (w_db tree_world) /\
    (forall v, reaches_running (w_db tree_world) 1 v ->
       find_workflow (w_db w') v
       = option_map (with_wf_status FINISHED) (find_workflow (w_db tree_world) v)) /\
    (forall v, ~ reaches_running (w_db tree_world) 1 v ->
       find_workflow (w_db w') v = find_workflow (w_db tree_world) v) /\
    (forall c,
       (forall v s, reaches_running (w_db tree_world) 1 v ->
          running_step (w_db tree_world) v s -> ~ In c (st_calculations s)) ->
       calc_state_of (w_db w') c = calc_state_of (w_db tree_world) c).
Proof.
  apply (kill_changes_only_what_it_walks sample_md5 sample_calc_kill 1000 tree_world 1 2).
  - exact tree_world_killable.
  - lia.
Defined.

Lemma before_world_killable r :
  In r (db_workflows (w_db before_world)) ->
  killable (w_db before_world) 1000 (wf_uuid r).
Proof.
  assert (H2 : killable (w_db before_world) 1 2).
  { apply (killable_intro _ 0 2 (sample_row 2 RUNNING "")); [reflexivity|].
    intros s x (Hin & Hp & Hs) Hx.
    destruct Hin as [<-|[<-|[<-|[]]]]; try discriminate. destruct Hx. }
  assert (H3 : killable (w_db before_world) 1 3).
  { apply (killable_intro _ 0 3 (sample_row 3 RUNNING "")); [reflexivity|].
    intros s x (Hin & Hp & Hs) Hx.
    destruct Hin as [<-|[<-|[<-|[]]]]; try discriminate. destruct Hx. }
  assert (H1 : killable (w_db before_world) 2 1).
  { apply (killable_intro _ 1 1 (sample_row 1 RUNNING "")); [reflexivity|].
    intros s x (Hin & Hp & Hs) Hx.
    destruct Hin as [<-|[<-|[<-|[]]]]; try discriminate.
    destruct Hx as [<-|[]]. exact H2. }
  intros [<-|[<-|[<-|[]]]]; cbn [wf_uuid sample_row].
  - apply (killable_le _ 2); [exact H1|lia].
  - apply (killable_le _ 1); [exact H2|lia].
  - apply (killable_le _ 1); [exact H3|lia].
Qed.

Lemma before_world_loadable r :
  In r (db_workflows (w_db before_world)) ->
  loadable demo_importable (w_db before_world) (wf_uuid r).
Proof.
  intros [<-|[<-|[<-|[]]]];
    eexists; eexists; eexists; (split; [reflexivity|]); split; reflexivity.
Qed.

(** Scenario 5 of the specification with a third workflow, of another
    user. *)
Lemma kill_all_finishes_every_workflow_witness :
  exists w',
    kill_all sample_calc_kill 1000 demo_importable sample_wf_user (Ok 7) before_world
    = (Ok tt, w') /\
    (forall r, In r (db_workflows (w_db w')) -> sample_wf_user (wf_uuid r) = 7 ->
       wf_status r = FINISHED) /\
    (forall v,
       (forall r, In r (db_workflows (w_db before_world)) ->
          sample_wf_user (wf_uuid r) = 7 -> wf_status r <> FINISHED ->
          ~ reaches_running (w_db before_world) (wf_uuid r) v) ->
       find_workflow (w_db w') v = find_workflow (w_db before_world) v) /\
    map wf_uuid (db_workflows (w_db w')) = map wf_uuid (db_workflows (w_db before_world)) /\
    db_steps (w_db w') = db_steps (w_db before_world).
Proof.
  apply (kill_all_finishes_every_workflow sample_md5 sample_calc_kill 1000
           demo_importable sample_wf_user 7 before_world).
  intros r Hr _ _. split.
  - now apply before_world_loadable.
  - now apply before_world_killable.
Defined.

(** Workflow 3, of user 8, is still RUNNING after the [kill_all] of
    user 7. *)
Lemma kill_all_spares_other_users :
  exists w',
    kill_all sample_calc_kill 1000 demo_importable sample_wf_user (Ok 7) before_world
    = (Ok tt, w') /\
    wf_status_of (w_db w') 1 = Some FINISHED /\
    wf_status_of (w_db w') 2 = Some FINISHED /\
    wf_status_of (w_db w') 3 = Some RUNNING.
Proof.
  eexists. split; [vm_compute; reflexivity|]. repeat split.
Qed.


Lemma failed_world_names :
  NoDup (map st_name (steps_of (w_db failed_world) 1)).
Proof. cbn. constructor; [intros []|constructor]. Qed.

Lemma failed_world_revivable s x :
  In s (steps_of (w_db failed_world) 1) -> st_status s = ERROR ->
  In x (st_sub_workflows s) -> killable (w_db failed_world) 1000 x.
Proof.
  intros [<-|[]] _ [<-|[]].
  apply (killable_le _ 1); [|lia]. apply failed_world_sub_killable. now left.
Qed.

(** Scenario 2 of the specification, for a step that failed after it had
    attached a calculation and a sub-workflow and named its successor. *)
Lemma revive_resets_error_steps_witness :
  exists w',
    revive sample_md5 sample_calc_kill 1000 failed_world = (Ok tt, w') /\
    w_self w' = w_self failed_world /\
    find_workflow (w_db w') 1 = Some (resealed sample_md5 (sample_row 1 RUNNING "")) /\
    db_steps (w_db w') = map (revived 1) (db_steps (w_db failed_world)) /\
    (forall s x v, In s (steps_of (w_db failed_world) 1) -> st_status s = ERROR ->
       In x (st_sub_workflows s) -> reaches_running (w_db failed_world) x v -> v <> 1 ->
       wf_status_of (w_db w') v = Some FINISHED) /\
    (forall s c, In s (steps_of (w_db failed_world) 1) -> st_status s = ERROR ->
       In c (st_calculations s) -> In (CalcKill c) (w_log w')) /\
    (forall s', In s' (db_steps (w_db w')) -> st_parent s' = 1 ->
       st_status s' <> ERROR).
Proof.
  apply (revive_resets_error_steps sample_md5 sample_calc_kill 1000 failed_world 1
           (sample_row 1 RUNNING "")).
  - split; reflexivity.
  - exact failed_world_names.
  - exact failed_world_revivable.
Defined.

Lemma edited_world_names :
  NoDup (map st_name (steps_of (w_db edited_world) 1)).
Proof. cbn. constructor; [intros []|constructor]. Qed.

Lemma edited_world_revivable s x :
  In s (steps_of (w_db edited_world) 1) -> st_status s = ERROR ->
  In x (st_sub_workflows s) -> killable (w_db edited_world) 1000 x.
Proof.
  intros [<-|[]] _ [<-|[]].
  apply (killable_le _ 1); [|lia].
  apply (killable_intro _ 0 2 (sample_row 2 RUNNING "")); [reflexivity|].
  intros s x (Hin & Hp & Hs) Hx.
  destruct Hin as [<-|[<-|[]]]; try discriminate. destruct Hx.
Qed.

Lemma revive_lets_next_through_witness :
  (forall caller next_method,
     next sample_md5 sample_calc_kill caller next_method edited_world
     = (Raise (IntegrityViolation sample_path), edited_world)) /\
  exists w',
    revive sample_md5 sample_calc_kill 1000 edited_world = (Ok tt, w') /\
    forall caller next_method path,
      fst (next sample_md5 sample_calc_kill caller next_method w')
      <> Raise (IntegrityViolation path).
Proof.
  apply (revive_lets_next_through sample_md5 sample_calc_kill 1000 edited_world 1
           (mkDbWorkflow 1 1 "aiida.workflows.user.demo" "WorkflowDemo"
              sample_path "md5 of another path" ERROR "")).
  - split; reflexivity.
  - discriminate.
  - exact edited_world_names.
  - exact edited_world_revivable.
Defined.

Lemma revive_keeps_the_pointer_witness :
  exists w',
    revive sample_md5 sample_calc_kill 1000 failed_world = (Ok tt, w') /\
    find_step (w_db w') 1 "start"
    = Some (reset_step (mkDbWorkflowStep 1 "start" ERROR "middle" [11] [2])) /\
    step_prologue sample_md5 sample_calc_kill 1000 "start" 0 w'
    = (Raise (StepAlreadyInitialized "start"), w').
Proof.
  apply (revive_keeps_the_pointer sample_md5 sample_calc_kill 1000 failed_world 1
           (sample_row 1 RUNNING "") "start"
           (mkDbWorkflowStep 1 "start" ERROR "middle" [11] [2])).
  - reflexivity.
  - split; reflexivity.
  - exact failed_world_names.
  - exact failed_world_revivable.
  - reflexivity.
  - reflexivity.
  - reflexivity.
Defined.

Lemma child_world_readable : readable_root demo_importable (w_db child_world) 1 2 1.
Proof.
  apply (readable_root_up _ _ 0 2 (sample_row 2 RUNNING "child")
           (mkDbWorkflowStep 1 "start" RUNNING "middle" [] [2]) 1);
    try reflexivity.
  - eexists; eexists; eexists. split; [reflexivity|]. split; reflexivity.
  - apply (readable_root_here _ _ 1 (sample_row 1 RUNNING ("started" ++ newline)%string));
      reflexivity.
Qed.

(** Scenario 6 of the specification, read back. *)
Lemma get_report_reads_what_append_wrote_witness :
  get_report 1000 sample_splitlines demo_importable child_world
  = (Ok ["started"], child_world) /\
  exists w',
    append_to_report sample_calc_kill 1000 "x" child_world = (Ok tt, w') /\
    get_report 1000 sample_splitlines demo_importable w' = (Ok ["started"; "x"], w').
Proof.
  exact (get_report_reads_what_append_wrote sample_calc_kill 1000 sample_splitlines
           demo_importable "x" child_world 1 2 1 ("started" ++ newline)%string
           eq_refl child_world_readable ltac:(lia) eq_refl).
Defined.

Lemma clear_report_empties_the_root_witness :
  exists w',
    clear_report 1000 child_world = (Ok tt, w') /\
    find_workflow (w_db w') 1
    = option_map with_empty_report (find_workflow (w_db child_world) 1) /\
    wf_report_of (w_db w') 1 = Some ""%string /\
    (forall v, v <> 1 -> find_workflow (w_db w') v = find_workflow (w_db child_world) v) /\
    db_steps (w_db w') = db_steps (w_db child_world) /\
    w_log w' = w_log child_world /\
    forall splitlines importable,
      readable_root importable (w_db child_world) 1 2 1 ->
      get_report 1000 splitlines importable w' = (Ok (splitlines ""%string), w').
Proof.
  apply (clear_report_empties_the_root 1000 child_world 1 2 1).
  - reflexivity.
  - exact child_world_root.
  - lia.
Defined.

Lemma get_report_needs_the_parent_class_witness :
  get_report 1000 sample_splitlines [] child_world
  = (Raise (InternalError "Unable to load the workflow module aiida.workflows.user.demo"),
     child_world) /\
  forall n r text,
    report_root (w_db child_world) n 2 r -> n < 1000 ->
    append_to_report sample_calc_kill 1000 text child_world
    = (Ok tt, commit sample_calc_kill [AppendReport r text] child_world).
Proof.
  apply (get_report_needs_the_parent_class sample_calc_kill 1000 sample_splitlines []
           child_world 2 (sample_row 2 RUNNING "child")
           (mkDbWorkflowStep 1 "start" RUNNING "middle" [] [2])
           (sample_row 1 RUNNING ("started" ++ newline)%string)).
  - split; reflexivity.
  - reflexivity.
  - reflexivity.
  - reflexivity.
  - lia.
Defined.

Lemma load_dbenv_explicit_profile_witness :
  fst (_load_dbenv_noschemacheck sample_externals (Some "daemon") (Some "test")
         profiled_env) = Returns tt /\
  AIIDADB_PROFILE (snd (_load_dbenv_noschemacheck sample_externals (Some "daemon")
                          (Some "test") profiled_env)) = Some "test"%string /\
  fst (_load_dbenv_noschemacheck sample_externals None (Some "test") profiled_env)
  = Fails (ValueError
      "You are specifying a profile, but the settings_profile.AIIDADB_PROFILE is already set") /\
  AIIDADB_PROFILE (snd (_load_dbenv_noschemacheck sample_externals None (Some "test")
                          profiled_env)) = Some "production"%string.
Proof.
  destruct (load_dbenv_explicit_profile sample_externals (Some "daemon") "test"
              profiled_env eq_refl) as [Haccept _].
  destruct (load_dbenv_explicit_profile sample_externals None "test"
              profiled_env eq_refl) as [_ Hrefuse].
  destruct Haccept as (H1 & H2 & _).
  { right. exists "daemon"%string. split; [reflexivity|discriminate]. }
  destruct (Hrefuse "production"%string eq_refl (or_introl eq_refl)) as (H3 & H4 & _).
  repeat split; assumption.
Defined.

Lemma check_schema_version_sets_or_compares_witness :
  check_schema_version sample_externals fresh_env
  = (Returns tt, set_db_schema_version sample_externals "1.0.2" fresh_env) /\
  get_db_schema_version sample_externals
    (set_db_schema_version sample_externals "1.0.2" fresh_env) = Some "1.0.2"%string /\
  check_schema_version sample_externals
    (set_db_schema_version sample_externals "1.0.2" fresh_env)
  = (Returns tt, set_db_schema_version sample_externals "1.0.2" fresh_env).
Proof.
  destruct (check_schema_version_sets_or_compares sample_externals fresh_env) as [_ H].
  - intros key value description store. cbn. now rewrite String.eqb_refl.
  - exact (H eq_refl).
Defined.

Lemma launched_workflow_resumes_witness :
  frame_funct demo_frame = "__init__"%string /\
  (exists module, frame_module demo_frame = Some module /\
                  String.prefix "aiida.workflows" module = true) /\
  _to_be_stored (w_self launch_world) = true /\
  (exists e, Workflow___init__ (w_db launch_world)
               (Some (fresh_uuid (w_db launch_world))) false demo_frame = InitRaise e) /\
  store sample_md5 sample_calc_kill launch_world
  = (Ok tt, after_store sample_md5 sample_calc_kill launch_world) /\
  Workflow___init__ (w_db (after_store sample_md5 sample_calc_kill launch_world))
    (Some (fresh_uuid (w_db launch_world))) false demo_frame
  = Built (mkWorkflow false (Some (fresh_uuid (w_db launch_world))) "" "" "" [] []) /\
  get_subclass_from_uuid demo_importable
    (w_db (after_store sample_md5 sample_calc_kill launch_world))
    (fresh_uuid (w_db launch_world))
  = Ok (Some (mkWorkflow false (Some (fresh_uuid (w_db launch_world))) "" "" "" [] [])).
Proof.
  apply (launched_workflow_resumes sample_md5 sample_calc_kill (w_db launch_world) false
           demo_frame (w_self launch_world) (w_files launch_world) (w_log launch_world)
           demo_importable [("os", NotCallable); ("WorkflowDemo", WorkflowSubclass)]
           "WorkflowDemo"%string).
  - reflexivity.
  - reflexivity.
  - reflexivity.
Defined.

Lemma next_keeps_the_buffers_witness :
  w_self (flushed_world sample_calc_kill) = w_self flush_world /\
  exists u,
    _dbworkflowinstance (w_self flush_world) = Some u /\
    next sample_md5 sample_calc_kill "start" (Some (decorated "end"))
         (flushed_world sample_calc_kill)
    = (Ok tt,
       commit sample_calc_kill
         (flush_ops u "start"
            (buffered "start" (attach_calc_lazy_storage (w_self flush_world)))
            (buffered "start" (attach_subwf_lazy_storage (w_self flush_world)))
          ++ [SetNextcall u "start" "end"; SetWfStatus u RUNNING;
              SetStepStatus u "start" RUNNING]) (flushed_world sample_calc_kill)).
Proof.
  apply (next_keeps_the_buffers sample_md5 sample_calc_kill flush_world "start"
           (Some (decorated "middle")) (flushed_world sample_calc_kill)
           (decorated "end") "end"%string).
  - reflexivity.
  - reflexivity.
Defined.

Lemma attachments_belong_to_the_caller_witness :
  exists w1 w2,
    bind (attach_calculation "middle" 13) (fun _ => attach_workflow "middle" 2) flush_world
    = (Ok tt, w1) /\
    w_db w1 = w_db flush_world /\ w_log w1 = w_log flush_world /\
    next sample_md5 sample_calc_kill "start" (Some (decorated "end")) w1 = (Ok tt, w2) /\
    w_log w2
    = w_log flush_world
      ++ flush_ops 1 "start"
           (buffered "start" (attach_calc_lazy_storage (w_self flush_world)))
           (buffered "start" (attach_subwf_lazy_storage (w_self flush_world)))
      ++ [SetNextcall 1 "start" "end"; SetWfStatus 1 RUNNING;
          SetStepStatus 1 "start" RUNNING] /\
    find_step (w_db w2) 1 "middle" = find_step (w_db flush_world) 1 "middle" /\
    buffered "middle" (attach_calc_lazy_storage (w_self w2))
    = buffered "middle" (attach_calc_lazy_storage (w_self flush_world)) ++ [13] /\
    buffered "middle" (attach_subwf_lazy_storage (w_self w2))
    = buffered "middle" (attach_subwf_lazy_storage (w_self flush_world)) ++ [2].
Proof.
  apply (attachments_belong_to_the_caller sample_md5 sample_calc_kill flush_world 1
           (sample_row 1 CREATED "") "middle" "start" 13 2 start_record
           (decorated "end") "end"%string).
  - split; reflexivity.
  - reflexivity.
  - reflexivity.
  - reflexivity.
  - reflexivity.
  - reflexivity.
Defined.

Lemma next_after_kill_sets_running_again_witness :
  exists w1 w2,
    kill sample_calc_kill 1000 1 before_world = (Ok tt, w1) /\
    wf_status_of (w_db w1) 1 = Some FINISHED /\
    next sample_md5 sample_calc_kill "s" (Some (decorated "end")) w1 = (Ok tt, w2) /\
    wf_status_of (w_db w2) 1 = Some RUNNING /\
    option_map st_status (find_step (w_db w2) 1 "s") = Some RUNNING /\
    option_map st_nextcall (find_step (w_db w2) 1 "s") = Some "end"%string.
Proof.
  apply (next_after_kill_sets_running_again sample_md5 sample_calc_kill 1000 before_world 1
           (sample_row 1 RUNNING "") "s" (mkDbWorkflowStep 1 "s" RUNNING "t" [10] [2])
           (decorated "end") "end"%string 1000).
  - split; reflexivity.
  - reflexivity.
  - reflexivity.
  - reflexivity.
  - reflexivity.
  - exact (before_world_killable (sample_row 1 RUNNING "") (or_introl eq_refl)).
  - lia.
Defined.

Lemma kill_twice_is_kill_once_witness :
  exists w1 w2,
    kill sample_calc_kill 1000 1 before_world = (Ok tt, w1) /\
    kill sample_calc_kill 1000 1 w1 = (Ok tt, w2) /\
    w_db w2 = w_db w1 /\
    w_self w2 = w_self w1 /\
    forall o, In o (w_log w2) -> In o (w_log w1).
Proof.
  apply (kill_twice_is_kill_once sample_md5 sample_calc_kill 1000 before_world 1 1000).
  - exact (before_world_killable (sample_row 1 RUNNING "") (or_introl eq_refl)).
  - lia.
Defined.

Lemma load_dbenv_default_profile_witness :
  CURRENT_AIIDADB_PROCESS
    (snd (_load_dbenv_noschemacheck sample_externals None None fresh_env))
  = Some "verdi"%string /\
  fst (_load_dbenv_noschemacheck sample_externals None None fresh_env) = Returns tt /\
  AIIDADB_PROFILE (snd (_load_dbenv_noschemacheck sample_externals None None fresh_env))
  = Some "default of verdi"%string /\
  AIIDADB_PROFILE (snd (_load_dbenv_noschemacheck sample_externals None None profiled_env))
  = Some "production"%string /\
  AIIDADB_PROFILE
    (snd (_load_dbenv_noschemacheck sample_externals (Some "daemon") None profiled_env))
  = Some "default of daemon"%string.
Proof.
  destruct (load_dbenv_default_profile sample_externals None fresh_env eq_refl)
    as (Hprocess & _ & Hdefault).
  destruct (load_dbenv_default_profile sample_externals None profiled_env eq_refl)
    as (_ & Hkept & _).
  destruct (load_dbenv_default_profile sample_externals (Some "daemon"%string)
              profiled_env eq_refl) as (_ & _ & Hchanged).
  destruct (Hdefault (or_introl eq_refl)) as [Hends Hprofile].
  destruct (Hkept "production"%string eq_refl (or_introl eq_refl)) as [_ Hsame].
  destruct Hchanged as [_ Hnew].
  { right. exists "daemon"%string. split; [reflexivity|discriminate]. }
  repeat split; assumption.
Defined.

(** Scenario 1 of the specification when the disk is full at the first
    step: the record stays behind, and the next attempt creates
    another. *)
Lemma wrapper_commits_once_if_store_returns_witness :
  step_prologue_with sample_md5 sample_calc_kill 1000 failing_move "start" 0 launch_world
  = (Raise (UserException "OSError: [Errno 28] No space left on device"),
     after_failed_store sample_md5 sample_calc_kill launch_world) /\
  _to_be_stored (w_self (after_failed_store sample_md5 sample_calc_kill launch_world))
  = true /\
  db_workflows (w_db (after_failed_store sample_md5 sample_calc_kill launch_world))
  = db_workflows (w_db launch_world) ++ [new_record sample_md5 launch_world] /\
  (forall src_abs dst_path,
     add_path (w_self (after_failed_store sample_md5 sample_calc_kill launch_world))
       src_abs dst_path
     = add_path (w_self launch_world) src_abs dst_path) /\
  forall c' m' nargs', store_calls_return c' ->
    List.length (db_workflows
              (w_db (snd (step_prologue_with sample_md5 sample_calc_kill 1000 c' m' nargs'
                            (after_failed_store sample_md5 sample_calc_kill launch_world)))))
    = List.length (db_workflows (w_db launch_world)) + 2.
Proof.
  destruct (wrapper_commits_once_if_store_returns sample_md5 sample_calc_kill 1000
              failing_move "start" 0 launch_world) as [_ Hfails].
  destruct (Hfails eq_refl) as [_ Hlate].
  apply (Hlate (UserException "OSError: [Errno 28] No space left on device")).
  - reflexivity.
  - right. split; reflexivity.
Defined.
